(** * SCALPING_BOT: reconciliation and risk-control loop

    A shallow embedding of the Python sources of the trading bot
    (position sizing, trade limits, kill switch, order rounding, position
    tracking, TP/SL protection, market-data validation and the main loop;
    then the retry decorator, the strategy, the bot state and the
    scheduler), with the properties of its specification stated and settled
    against it, and further properties of the code itself.

    Conventions of the embedding:
    - a Python [float] is an IEEE-754 binary64 value: Rocq's primitive
      [float], whose [+], [*], [/] and comparisons are the ones Python uses;
    - a Python [int] is a [Z];
    - a [decimal.Decimal] is a [PyDecimal.t]: the sign, coefficient and
      exponent of a finite number, an infinity or NaN, with the arithmetic
      of the 28-digit context the order manager sets;
    - an exception is a value of [exn]; a call that may raise returns a
      [res]; objects mutated in place are fields of one [Store] threaded
      through the monad [M], and a raise keeps the mutations made so far;
    - everything the bot sends to, or receives from, the outside (exchange
      requests, log lines, sleeps) is recorded in the store's [trace]; the
      answers of the outside are the fields of a [World]. *)

From Stdlib Require Import ZArith QArith Bool List String Floats Lia.
From Stdlib Require Uint63.
Import ListNotations.

Set Implicit Arguments.
#[global] Set Warnings "-inexact-float".

(* ===================================================================== *)
(** * Python runtime: exceptions, results, floats                         *)
(* ===================================================================== *)

(** The exception classes the sources raise or catch. [RequestException]
    is what the transport raises once [infra/retry.py] has exhausted its
    attempts; [DecimalException] stands for [decimal]'s arithmetic signals
    ([InvalidOperation], [DivisionByZero]). *)
Inductive exn : Type :=
| ValueError
| BinanceAPIError
| RequestException
| ZeroDivisionError
| DecimalException
| KeyboardInterrupt.

Definition exn_eqb (a b : exn) : bool :=
  match a, b with
  | ValueError, ValueError
  | BinanceAPIError, BinanceAPIError
  | RequestException, RequestException
  | ZeroDivisionError, ZeroDivisionError
  | DecimalException, DecimalException
  | KeyboardInterrupt, KeyboardInterrupt => true
  | _, _ => false
  end.

Inductive res (A : Type) : Type :=
| Ok (a : A)
| Raise (e : exn).
Arguments Ok {A} a.
Arguments Raise {A} e.

Definition res_bind {A B} (r : res A) (k : A -> res B) : res B :=
  match r with
  | Ok a => k a
  | Raise e => Raise e
  end.

Declare Scope res_scope.
Delimit Scope res_scope with res.
Notation "x <- c ;; k" := (res_bind c (fun x => k))
  (at level 61, c at next level, right associativity) : res_scope.

Module PyFloat.

(** [a / b] on Python floats: IEEE division, except that a zero divisor
    (of either sign) raises [ZeroDivisionError]. *)
Definition truediv (a b : float) : res float :=
  if PrimFloat.eqb b 0 then Raise ZeroDivisionError else Ok (a / b)%float.

(** [x > 0], [x <= 0], ... are the IEEE comparisons: false on NaN. *)
Definition gt0 (x : float) : bool := PrimFloat.ltb 0 x.
Definition le0 (x : float) : bool := PrimFloat.leb x 0.
Definition lt0 (x : float) : bool := PrimFloat.ltb x 0.

End PyFloat.

(* ===================================================================== *)
(** * Python runtime: [decimal.Decimal]                                   *)
(* ===================================================================== *)

(** The part of [decimal] that exchange/order_manager.py uses:
    [Decimal(str(x))] of a float, [//], [*] and [float(...)], under the
    default context with [prec = 28] ([ROUND_HALF_EVEN], the arithmetic
    signals trapped). The exponent limits of the context ([Emax = 999999])
    are out of the reach of [Decimal(str(x))] of a float, and are not
    modelled. *)
Module PyDecimal.

Local Open Scope Z_scope.

(** [getcontext().prec = 28] ([OrderManager.__init__]). *)
Definition prec : Z := 28.

(** A [Decimal]: sign, coefficient and exponent of a finite number (its
    value is [coefficient * 10 ^ exponent], negated when [negative]), an
    infinity, or the quiet NaN. *)
Inductive t : Type :=
| Finite (negative : bool) (coefficient : N) (exponent : Z)
| Infinity (negative : bool)
| NaN.

(** The value of [coefficient * 10 ^ exponent] as a fraction. *)
Definition num (c : N) (e : Z) : Z :=
  if 0 <=? e then Z.of_N c * 10 ^ e else Z.of_N c.

Definition den (e : Z) : Z :=
  if 0 <=? e then 1 else 10 ^ (- e).

Definition value (a : t) : Q :=
  match a with
  | Finite s c e =>
      let v := Qmake (num c e) (Z.to_pos (den e)) in
      if s then Qopp v else v
  | _ => 0%Q
  end.

(** The integer part of the quotient of two coefficients with exponents,
    as [_divide] computes it with [divmod]. *)
Definition quotient (c1 : N) (e1 : Z) (c2 : N) (e2 : Z) : Z :=
  if e2 <=? e1
  then (Z.of_N c1 * 10 ^ (e1 - e2)) / Z.of_N c2
  else Z.of_N c1 / (Z.of_N c2 * 10 ^ (e2 - e1)).

(** [a // b]. The integer part of the quotient, truncated toward zero, with
    exponent 0. A zero divisor raises ([DivisionByZero], or
    [DivisionUndefined] for [0 // 0]), and so do [Infinity // Infinity] and
    a quotient of more than [prec] digits ([DivisionImpossible]); a NaN
    operand gives NaN. *)
Definition floordiv (a b : t) : res t :=
  match a, b with
  | NaN, _ | _, NaN => Ok NaN
  | Infinity _, Infinity _ => Raise DecimalException
  | Infinity sa, Finite sb _ _ => Ok (Infinity (xorb sa sb))
  | Finite sa c1 e1, Finite sb c2 e2 =>
      if (c2 =? 0)%N then Raise DecimalException
      else
        let q := quotient c1 e1 c2 e2 in
        if q <? 10 ^ prec then Ok (Finite (xorb sa sb) (Z.to_N q) 0)
        else Raise DecimalException
  | Finite sa _ _, Infinity sb => Ok (Finite (xorb sa sb) 0 0)
  end.

(** The number of decimal digits of a coefficient. *)
Fixpoint digits_loop (fuel : nat) (n : Z) : Z :=
  match fuel with
  | O => 1
  | S fuel' => if n <? 10 then 1 else 1 + digits_loop fuel' (n / 10)
  end.

Definition digits (n : Z) : Z := digits_loop (Z.to_nat (Z.log2 n)) n.

(** [n / d] rounded to the nearest integer, ties to the even one
    ([ROUND_HALF_EVEN], the rounding of the default context). *)
Definition round_half_even (n d : Z) : Z :=
  let q := n / d in
  match 2 * (n mod d) ?= d with
  | Lt => q
  | Gt => q + 1
  | Eq => if Z.even q then q else q + 1
  end.

(** [_fix]: a coefficient of more than [prec] digits is rounded to [prec]
    digits. *)
Definition fix_ (s : bool) (c : N) (e : Z) : t :=
  let extra := digits (Z.of_N c) - prec in
  if extra <=? 0 then Finite s c e
  else
    let c' := round_half_even (Z.of_N c) (10 ^ extra) in
    if c' =? 10 ^ prec
    then Finite s (Z.to_N (10 ^ (prec - 1))) (e + extra + 1)
    else Finite s (Z.to_N c') (e + extra).

(** [a * b]: the exact product, rounded to the precision of the context;
    [Infinity * 0] raises. *)
Definition mul (a b : t) : res t :=
  match a, b with
  | NaN, _ | _, NaN => Ok NaN
  | Infinity sa, Infinity sb => Ok (Infinity (xorb sa sb))
  | Infinity sa, Finite sb c _ =>
      if (c =? 0)%N then Raise DecimalException
      else Ok (Infinity (xorb sa sb))
  | Finite sa c _, Infinity sb =>
      if (c =? 0)%N then Raise DecimalException
      else Ok (Infinity (xorb sa sb))
  | Finite sa c1 e1, Finite sb c2 e2 =>
      Ok (fix_ (xorb sa sb) (c1 * c2) (e1 + e2))
  end.

(** ** [float(d)]: the double nearest to a Decimal

    The non-negative doubles in increasing order are numbered by their bit
    patterns: 0 is [0.0], 1 the least subnormal, [2 ^ 52] the least normal
    and [index_inf] is [inf]. *)
Definition index_inf : Z := 2047 * 2 ^ 52.

(** Significand and exponent of the double of index [i]: its value is
    [mantissa i * 2 ^ (exponent i - 1074)]. *)
Definition mantissa (i : Z) : Z :=
  if i <? 2 ^ 52 then i else 2 ^ 52 + i mod 2 ^ 52.

Definition exponent (i : Z) : Z :=
  if i <? 2 ^ 52 then 0 else i / 2 ^ 52 - 1.

(** The value of the double of index [i], in units of [2 ^ -1074]. *)
Definition scaled (i : Z) : Z := Z.shiftl (mantissa i) (exponent i).

(** The double of index [i] is at most [n / d]. *)
Definition below (i n d : Z) : bool :=
  Z.shiftl (mantissa i * d) (exponent i) <=? Z.shiftl n 1074.

(** The greatest index in [[lo, hi)] whose double is at most [n / d]. *)
Fixpoint bisect (fuel : nat) (lo hi n d : Z) : Z :=
  match fuel with
  | O => lo
  | S fuel' =>
      let mid := (lo + hi) / 2 in
      if below mid n d then bisect fuel' mid hi n d
      else bisect fuel' lo mid n d
  end.

(** The index of the double nearest to [n / d >= 0], ties to the even
    significand; from the midpoint of the largest finite double and
    [2 ^ 1024] on, it is [inf]. *)
Definition nearest_index (n d : Z) : Z :=
  if below index_inf n d then index_inf
  else
    let lo := bisect 63 0 index_inf n d in
    match Z.shiftl n 1075 ?= (scaled lo + scaled (lo + 1)) * d with
    | Lt => lo
    | Gt => lo + 1
    | Eq => if Z.even lo then lo else lo + 1
    end.

Definition sf_of_index (i : Z) : spec_float :=
  if i =? 0 then S754_zero false
  else if i <? index_inf
       then S754_finite false (Z.to_pos (mantissa i)) (exponent i - 1074)
  else S754_infinity false.

Definition float_of_index (i : Z) : float := SF2Prim (sf_of_index i).

(** [float(a)]: correctly rounded, as [float(str(a))] is. *)
Definition to_float (a : t) : float :=
  match a with
  | NaN => nan
  | Infinity s => if s then neg_infinity else infinity
  | Finite s c e =>
      let x := float_of_index (nearest_index (num c e) (den e)) in
      if s then (- x)%float else x
  end.

(** ** [Decimal(str(x))]

    [str] of a float is the shortest string of digits that reads back as
    the same double, the nearest to its value if there are several. *)

(** floor(log10 (n / d)) for [n / d > 0]. *)
Definition adjusted (n d : Z) : Z :=
  if d <=? n then digits (n / d) - 1
  else
    let k := digits (d / n) in
    if d <=? 10 ^ (k - 1) * n then - (k - 1) else - k.

(** The decimal [c * 10 ^ e] reads back as the double of index [i]. *)
Definition reads_back (i c e : Z) : bool :=
  nearest_index (num (Z.to_N c) e) (den e) =? i.

(** [reads i c e]: the decimal [c * 10 ^ e], with [c >= 0], rounds to the
    double of index [i]. *)
Definition reads (i c e : Z) : Prop :=
  0 <= c /\ nearest_index (num (Z.to_N c) e) (den e) = i.

(** The decimals of [k] digits around [n / d]: the one that reads back as
    the double of index [i], the nearer one if both do; its coefficient and
    exponent. *)
Definition candidate (i n d k : Z) : option (Z * Z) :=
  let e := adjusted n d - k + 1 in
  let N := if 0 <=? e then n else n * 10 ^ (- e) in
  let D := if 0 <=? e then d * 10 ^ e else d in
  let lo := N / D in
  let hi := lo + 1 in
  if N mod D =? 0 then Some (lo, e)
  else
    match reads_back i lo e, reads_back i hi e with
    | true, true =>
        match 2 * (N mod D) ?= D with
        | Lt => Some (lo, e)
        | Gt => Some (hi, e)
        | Eq => Some (if Z.even lo then lo else hi, e)
        end
    | true, false => Some (lo, e)
    | false, true => Some (hi, e)
    | false, false => None
    end.

(** The first number of digits, from [k] on, with which a decimal reads
    back. *)
Fixpoint shortest_from (fuel : nat) (i n d k : Z) (otherwise : Z * Z)
  : Z * Z :=
  match fuel with
  | O => otherwise
  | S fuel' =>
      match candidate i n d k with
      | Some ce => ce
      | None => shortest_from fuel' i n d (k + 1) otherwise
      end
  end.

Fixpoint strip_zeros (fuel : nat) (c e : Z) : Z * Z :=
  match fuel with
  | O => (c, e)
  | S fuel' =>
      if (c mod 10 =? 0) && negb (c =? 0)
      then strip_zeros fuel' (c / 10) (e + 1)
      else (c, e)
  end.

(** The digits of [repr] and their exponent, for the value [n / d > 0] of
    a double. Seventeen digits always read back; [exact], the digits of
    the value itself, stands after them to make the search total. *)
Definition shortest (n d : Z) (exact : Z * Z) : Z * Z :=
  let (c, e) := shortest_from 17 (nearest_index n d) n d 1 exact in
  strip_zeros 17 c e.

(** [repr] writes the digits in fixed notation when the decimal point
    falls within them or at most four places before or sixteen after their
    start, with [.0] after an integer, and in scientific notation
    otherwise; [Decimal] keeps the digits and the exponent written. *)
Definition of_digits (s : bool) (c e : Z) : t :=
  let decpt := e + digits c in
  if (decpt <=? -4) || (16 <? decpt) then Finite s (Z.to_N c) e
  else if 0 <=? e then Finite s (Z.to_N (c * 10 ^ (e + 1))) (-1)
  else Finite s (Z.to_N c) e.

Definition of_float (x : float) : t :=
  match Prim2SF x with
  | S754_nan => NaN
  | S754_infinity s => Infinity s
  | S754_zero s => Finite s 0 (-1)
  | S754_finite s m e =>
      let n := if 0 <=? e then Zpos m * 2 ^ e else Zpos m in
      let d := if 0 <=? e then 1 else 2 ^ (- e) in
      let exact := if 0 <=? e then (n, 0) else (Zpos m * 5 ^ (- e), e) in
      let (c, e10) := shortest n d exact in
      of_digits s c e10
  end.

End PyDecimal.

(* ===================================================================== *)
(** * risk/position_sizer.py                                              *)
(* ===================================================================== *)

Module PositionSizer.

(** [compute_position_size(equity, risk_percent, entry_price, sl_percent)];
    [Ok None] is Python's [None] ("do not trade"). *)
Definition compute_position_size
    (equity risk_percent entry_price sl_percent : float) : res (option float) :=
  if PyFloat.le0 equity || PyFloat.le0 risk_percent
     || PyFloat.le0 entry_price || PyFloat.le0 sl_percent
  then Ok None
  else
    (qty <- PyFloat.truediv (equity * risk_percent)%float
                            (entry_price * sl_percent)%float ;;
     Ok (if PyFloat.gt0 qty then Some qty else None))%res.

End PositionSizer.

(* ===================================================================== *)
(** * config/risk.py                                                      *)
(* ===================================================================== *)

Module RiskConfig.

Definition RISK_PERCENT : float := 0.001%float.
Definition SL_PERCENT : float := 0.01%float.
Definition TP_PERCENT : float := 0.01%float.
Definition MAX_DAILY_LOSS : option float := None.
Definition MAX_TRADES_PER_DAY : option Z := None.
Definition MAX_TRADES_PER_HOUR : option Z := None.

End RiskConfig.

(* ===================================================================== *)
(** * The part of [datetime] that [risk/trade_limits.py] uses             *)
(* ===================================================================== *)

Module Datetime.

Local Open Scope Z_scope.

Definition MS_PER_HOUR : Z := 3600000.
Definition MS_PER_DAY : Z := 86400000.

(** Proleptic Gregorian ordinal of 1970-01-01 ([date.toordinal()]). *)
Definition EPOCH_ORDINAL : Z := 719163.

Definition _DI400Y : Z := 146097.
Definition _DI100Y : Z := 36524.
Definition _DI4Y : Z := 1461.

(** A [datetime] value, reduced to what the bot reads from it: its
    [date()] (two dates are equal iff their ordinals are), the year, the
    day of the year ([timetuple().tm_yday]) and the hour. *)
Record datetime : Type := {
  date : Z;
  year : Z;
  tm_yday : Z;
  hour : Z
}.

(** CPython's [_ord2ymd], returning the year and the day of the year. *)
Definition _ord2ymd (ordinal : Z) : Z * Z :=
  let n := ordinal - 1 in
  let n400 := n / _DI400Y in
  let n := n mod _DI400Y in
  let n100 := n / _DI100Y in
  let n := n mod _DI100Y in
  let n4 := n / _DI4Y in
  let n := n mod _DI4Y in
  let n1 := n / 365 in
  let n := n mod 365 in
  let y := n400 * 400 + 1 + n100 * 100 + n4 * 4 + n1 in
  if (n1 =? 4) || (n100 =? 4) then (y - 1, 366) else (y, n + 1).

(** [datetime.utcfromtimestamp(now_ms / 1000.0)] for an integer number
    of milliseconds. The float quotient is off by far less than the
    microsecond [utcfromtimestamp] rounds to, so the hour and the date are
    those of the exact millisecond. Years outside 1..9999 are refused. *)
Definition utcfromtimestamp_ms (now_ms : Z) : res datetime :=
  let days := now_ms / MS_PER_DAY in
  let ms_of_day := now_ms mod MS_PER_DAY in
  let ordinal := days + EPOCH_ORDINAL in
  let '(y, yd) := _ord2ymd ordinal in
  if (1 <=? y) && (y <=? 9999)
  then Ok {| date := ordinal; year := y; tm_yday := yd;
             hour := ms_of_day / MS_PER_HOUR |}
  else Raise ValueError.

End Datetime.

(* ===================================================================== *)
(** * risk/trade_limits.py                                                *)
(* ===================================================================== *)

Module TradeLimits.

Local Open Scope Z_scope.

Record t : Type := {
  daily_trades : Z;
  hourly_trades : Z;
  daily_loss : float;
  _current_day : Z;
  _current_hour_key : Z;
  max_daily_loss : option float;
  max_trades_per_day : option Z;
  max_trades_per_hour : option Z
}.

Definition _hour_key (dt_obj : Datetime.datetime) : Z :=
  Datetime.year dt_obj * 10000 + Datetime.tm_yday dt_obj * 24
  + Datetime.hour dt_obj.

(** [__init__]; [utcnow_ms] is the wall clock at construction, and the
    three limits are read from [config/risk.py]. *)
Definition init (utcnow_ms : Z) : res t :=
  (now <- Datetime.utcfromtimestamp_ms utcnow_ms ;;
   Ok {| daily_trades := 0;
         hourly_trades := 0;
         daily_loss := 0%float;
         _current_day := Datetime.date now;
         _current_hour_key := _hour_key now;
         max_daily_loss := RiskConfig.MAX_DAILY_LOSS;
         max_trades_per_day := RiskConfig.MAX_TRADES_PER_DAY;
         max_trades_per_hour := RiskConfig.MAX_TRADES_PER_HOUR |})%res.

Definition reset_day (day : Z) (l : t) : t :=
  {| daily_trades := 0;
     hourly_trades := hourly_trades l;
     daily_loss := 0%float;
     _current_day := day;
     _current_hour_key := _current_hour_key l;
     max_daily_loss := max_daily_loss l;
     max_trades_per_day := max_trades_per_day l;
     max_trades_per_hour := max_trades_per_hour l |}.

Definition reset_hour (hour_key : Z) (l : t) : t :=
  {| daily_trades := daily_trades l;
     hourly_trades := 0;
     daily_loss := daily_loss l;
     _current_day := _current_day l;
     _current_hour_key := hour_key;
     max_daily_loss := max_daily_loss l;
     max_trades_per_day := max_trades_per_day l;
     max_trades_per_hour := max_trades_per_hour l |}.

Definition reset_if_needed (now_ms : Z) (l : t) : res t :=
  (now <- Datetime.utcfromtimestamp_ms now_ms ;;
   let day := Datetime.date now in
   let hour_key := _hour_key now in
   let l := if negb (day =? _current_day l) then reset_day day l else l in
   let l := if negb (hour_key =? _current_hour_key l)
            then reset_hour hour_key l else l in
   Ok l)%res.

Definition count_trade (pnl : float) (l : t) : t :=
  {| daily_trades := daily_trades l + 1;
     hourly_trades := hourly_trades l + 1;
     daily_loss := if PyFloat.lt0 pnl then (daily_loss l + pnl)%float
                   else daily_loss l;
     _current_day := _current_day l;
     _current_hour_key := _current_hour_key l;
     max_daily_loss := max_daily_loss l;
     max_trades_per_day := max_trades_per_day l;
     max_trades_per_hour := max_trades_per_hour l |}.

Definition record_trade (pnl : float) (now_ms : Z) (l : t) : res t :=
  (l <- reset_if_needed now_ms l ;;
   Ok (count_trade pnl l))%res.

Definition limits_exceeded (l : t) : bool :=
  if match max_daily_loss l with
     | Some m => PrimFloat.leb (daily_loss l) (- PrimFloat.abs m)%float
     | None => false
     end then true
  else if match max_trades_per_day l with
          | Some m => m <? daily_trades l
          | None => false
          end then true
  else match max_trades_per_hour l with
       | Some m => m <? hourly_trades l
       | None => false
       end.

End TradeLimits.

(* ===================================================================== *)
(** * Data exchanged with the outside                                    *)
(* ===================================================================== *)

(** [Position.side] is ["LONG"] or ["SHORT"]; an order side is ["BUY"] or
    ["SELL"]; a candle interval is ["1m"] or ["5m"]. *)
Inductive Side : Type := LONG | SHORT.
Inductive OrderSide : Type := BUY | SELL.
Inductive Interval : Type := I1m | I5m.

Definition Side_eqb (a b : Side) : bool :=
  match a, b with
  | LONG, LONG | SHORT, SHORT => true
  | _, _ => false
  end.

(** position/position.py *)
Module Position.
Record t : Type := {
  symbol : string;
  side : Side;
  quantity : float;
  entry_price : float;
  entry_time : Z
}.
End Position.

(** One entry of ["positions"] in the account payload, with the fields the
    bot reads: [pos.get("symbol")], [float(pos.get("positionAmt", 0))],
    [float(pos.get("entryPrice", 0))], [int(pos.get("updateTime", 0))]. *)
Record RawPosition : Type := {
  rp_symbol : string;
  positionAmt : float;
  entryPrice : float;
  rp_updateTime : Z
}.

(** One entry of ["assets"] (amount = availableBalance) or of ["balances"]
    (amount = walletBalance). *)
Record Balance : Type := {
  asset : string;
  amount : float
}.

Record AccountInfo : Type := {
  positions : list RawPosition;
  assets : list Balance;
  balances : list Balance
}.

(** The fields read from an order response: [order.get("orderId")],
    [order.get("updateTime")], [order.get("transactTime")]. *)
Record OrderResponse : Type := {
  orderId : option Z;
  updateTime : option Z;
  transactTime : option Z
}.

(** A fill: [float(t.get("qty", 0))], [float(t.get("price", 0))]. *)
Record Fill : Type := {
  fill_qty : float;
  fill_price : float
}.

Record TradeRecord : Type := {
  realizedPnl : float;
  commission : float
}.

(** One entry of ["filters"] of the symbol info; the sizes are the values
    of [Decimal(str(...))], [None] when the key is absent. *)
Record FilterEntry : Type := {
  filterType : string;
  f_tickSize : option PyDecimal.t;
  f_stepSize : option PyDecimal.t
}.

(** A cell of a kline row is known by what [int(...)] and [float(...)]
    make of it. *)
Record Cell : Type := {
  py_int : res Z;
  py_float : res float
}.

(** A kline row is a JSON list of cells or something else; the whole
    payload is a JSON list of rows or something else. *)
Inductive KlineRow : Type :=
| RowNotList
| Row (cells : list Cell).

Inductive KlinesPayload : Type :=
| PayloadNotList
| Payload (rows : list KlineRow).

(** The normalised candles of exchange/market_data.py. *)
Record Candles : Type := {
  c_open : list float;
  c_high : list float;
  c_low : list float;
  c_close : list float;
  c_volume : list float;
  c_timestamp : list Z
}.

(** The dict [{"1m": candles_1m, "5m": candles_5m}] handed to the
    executor. *)
Record MarketData : Type := {
  data_1m : Candles;
  data_5m : Candles
}.

(* ===================================================================== *)
(** * Trace and world                                                     *)
(* ===================================================================== *)

Inductive level : Type := INFO | WARNING | ERROR.

(** The REST requests of exchange/binance_client.py. *)
Inductive request : Type :=
| GetAccountInfo
| GetKlines (symbol : string) (interval : Interval) (limit : Z)
| GetSymbolInfo (symbol : string)
| GetUserTrades (symbol : string) (order_id : Z)
| GetUserTradesHistory (symbol : string) (start_time_ms : Z)
| GetIncomeHistory (symbol : string) (start_time_ms : Z)
| PlaceMarketOrder (symbol : string) (side : OrderSide) (quantity : float)
| PlaceTakeProfit (symbol : string) (side : OrderSide)
                  (quantity stop_price : float)
| PlaceStopLoss (symbol : string) (side : OrderSide)
                (quantity stop_price : float)
| CancelOrder (symbol : string) (order_id : Z).

Inductive event : Type :=
| Log (lvl : level) (logger : string) (msg : string)
| Req (r : request)
| Sleep
| SaveCheckpoint (last_pnl_check_ms : Z).

(** What the outside answers. Every answer may depend on all that happened
    before (the trace so far), so a world is any deterministic environment:
    an exchange whose state changes as orders are placed, a clock, a
    keyboard. The last field is pure: the signal source (strategy/), which
    the bot only consults. *)
Record World : Type := {
  get_account_info : list event -> res AccountInfo;
  get_klines : list event -> string -> Interval -> Z -> res KlinesPayload;
  get_symbol_info : list event -> string -> res (list FilterEntry);
  get_user_trades : list event -> string -> Z -> res (list Fill);
  get_user_trades_history : list event -> string -> Z -> res (list TradeRecord);
  get_income_history : list event -> string -> Z -> res (list float);
  place_market_order : list event -> string -> OrderSide -> float
                       -> res OrderResponse;
  place_take_profit : list event -> string -> OrderSide -> float -> float
                      -> res OrderResponse;
  place_stop_loss : list event -> string -> OrderSide -> float -> float
                    -> res OrderResponse;
  cancel_order : list event -> string -> Z -> res unit;
  time_ms : list event -> Z;
  sleep : list event -> res unit;
  generate_signal : MarketData -> option Side
}.

(** The answer of the world to a request, given the trace so far. *)
Definition answer_type (r : request) : Type :=
  match r with
  | GetAccountInfo => AccountInfo
  | GetKlines _ _ _ => KlinesPayload
  | GetSymbolInfo _ => list FilterEntry
  | GetUserTrades _ _ => list Fill
  | GetUserTradesHistory _ _ => list TradeRecord
  | GetIncomeHistory _ _ => list float
  | PlaceMarketOrder _ _ _ | PlaceTakeProfit _ _ _ _ | PlaceStopLoss _ _ _ _ =>
      OrderResponse
  | CancelOrder _ _ => unit
  end.

Definition answer (w : World) (h : list event) (r : request)
  : res (answer_type r) :=
  match r return res (answer_type r) with
  | GetAccountInfo => get_account_info w h
  | GetKlines sym i n => get_klines w h sym i n
  | GetSymbolInfo sym => get_symbol_info w h sym
  | GetUserTrades sym id => get_user_trades w h sym id
  | GetUserTradesHistory sym t => get_user_trades_history w h sym t
  | GetIncomeHistory sym t => get_income_history w h sym t
  | PlaceMarketOrder sym sd q => place_market_order w h sym sd q
  | PlaceTakeProfit sym sd q p => place_take_profit w h sym sd q p
  | PlaceStopLoss sym sd q p => place_stop_loss w h sym sd q p
  | CancelOrder sym id => cancel_order w h sym id
  end.

(* ===================================================================== *)
(** * The objects [main] creates, and the monad that threads them         *)
(* ===================================================================== *)

Record Filters : Type := {
  tickSize : PyDecimal.t;
  stepSize : PyDecimal.t
}.

(** The attributes of [PositionTracker] ([symbol], [position]),
    [TpSlManager] ([tp_order_id], [sl_order_id], [is_protected]),
    [TradeLimits], [KillSwitch] ([is_trading_allowed]), [OrderManager]
    ([_symbol_filters]) and [EntryExecutor] ([_in_cycle]). The tracker is
    one object shared by the executor, the TP/SL manager and [main]: one
    field here. *)
Record Store : Type := {
  symbol : string;
  position : option Position.t;
  tp_order_id : option Z;
  sl_order_id : option Z;
  is_protected : bool;
  limits : TradeLimits.t;
  is_trading_allowed : bool;
  _symbol_filters : list (string * Filters);
  _in_cycle : bool;
  trace : list event
}.

Definition with_position (v : option Position.t) (s : Store) : Store :=
  {| symbol := symbol s; position := v; tp_order_id := tp_order_id s;
     sl_order_id := sl_order_id s; is_protected := is_protected s;
     limits := limits s; is_trading_allowed := is_trading_allowed s;
     _symbol_filters := _symbol_filters s; _in_cycle := _in_cycle s;
     trace := trace s |}.

Definition with_tp_order_id (v : option Z) (s : Store) : Store :=
  {| symbol := symbol s; position := position s; tp_order_id := v;
     sl_order_id := sl_order_id s; is_protected := is_protected s;
     limits := limits s; is_trading_allowed := is_trading_allowed s;
     _symbol_filters := _symbol_filters s; _in_cycle := _in_cycle s;
     trace := trace s |}.

Definition with_sl_order_id (v : option Z) (s : Store) : Store :=
  {| symbol := symbol s; position := position s; tp_order_id := tp_order_id s;
     sl_order_id := v; is_protected := is_protected s;
     limits := limits s; is_trading_allowed := is_trading_allowed s;
     _symbol_filters := _symbol_filters s; _in_cycle := _in_cycle s;
     trace := trace s |}.

Definition with_is_protected (v : bool) (s : Store) : Store :=
  {| symbol := symbol s; position := position s; tp_order_id := tp_order_id s;
     sl_order_id := sl_order_id s; is_protected := v;
     limits := limits s; is_trading_allowed := is_trading_allowed s;
     _symbol_filters := _symbol_filters s; _in_cycle := _in_cycle s;
     trace := trace s |}.

Definition with_limits (v : TradeLimits.t) (s : Store) : Store :=
  {| symbol := symbol s; position := position s; tp_order_id := tp_order_id s;
     sl_order_id := sl_order_id s; is_protected := is_protected s;
     limits := v; is_trading_allowed := is_trading_allowed s;
     _symbol_filters := _symbol_filters s; _in_cycle := _in_cycle s;
     trace := trace s |}.

Definition with_is_trading_allowed (v : bool) (s : Store) : Store :=
  {| symbol := symbol s; position := position s; tp_order_id := tp_order_id s;
     sl_order_id := sl_order_id s; is_protected := is_protected s;
     limits := limits s; is_trading_allowed := v;
     _symbol_filters := _symbol_filters s; _in_cycle := _in_cycle s;
     trace := trace s |}.

Definition with_symbol_filters (v : list (string * Filters)) (s : Store) : Store :=
  {| symbol := symbol s; position := position s; tp_order_id := tp_order_id s;
     sl_order_id := sl_order_id s; is_protected := is_protected s;
     limits := limits s; is_trading_allowed := is_trading_allowed s;
     _symbol_filters := v; _in_cycle := _in_cycle s;
     trace := trace s |}.

Definition with_in_cycle (v : bool) (s : Store) : Store :=
  {| symbol := symbol s; position := position s; tp_order_id := tp_order_id s;
     sl_order_id := sl_order_id s; is_protected := is_protected s;
     limits := limits s; is_trading_allowed := is_trading_allowed s;
     _symbol_filters := _symbol_filters s; _in_cycle := v;
     trace := trace s |}.

Definition emit (e : event) (s : Store) : Store :=
  {| symbol := symbol s; position := position s; tp_order_id := tp_order_id s;
     sl_order_id := sl_order_id s; is_protected := is_protected s;
     limits := limits s; is_trading_allowed := is_trading_allowed s;
     _symbol_filters := _symbol_filters s; _in_cycle := _in_cycle s;
     trace := trace s ++ [e] |}.

(** A computation reads the world, updates the store, and returns or
    raises; what it changed before raising stays changed. *)
Definition M (A : Type) : Type := World -> Store -> res A * Store.

Definition ret {A} (a : A) : M A := fun _ s => (Ok a, s).

Definition raise {A} (e : exn) : M A := fun _ s => (Raise e, s).

Definition bind {A B} (m : M A) (k : A -> M B) : M B :=
  fun w s =>
    match m w s with
    | (Ok a, s') => k a w s'
    | (Raise e, s') => (Raise e, s')
    end.

Declare Scope M_scope.
Delimit Scope M_scope with M.
Notation "x <- c ;; k" := (bind c (fun x => k))
  (at level 61, c at next level, right associativity) : M_scope.
Notation "c ;;; k" := (bind c (fun _ => k))
  (at level 61, right associativity) : M_scope.

(** [try: body except (classes): handler] *)
Definition try_except {A} (body : M A) (classes : exn -> bool)
    (handler : exn -> M A) : M A :=
  fun w s =>
    match body w s with
    | (Raise e, s') => if classes e then handler e w s' else (Raise e, s')
    | r => r
    end.

(** [try: body finally: fin] *)
Definition try_finally {A} (body : M A) (fin : M unit) : M A :=
  fun w s =>
    let '(r, s') := body w s in
    match fin w s' with
    | (Ok _, s'') => (r, s'')
    | (Raise e, s'') => (Raise e, s'')
    end.

Definition gets {A} (f : Store -> A) : M A := fun _ s => (Ok (f s), s).
Definition modify (f : Store -> Store) : M unit := fun _ s => (Ok tt, f s).
Definition lift {A} (r : res A) : M A := fun _ s => (r, s).
Definition ask {A} (f : World -> A) : M A := fun w s => (Ok (f w), s).

Definition log (lvl : level) (logger msg : string) : M unit :=
  modify (emit (Log lvl logger msg)).

(** A call of a method of [BinanceClient]: the world answers from the trace
    so far, and the request joins the trace whether it succeeded or not.
    One [Req] is one call of the client, not one HTTP request: the
    transport of the client is under [@retry] (exchange/binance_client.py,
    infra/retry.py) and executes a request again after a transport error,
    so the answer is what the method returns or raises once its retries are
    over, and a request counted once in the trace may have been sent up to
    four times. *)
Definition call (r : request) : M (answer_type r) :=
  fun w s => (answer w (trace s) r, emit (Req r) s).

Definition when (b : bool) (m : M unit) : M unit :=
  if b then m else ret tt.

(** [int(time.time() * 1000)] *)
Definition clock_ms : M Z := fun w s => (Ok (time_ms w (trace s)), s).

Definition catches_BinanceAPIError (e : exn) : bool :=
  exn_eqb e BinanceAPIError.
Definition catches_ValueError_BinanceAPIError (e : exn) : bool :=
  exn_eqb e ValueError || exn_eqb e BinanceAPIError.
Definition catches_KeyboardInterrupt (e : exn) : bool :=
  exn_eqb e KeyboardInterrupt.

Local Open Scope string_scope.

(* ===================================================================== *)
(** * risk/kill_switch.py                                                 *)
(* ===================================================================== *)

Module KillSwitch.

Definition evaluate (l : TradeLimits.t) : M unit :=
  (if TradeLimits.limits_exceeded l then
     (allowed <- gets is_trading_allowed ;;
      when allowed
        (log WARNING "KillSwitch" "KILL SWITCH ACTIVATED: risk limits exceeded") ;;;
      modify (with_is_trading_allowed false))
   else ret tt)%M.

Definition reset_daily : M unit :=
  (allowed <- gets is_trading_allowed ;;
   when (negb allowed) (log INFO "KillSwitch" "Kill switch reset for new day") ;;;
   modify (with_is_trading_allowed true))%M.

End KillSwitch.

(* ===================================================================== *)
(** * exchange/order_manager.py                                           *)
(* ===================================================================== *)

Module OrderManager.

Fixpoint lookup_filters (sym : string) (d : list (string * Filters))
  : option Filters :=
  match d with
  | [] => None
  | (k, v) :: d' => if String.eqb k sym then Some v else lookup_filters sym d'
  end.

(** One turn of the loop over [info.get("filters", [])]. *)
Definition read_filter (acc : Filters) (f : FilterEntry) : Filters :=
  let tick :=
    if String.eqb (filterType f) "PRICE_FILTER"
    then match f_tickSize f with Some t => t | None => tickSize acc end
    else tickSize acc in
  let step :=
    if String.eqb (filterType f) "LOT_SIZE"
    then match f_stepSize f with Some t => t | None => stepSize acc end
    else stepSize acc in
  {| tickSize := tick; stepSize := step |}.

(** [Decimal("0.01")] and [Decimal("0.001")] *)
Definition default_filters : Filters :=
  {| tickSize := PyDecimal.Finite false 1 (-2);
     stepSize := PyDecimal.Finite false 1 (-3) |}.

Definition _load_filters (sym : string) : M Filters :=
  (cache <- gets _symbol_filters ;;
   match lookup_filters sym cache with
   | Some filt => ret filt
   | None =>
       info <- call (GetSymbolInfo sym) ;;
       let filt := fold_left read_filter info default_filters in
       modify (fun s => with_symbol_filters ((sym, filt) :: _symbol_filters s) s) ;;;
       ret filt
   end)%M.

(** [float((Decimal(str(x)) // unit) * unit)] *)
Definition floor_to (unit : PyDecimal.t) (x : float) : M float :=
  (n <- lift (PyDecimal.floordiv (PyDecimal.of_float x) unit) ;;
   p <- lift (PyDecimal.mul n unit) ;;
   ret (PyDecimal.to_float p))%M.

Definition _round_price (sym : string) (price : float) : M float :=
  (filt <- _load_filters sym ;;
   floor_to (tickSize filt) price)%M.

Definition _round_qty (sym : string) (qty : float) : M float :=
  (filt <- _load_filters sym ;;
   floor_to (stepSize filt) qty)%M.

Definition place_market_order (sym : string) (side : OrderSide)
    (quantity : float) : M OrderResponse :=
  (qty <- _round_qty sym quantity ;;
   if PyFloat.le0 qty then raise BinanceAPIError
   else
     order <- call (PlaceMarketOrder sym side qty) ;;
     log INFO "OrderManager" "Submitted market order" ;;;
     ret order)%M.

Definition fetch_fills (sym : string) (order_id : Z) : M (list Fill) :=
  call (GetUserTrades sym order_id).

(** [compute_avg_fill]: the pair is [(price, qty)] of the returned dict. *)
Definition compute_avg_fill (trades : list Fill) : res (option (float * float)) :=
  match trades with
  | [] => Ok None
  | _ =>
      let '(total_qty, total_quote) :=
        fold_left
          (fun acc t =>
             let '(tq, tquote) := acc in
             ((tq + fill_qty t)%float,
              (tquote + fill_qty t * fill_price t)%float))
          trades (0%float, 0%float) in
      if PrimFloat.eqb total_qty 0 then Ok None
      else (p <- PyFloat.truediv total_quote total_qty ;;
            Ok (Some (p, total_qty)))%res
  end.

Definition place_take_profit (sym : string) (side : OrderSide)
    (quantity stop_price : float) : M OrderResponse :=
  (qty <- _round_qty sym quantity ;;
   price <- _round_price sym stop_price ;;
   if PyFloat.le0 qty then raise BinanceAPIError
   else call (PlaceTakeProfit sym side qty price))%M.

Definition place_stop_loss (sym : string) (side : OrderSide)
    (quantity stop_price : float) : M OrderResponse :=
  (qty <- _round_qty sym quantity ;;
   price <- _round_price sym stop_price ;;
   if PyFloat.le0 qty then raise BinanceAPIError
   else call (PlaceStopLoss sym side qty price))%M.

Definition cancel_order (sym : string) (order_id : Z) : M unit :=
  call (CancelOrder sym order_id).

End OrderManager.

(* ===================================================================== *)
(** * position/tracker.py                                                 *)
(* ===================================================================== *)

Module PositionTracker.

Definition has_open_position : M bool :=
  gets (fun s => match position s with
                 | Some p => PyFloat.gt0 (Position.quantity p)
                 | None => false
                 end).

Definition set_position (p : Position.t) : M unit :=
  (modify (with_position (Some p)) ;;;
   log INFO "PositionTracker" "Position set")%M.

Definition clear_position : M unit :=
  (cur <- gets position ;;
   when (match cur with Some _ => true | None => false end)
     (log INFO "PositionTracker" "Clearing local position") ;;;
   modify (with_position None))%M.

(** The loop over [account_info.get("positions", [])]: the first entry of
    the symbol with a non-zero amount, as a [Position]. *)
Fixpoint find_remote (sym : string) (ps : list RawPosition)
  : option Position.t :=
  match ps with
  | [] => None
  | pos :: rest =>
      if negb (String.eqb (rp_symbol pos) sym) then find_remote sym rest
      else
        let amt := positionAmt pos in
        if PrimFloat.eqb amt 0 then find_remote sym rest
        else Some {| Position.symbol := sym;
                     Position.side := if PyFloat.gt0 amt then LONG else SHORT;
                     Position.quantity := PrimFloat.abs amt;
                     Position.entry_price := entryPrice pos;
                     Position.entry_time := rp_updateTime pos |}
  end.

(** [abs(a - b) > 1e-8] *)
Definition differs (a b : float) : bool :=
  PrimFloat.ltb 1e-8 (PrimFloat.abs (a - b)).

Definition mismatch (loc remote : Position.t) : bool :=
  negb (Side_eqb (Position.side loc) (Position.side remote))
  || differs (Position.quantity loc) (Position.quantity remote)
  || differs (Position.entry_price loc) (Position.entry_price remote).

Definition sync_from_exchange : M unit :=
  (fetched <- try_except
                (account_info <- call GetAccountInfo ;; ret (Some account_info))
                catches_BinanceAPIError
                (fun _ =>
                   log ERROR "PositionTracker" "Failed to fetch account info for sync" ;;;
                   ret None) ;;
   match fetched with
   | None => ret tt
   | Some account_info =>
       sym <- gets symbol ;;
       let remote := find_remote sym (positions account_info) in
       loc <- gets position ;;
       match remote, loc with
       | Some r, None =>
           log INFO "PositionTracker" "Adopting existing exchange position" ;;;
           modify (with_position (Some r))
       | Some r, Some l =>
           if mismatch l r then
             log WARNING "PositionTracker" "Local position mismatch; updating from exchange" ;;;
             modify (with_position (Some r))
           else ret tt
       | None, Some _ =>
           log WARNING "PositionTracker" "Exchange reports no position; keeping local state for now"
       | None, None => ret tt
       end
   end)%M.

End PositionTracker.

(* ===================================================================== *)
(** * execution/tp_sl.py                                                  *)
(* ===================================================================== *)

Module TpSlManager.

(** [if self.tp_order_id:] holds for an id that is neither [None] nor 0. *)
Definition truthy_id (id : option Z) : option Z :=
  match id with
  | Some i => if (i =? 0)%Z then None else Some i
  | None => None
  end.

Definition _cancel_outstanding (reason : string) : M unit :=
  (sym <- gets symbol ;;
   tp <- gets tp_order_id ;;
   match truthy_id tp with
   | Some id =>
       try_except
         (OrderManager.cancel_order sym id ;;;
          log INFO "TpSlManager" ("Cancelled TP order (" ++ reason ++ ")"))
         catches_BinanceAPIError
         (fun _ => log ERROR "TpSlManager" "Failed to cancel TP")
   | None => ret tt
   end ;;;
   sl <- gets sl_order_id ;;
   match truthy_id sl with
   | Some id =>
       try_except
         (OrderManager.cancel_order sym id ;;;
          log INFO "TpSlManager" ("Cancelled SL order (" ++ reason ++ ")"))
         catches_BinanceAPIError
         (fun _ => log ERROR "TpSlManager" "Failed to cancel SL")
   | None => ret tt
   end ;;;
   modify (with_tp_order_id None) ;;;
   modify (with_sl_order_id None) ;;;
   modify (with_is_protected false))%M.

Definition _compute_prices (entry_price : float) (side : Side) : float * float :=
  let tp_percent := RiskConfig.TP_PERCENT in
  let sl_percent := RiskConfig.SL_PERCENT in
  match side with
  | LONG => ((entry_price * (1 + tp_percent))%float,
             (entry_price * (1 - sl_percent))%float)
  | SHORT => ((entry_price * (1 - tp_percent))%float,
              (entry_price * (1 + sl_percent))%float)
  end.

Definition _place_protection (p : Position.t) : M unit :=
  (let '(tp_price, sl_price) :=
     _compute_prices (Position.entry_price p) (Position.side p) in
   let side_to_close :=
     match Position.side p with LONG => SELL | SHORT => BUY end in
   try_except
     (tp_order <- OrderManager.place_take_profit
                    (Position.symbol p) side_to_close (Position.quantity p) tp_price ;;
      match truthy_id (orderId tp_order) with
      | None => raise ValueError
      | Some tp_id =>
          modify (with_tp_order_id (Some tp_id)) ;;;
          sl_order <- OrderManager.place_stop_loss
                        (Position.symbol p) side_to_close (Position.quantity p) sl_price ;;
          match truthy_id (orderId sl_order) with
          | None => raise ValueError
          | Some sl_id =>
              modify (with_sl_order_id (Some sl_id)) ;;;
              log INFO "TpSlManager" "Placed TP and SL"
          end
      end)
     catches_ValueError_BinanceAPIError
     (fun _ =>
        log ERROR "TpSlManager" "Failed to place TP/SL" ;;;
        _cancel_outstanding "TP/SL placement failed" ;;;
        modify (with_is_protected false)))%M.

Definition _fetch_remote_position : M (option Position.t) :=
  (fetched <- try_except
                (account_info <- call GetAccountInfo ;; ret (Some account_info))
                catches_BinanceAPIError
                (fun _ =>
                   log ERROR "TpSlManager" "Failed to fetch account info for TP/SL sync" ;;;
                   ret None) ;;
   match fetched with
   | None => gets position
   | Some account_info =>
       sym <- gets symbol ;;
       let remote := PositionTracker.find_remote sym (positions account_info) in
       match remote with
       | Some r => PositionTracker.set_position r
       | None => modify (with_is_protected false)
       end ;;;
       ret remote
   end)%M.

Definition sync : M unit :=
  (pos <- _fetch_remote_position ;;
   match pos with
   | None =>
       _cancel_outstanding "Position closed on exchange" ;;;
       PositionTracker.clear_position ;;;
       modify (with_is_protected false)
   | Some p =>
       protected <- gets is_protected ;;
       if negb protected then
         _cancel_outstanding "Placing initial protection" ;;;
         _place_protection p ;;;
         modify (with_is_protected true)
       else ret tt
   end)%M.

End TpSlManager.

(* ===================================================================== *)
(** * config/settings.py (defaults of the environment variables)          *)
(* ===================================================================== *)

Module Settings.
Definition SAFETY_MARGIN_MS : Z := 1500.
Definition KLINES_LIMIT : Z := 200.
End Settings.

(* ===================================================================== *)
(** * exchange/market_data.py                                             *)
(* ===================================================================== *)

Module MarketDataService.

Local Open Scope Z_scope.

Definition INTERVAL_SECONDS (i : Interval) : Z :=
  match i with I1m => 60 | I5m => 300 end.

Record Parsed : Type := {
  open_time : Z;
  open_price : float;
  high_price : float;
  low_price : float;
  close_price : float;
  volume : float;
  close_time : Z
}.

(** The body of the loop over the rows: the format check, then the seven
    conversions in order. *)
Definition parse_row (entry : KlineRow) : res Parsed :=
  match entry with
  | Row (c0 :: c1 :: c2 :: c3 :: c4 :: c5 :: c6 :: _) =>
      (ot <- py_int c0 ;;
       o <- py_float c1 ;;
       h <- py_float c2 ;;
       l <- py_float c3 ;;
       c <- py_float c4 ;;
       v <- py_float c5 ;;
       ct <- py_int c6 ;;
       Ok {| open_time := ot; open_price := o; high_price := h;
             low_price := l; close_price := c; volume := v;
             close_time := ct |})%res
  | _ => Raise ValueError
  end.

Fixpoint parse_rows (klines : list KlineRow) : res (list Parsed) :=
  match klines with
  | [] => Ok []
  | entry :: rest =>
      (p <- parse_row entry ;;
       ps <- parse_rows rest ;;
       Ok (p :: ps))%res
  end.

Fixpoint _validate_sequence (open_times : list Z) (interval_ms : Z) : res unit :=
  match open_times with
  | prev :: ((cur :: _) as rest) =>
      if negb (cur =? prev + interval_ms) then Raise ValueError
      else _validate_sequence rest interval_ms
  | _ => Ok tt
  end.

Definition _is_closed (last_close_time now_ms safety_margin_ms : Z) : bool :=
  last_close_time <? now_ms - safety_margin_ms.

Definition candles_of (ps : list Parsed) : Candles :=
  {| c_open := map open_price ps;
     c_high := map high_price ps;
     c_low := map low_price ps;
     c_close := map close_price ps;
     c_volume := map volume ps;
     c_timestamp := map close_time ps |}.

Definition _normalize_klines (klines : KlinesPayload) (interval : Interval)
  : M Candles :=
  (match klines with
   | PayloadNotList | Payload [] => raise ValueError
   | Payload rows =>
       let interval_ms := INTERVAL_SECONDS interval * 1000 in
       now_ms <- clock_ms ;;
       ps <- lift (parse_rows rows) ;;
       lift (_validate_sequence (map open_time ps) interval_ms) ;;;
       let safety_margin := Settings.SAFETY_MARGIN_MS in
       if negb (_is_closed (last (map close_time ps) 0) now_ms safety_margin)
       then
         log INFO "MarketData" "using previous closed candle" ;;;
         ret (candles_of (removelast ps))
       else ret (candles_of ps)
   end)%M.

(** [fetch_closed_klines] never returns [None]; [main] tests its result
    against [None] all the same, hence the option. *)
Definition fetch_closed_klines (sym : string) (interval : Interval)
    (limit : Z) : M (option Candles) :=
  (raw <- call (GetKlines sym interval limit) ;;
   normalized <- _normalize_klines raw interval ;;
   log INFO "MarketData" "Fetched klines" ;;;
   ret (Some normalized))%M.

End MarketDataService.

(* ===================================================================== *)
(** * exchange/binance_client.py: get_available_balance                   *)
(* ===================================================================== *)

Module BinanceClient.

Fixpoint find_asset (name : string) (l : list Balance) : option float :=
  match l with
  | [] => None
  | b :: rest => if String.eqb (asset b) name then Some (amount b)
                 else find_asset name rest
  end.

Definition get_available_balance : M float :=
  (info <- call GetAccountInfo ;;
   match find_asset "USDT" (assets info) with
   | Some x => ret x
   | None =>
       match find_asset "USDT" (balances info) with
       | Some x => ret x
       | None => ret 0%float
       end
   end)%M.

End BinanceClient.

(* ===================================================================== *)
(** * execution/entry.py                                                  *)
(* ===================================================================== *)

Module EntryExecutor.

Definition DEFAULT_RISK_PERCENT := RiskConfig.RISK_PERCENT.
Definition DEFAULT_SL_PERCENT := RiskConfig.SL_PERCENT.

Definition attempt_entry (market_data : MarketData) : M unit :=
  (PositionTracker.sync_from_exchange ;;;
   has_open <- PositionTracker.has_open_position ;;
   if has_open then log INFO "EntryExecutor" "Open position detected; skipping entry"
   else
     signal <- ask (fun w => generate_signal w market_data) ;;
     match signal with
     | None => ret tt
     | Some signal =>
         log INFO "EntryExecutor" "Signal detected" ;;;
         match rev (c_close (data_1m market_data)) with
         | [] => log INFO "EntryExecutor" "No price data available for entry"
         | entry_price :: _ =>
             equity <- BinanceClient.get_available_balance ;;
             if PyFloat.le0 equity then
               log INFO "EntryExecutor" "Equity unavailable or zero; skipping entry"
             else
               qty <- lift (PositionSizer.compute_position_size
                              equity DEFAULT_RISK_PERCENT entry_price
                              DEFAULT_SL_PERCENT) ;;
               match qty with
               | None => log INFO "EntryExecutor" "Computed quantity invalid; skipping entry"
               | Some qty =>
                   if PyFloat.le0 qty then
                     log INFO "EntryExecutor" "Computed quantity invalid; skipping entry"
                   else
                     let order_side :=
                       match signal with LONG => BUY | SHORT => SELL end in
                     sym <- gets symbol ;;
                     order <- OrderManager.place_market_order sym order_side qty ;;
                     match TpSlManager.truthy_id (orderId order) with
                     | None => log ERROR "EntryExecutor" "Order response missing orderId; aborting entry"
                     | Some order_id =>
                         trades <- OrderManager.fetch_fills sym order_id ;;
                         fill_info <- lift (OrderManager.compute_avg_fill trades) ;;
                         match fill_info with
                         | None => log ERROR "EntryExecutor" "Order not filled; no fills received"
                         | Some (price, fqty) =>
                             let t := match updateTime order with
                                      | Some t => t
                                      | None => match transactTime order with
                                                | Some t => t
                                                | None => 0%Z
                                                end
                                      end in
                             PositionTracker.set_position
                               {| Position.symbol := sym;
                                  Position.side := signal;
                                  Position.quantity := fqty;
                                  Position.entry_price := price;
                                  Position.entry_time := t |} ;;;
                             log INFO "EntryExecutor" "Entry confirmed"
                         end
                     end
               end
         end
     end)%M.

Definition process (market_data : MarketData) : M unit :=
  (busy <- gets _in_cycle ;;
   if busy then
     log INFO "EntryExecutor" "Entry processing already running; skipping duplicate"
   else
     modify (with_in_cycle true) ;;;
     try_finally (attempt_entry market_data) (modify (with_in_cycle false)))%M.

End EntryExecutor.

(* ===================================================================== *)
(** * pnl/trade_pnl.py, pnl/funding.py                                    *)
(* ===================================================================== *)

Module Pnl.

Definition realized_pnl_since (sym : string) (start_time_ms : Z) : M float :=
  (trades <- call (GetUserTradesHistory sym start_time_ms) ;;
   let realized :=
     fold_left (fun acc t => (acc + realizedPnl t)%float) trades 0%float in
   log INFO "TradePnlCalculator" "Commission (reported) for trades" ;;;
   log INFO "TradePnlCalculator" "Realized PnL" ;;;
   ret realized)%M.

Definition funding_pnl_since (sym : string) (start_time_ms : Z) : M float :=
  (entries <- call (GetIncomeHistory sym start_time_ms) ;;
   let total := fold_left (fun acc x => (acc + x)%float) entries 0%float in
   log INFO "FundingCalculator" "Funding PnL" ;;;
   ret total)%M.

End Pnl.

(* ===================================================================== *)
(** * main.py                                                             *)
(* ===================================================================== *)

Module Main.

Definition notify_info (msg : string) : M unit := log INFO "Notifier" msg.
Definition notify_warning (msg : string) : M unit := log WARNING "Notifier" msg.
Definition notify_error (msg : string) : M unit := log ERROR "Notifier" msg.

(** [time.sleep] is where a Ctrl-C lands: the world may answer the sleep
    with [KeyboardInterrupt]. *)
Definition _sleep_until_next_minute : M unit :=
  fun w s => (sleep w (trace s), emit Sleep s).

(** The local variables of [main] that live across cycles. *)
Record Locals : Type := {
  last_position_open : bool;
  last_pnl_check_ms : Z
}.

(** The body of [while True:]. It returns at a [continue] or at its end,
    and raises whatever the cycle does not catch. *)
Definition cycle (loc : Locals) : M Locals :=
  (synced <- try_except
               (PositionTracker.sync_from_exchange ;;; ret true)
               catches_BinanceAPIError
               (fun _ =>
                  notify_error "Position sync failed" ;;;
                  _sleep_until_next_minute ;;;
                  ret false) ;;
   if negb synced then ret loc
   else
     now_ms <- clock_ms ;;
     l <- gets limits ;;
     l <- lift (TradeLimits.reset_if_needed now_ms l) ;;
     modify (with_limits l) ;;;
     allowed <- gets is_trading_allowed ;;
     when (negb (TradeLimits.limits_exceeded l) && negb allowed)
       KillSwitch.reset_daily ;;;
     sym <- gets symbol ;;
     let limit := Settings.KLINES_LIMIT in
     candles_1m <- MarketDataService.fetch_closed_klines sym I1m limit ;;
     candles_5m <- MarketDataService.fetch_closed_klines sym I5m limit ;;
     match candles_1m, candles_5m with
     | Some c1, Some c5 =>
         let data := {| data_1m := c1; data_5m := c5 |} in
         allowed <- gets is_trading_allowed ;;
         (if allowed then EntryExecutor.process data
          else log INFO "Main" "Kill switch active; skipping new entries") ;;;
         TpSlManager.sync ;;;
         currently_open <- PositionTracker.has_open_position ;;
         loc' <-
           (if last_position_open loc && negb currently_open then
              realized <- Pnl.realized_pnl_since sym (last_pnl_check_ms loc) ;;
              funding_pnl <- Pnl.funding_pnl_since sym (last_pnl_check_ms loc) ;;
              let net_pnl := (realized + funding_pnl)%float in
              l <- gets limits ;;
              l <- lift (TradeLimits.record_trade net_pnl now_ms l) ;;
              modify (with_limits l) ;;;
              (if TradeLimits.limits_exceeded l then
                 KillSwitch.evaluate l ;;;
                 notify_warning "KILL SWITCH ACTIVATED: limits exceeded"
               else ret tt) ;;;
              log INFO "Main" "Trade closed" ;;;
              modify (emit (SaveCheckpoint now_ms)) ;;;
              ret {| last_position_open := last_position_open loc;
                     last_pnl_check_ms := now_ms |}
            else ret loc) ;;
         _sleep_until_next_minute ;;;
         ret {| last_position_open := currently_open;
                last_pnl_check_ms := last_pnl_check_ms loc' |}
     | _, _ =>
         log INFO "Main" "Skipping cycle; candles not ready" ;;;
         _sleep_until_next_minute ;;;
         ret loc
     end)%M.

(** How a run of [main] stands after a number of cycles. *)
Inductive status : Type :=
| Running (loc : Locals)
| Shutdown.

(** [while True: cycle], unrolled [n] times. *)
Fixpoint loop (n : nat) (loc : Locals) : M status :=
  match n with
  | O => ret (Running loc)
  | S n' => (loc' <- cycle loc ;; loop n' loc')%M
  end.

(** [main], from the [try:] on, for [n] turns of the loop: only
    [KeyboardInterrupt] is caught; any other exception leaves [main], and
    with it the process. *)
Definition main (n : nat) (loc : Locals) : M status :=
  try_except (loop n loc) catches_KeyboardInterrupt
    (fun _ =>
       log INFO "Main" "Shutdown requested by user" ;;;
       Main.notify_info "Bot shutdown requested by user" ;;;
       ret Shutdown)%M.

End Main.

(* ===================================================================== *)
(** * Observations on stores and traces                                   *)
(* ===================================================================== *)

(** The objects of a store, without the record of what was said. *)
Definition forget_trace (s : Store) : Store :=
  {| symbol := symbol s; position := position s; tp_order_id := tp_order_id s;
     sl_order_id := sl_order_id s; is_protected := is_protected s;
     limits := limits s; is_trading_allowed := is_trading_allowed s;
     _symbol_filters := _symbol_filters s; _in_cycle := _in_cycle s;
     trace := [] |}.

(** Order placements and cancellations among the events. *)
Definition is_order_request (e : event) : bool :=
  match e with
  | Req (PlaceMarketOrder _ _ _) | Req (PlaceTakeProfit _ _ _ _)
  | Req (PlaceStopLoss _ _ _ _) | Req (CancelOrder _ _) => true
  | _ => false
  end.

Definition order_requests (evs : list event) : list event :=
  filter is_order_request evs.

Definition cancelled_ids (evs : list event) : list Z :=
  flat_map (fun e => match e with
                     | Req (CancelOrder _ id) => [id]
                     | _ => []
                     end) evs.

(** What a computation added to the trace, from the store before and the
    store after. *)
Definition new_events (s s' : Store) : list event :=
  skipn (List.length (trace s)) (trace s').

(** [preserves f m]: whatever the world answers and however [m] ends, the
    observation [f] of the store is after [m] what it was before. *)
Definition preserves {A X : Type} (f : Store -> X) (m : M A) : Prop :=
  forall (w : World) (s : Store), f (snd (m w s)) = f s.

(** The data-integrity failures of market data: a klines response that is
    empty or not a list, a row that is malformed (not a list of at least
    seven cells, or a cell that does not convert), or candle open times that
    are not contiguous for the interval. *)
Inductive data_integrity_failure (interval : Interval) : KlinesPayload -> Prop :=
| NotAList : data_integrity_failure interval PayloadNotList
| EmptyResponse : data_integrity_failure interval (Payload [])
| MalformedRow (rows : list KlineRow) :
    MarketDataService.parse_rows rows = Raise ValueError ->
    data_integrity_failure interval (Payload rows)
| NonContiguous (rows : list KlineRow) (ps : list MarketDataService.Parsed) :
    MarketDataService.parse_rows rows = Ok ps ->
    MarketDataService._validate_sequence
      (map MarketDataService.open_time ps)
      (MarketDataService.INTERVAL_SECONDS interval * 1000)%Z = Raise ValueError ->
    data_integrity_failure interval (Payload rows).

(** [emits P m]: [m] only appends to the trace, and only events that
    satisfy [P]. *)
Definition emits {A : Type} (P : event -> Prop) (m : M A) : Prop :=
  forall (w : World) (s : Store),
    exists evs, trace (snd (m w s)) = (trace s ++ evs)%list /\ Forall P evs.

(** The bot went on to wait for the next minute: a [Sleep] in the trace. *)
Definition not_sleep (e : event) : Prop := e <> Sleep.

(** The order ids a TP/SL manager holds, as [_cancel_outstanding] reads
    them. *)
Definition outstanding_ids (s : Store) : list Z :=
  match TpSlManager.truthy_id (tp_order_id s) with Some i => [i] | None => [] end
  ++ match TpSlManager.truthy_id (sl_order_id s) with Some i => [i] | None => [] end.

(** The three attributes of the TP/SL manager. *)
Definition manager_fields (s : Store) : option Z * option Z * bool :=
  (tp_order_id s, sl_order_id s, is_protected s).

(** The states of the TP/SL manager between two calls of [sync]: an
    unprotected manager holds no order id. [__init__] starts there and every
    [sync] that returns ends there. *)
Definition between_syncs (s : Store) : Prop :=
  is_protected s = false -> tp_order_id s = None /\ sl_order_id s = None.

(** [keeps_between_syncs m]: started [between_syncs], [m] ends there
    whenever it returns. *)
Definition keeps_between_syncs {A : Type} (m : M A) : Prop :=
  forall (w : World) (s : Store) (a : A),
    between_syncs s -> fst (m w s) = Ok a -> between_syncs (snd (m w s)).

(** A sequence of [kill_switch.evaluate(limits)] calls, each with the
    limits its caller passes. *)
Fixpoint evaluate_all (ls : list TradeLimits.t) : M unit :=
  match ls with
  | [] => ret tt
  | l :: ls' => (KillSwitch.evaluate l ;;; evaluate_all ls')%M
  end.

(** The three losing trades of the day-rollover scenario, one minute
    apart, from limits created at [t]. *)
Definition three_losses (t : Z) : res TradeLimits.t :=
  (l <- TradeLimits.init t ;;
   l <- TradeLimits.record_trade (-10) (t + 60000) l ;;
   l <- TradeLimits.record_trade (-20) (t + 120000) l ;;
   TradeLimits.record_trade (-5) (t + 180000) l)%res.

(** The objects as [main] creates them, for a symbol and a wall clock. *)
Definition boot (sym : string) (utcnow_ms : Z) : res Store :=
  (l <- TradeLimits.init utcnow_ms ;;
   Ok {| symbol := sym; position := None; tp_order_id := None;
         sl_order_id := None; is_protected := false; limits := l;
         is_trading_allowed := true; _symbol_filters := [];
         _in_cycle := false; trace := [] |})%res.

(* ===================================================================== *)
(** * Concrete worlds for the examples                                    *)
(* ===================================================================== *)

Module Sample.

Definition Z2float (z : Z) : float :=
  match z with
  | Z0 => 0%float
  | Zpos _ => PrimFloat.of_uint63 (Uint63.of_Z z)
  | Zneg p => (- PrimFloat.of_uint63 (Uint63.of_Z (Zpos p)))%float
  end.

Definition BTCUSDT : string := "BTCUSDT".

(** 2024-01-01 10:00:00 UTC *)
Definition t0 : Z := 1704103200000.

Definition order (id : Z) : OrderResponse :=
  {| orderId := Some id; updateTime := Some t0; transactTime := None |}.

(** An account holding [amt] of the symbol, entered at [price]. *)
Definition account (amt price : float) : AccountInfo :=
  {| positions := [ {| rp_symbol := BTCUSDT; positionAmt := amt;
                       entryPrice := price; rp_updateTime := t0 |} ];
     assets := [ {| asset := "USDT"; amount := 10000%float |} ];
     balances := [] |}.

Definition flat_account : AccountInfo :=
  {| positions := []; assets := [ {| asset := "USDT"; amount := 10000%float |} ];
     balances := [] |}.

(** A world that answers the same whatever happened before. *)
Definition world (acct : res AccountInfo) (klines : res KlinesPayload)
    (tp sl : res OrderResponse) (cancel : res unit) : World :=
  {| get_account_info := fun _ => acct;
     get_klines := fun _ _ _ _ => klines;
     get_symbol_info := fun _ _ => Ok [];
     get_user_trades := fun _ _ _ => Ok [];
     get_user_trades_history := fun _ _ _ => Ok [];
     get_income_history := fun _ _ _ => Ok [];
     place_market_order := fun _ _ _ _ => Ok (order 7);
     place_take_profit := fun _ _ _ _ _ => tp;
     place_stop_loss := fun _ _ _ _ _ => sl;
     cancel_order := fun _ _ _ => cancel;
     time_ms := fun _ => t0;
     sleep := fun _ => Ok tt;
     generate_signal := fun _ => None |}.

Definition limits0 : TradeLimits.t :=
  {| TradeLimits.daily_trades := 0; TradeLimits.hourly_trades := 0;
     TradeLimits.daily_loss := 0%float;
     TradeLimits._current_day := 738886;
     TradeLimits._current_hour_key := 20240034;
     TradeLimits.max_daily_loss := None;
     TradeLimits.max_trades_per_day := None;
     TradeLimits.max_trades_per_hour := None |}.

(** The store [main] starts from. *)
Definition store0 : Store :=
  {| symbol := BTCUSDT; position := None; tp_order_id := None;
     sl_order_id := None; is_protected := false; limits := limits0;
     is_trading_allowed := true; _symbol_filters := [];
     _in_cycle := false; trace := [] |}.

(** A long position of [qty] entered at 100.0. *)
Definition long (qty : float) : Position.t :=
  {| Position.symbol := BTCUSDT; Position.side := LONG;
     Position.quantity := qty; Position.entry_price := 100%float;
     Position.entry_time := t0 |}.

Definition long_position : Position.t := long 1.5.

(** A store that tracks [p] and protects nothing yet. *)
Definition tracking (p : Position.t) : Store :=
  {| symbol := BTCUSDT; position := Some p; tp_order_id := None;
     sl_order_id := None; is_protected := false; limits := limits0;
     is_trading_allowed := true; _symbol_filters := [];
     _in_cycle := false; trace := [] |}.

(** A store whose position is tracked and protected by orders 11 and 12. *)
Definition protected_store : Store :=
  {| symbol := BTCUSDT; position := Some long_position;
     tp_order_id := Some 11%Z; sl_order_id := Some 12%Z;
     is_protected := true; limits := limits0;
     is_trading_allowed := true; _symbol_filters := [];
     _in_cycle := false; trace := [] |}.

Definition locals0 : Main.Locals :=
  {| Main.last_position_open := false; Main.last_pnl_check_ms := t0 |}.

(** A well-formed 1m row opening at [t]. *)
Definition num (z : Z) : Cell :=
  {| py_int := Ok z; py_float := Ok (Z2float z) |}.

Definition row (t : Z) : KlineRow :=
  Row [num t; num 100; num 101; num 99; num 100; num 5; num (t + 59999)%Z].

End Sample.

(* ===================================================================== *)
(** * More of the calendar and of the trade limits                        *)
(* ===================================================================== *)

(** CPython's [_days_before_year]: the days before January 1st of [year]. *)
Definition _days_before_year (year : Z) : Z :=
  (let y := year - 1 in y * 365 + y / 4 - y / 100 + y / 400)%Z.

(** A call on a [TradeLimits] object, and sequences of them. *)
Inductive limits_call : Type :=
| CallReset (now_ms : Z)
| CallRecord (pnl : float) (now_ms : Z).

Definition apply_call (c : limits_call) (l : TradeLimits.t) : res TradeLimits.t :=
  match c with
  | CallReset now_ms => TradeLimits.reset_if_needed now_ms l
  | CallRecord pnl now_ms => TradeLimits.record_trade pnl now_ms l
  end.

Fixpoint apply_calls (cs : list limits_call) (l : TradeLimits.t)
  : res TradeLimits.t :=
  match cs with
  | [] => Ok l
  | c :: cs' => (l' <- apply_call c l ;; apply_calls cs' l')%res
  end.

(** The two buckets of [l] are those of one instant. *)
Definition buckets_agree (l : TradeLimits.t) : Prop :=
  exists t d, Datetime.utcfromtimestamp_ms t = Ok d /\
              TradeLimits._current_day l = Datetime.date d /\
              TradeLimits._current_hour_key l = TradeLimits._hour_key d.

Definition counts_ordered (l : TradeLimits.t) : Prop :=
  (0 <= TradeLimits.hourly_trades l <= TradeLimits.daily_trades l)%Z.

(* ===================================================================== *)
(** * Counting requests, and invariants of the store                      *)
(* ===================================================================== *)

Definition is_market_order (e : event) : bool :=
  match e with Req (PlaceMarketOrder _ _ _) => true | _ => false end.

Definition is_take_profit (e : event) : bool :=
  match e with Req (PlaceTakeProfit _ _ _ _) => true | _ => false end.

Definition is_stop_loss (e : event) : bool :=
  match e with Req (PlaceStopLoss _ _ _ _) => true | _ => false end.

Definition is_cancel (e : event) : bool :=
  match e with Req (CancelOrder _ _) => true | _ => false end.

(** The requests and the checkpoint write of a PnL attribution. *)
Definition is_pnl_attribution (e : event) : bool :=
  match e with
  | Req (GetUserTradesHistory _ _) | Req (GetIncomeHistory _ _)
  | SaveCheckpoint _ => true
  | _ => false
  end.

(** [spends p n m]: [m] only appends to the trace, and at most [n] events
    that satisfy [p], however it ends. *)
Definition spends {A : Type} (p : event -> bool) (n : nat) (m : M A) : Prop :=
  forall (w : World) (s : Store),
    exists evs, trace (snd (m w s)) = (trace s ++ evs)%list /\
                (List.length (filter p evs) <= n)%nat.

(** [maintains I m]: [m] keeps the invariant [I] of the store, however it
    ends. *)
Definition maintains {A : Type} (I : Store -> Prop) (m : M A) : Prop :=
  forall (w : World) (s : Store), I s -> I (snd (m w s)).

Definition is_sleep (e : event) : bool :=
  match e with Sleep => true | _ => false end.

(** The three requests that open an order on the exchange. *)
Definition is_placement (e : event) : bool :=
  is_market_order e || is_take_profit e || is_stop_loss e.

(** [governed I p n m]: started in a store that satisfies [I], [m] ends in
    one that does, however it ends, and adds to the trace at most [n]
    events that satisfy [p]. *)
Definition governed {A : Type} (I : Store -> Prop) (p : event -> bool) (n : nat)
    (m : M A) : Prop :=
  forall (w : World) (s : Store),
    I s ->
    I (snd (m w s)) /\
    exists evs, trace (snd (m w s)) = (trace s ++ evs)%list /\
                (List.length (filter p evs) <= n)%nat.

(** [keeps I m]: started in a store that satisfies [I], [m] ends in one
    that does whenever it returns. *)
Definition keeps {A : Type} (I : Store -> Prop) (m : M A) : Prop :=
  forall (w : World) (s : Store) (a : A),
    I s -> fst (m w s) = Ok a -> I (snd (m w s)).

(** The limits of config/risk.py as shipped: none is set. *)
Definition unlimited (l : TradeLimits.t) : Prop :=
  TradeLimits.max_daily_loss l = None /\
  TradeLimits.max_trades_per_day l = None /\
  TradeLimits.max_trades_per_hour l = None.

(** The quantity of an order request is not zero and not negative: the
    test [qty <= 0] of the order manager fails on it. *)
Definition quantity_not_le0 (e : event) : Prop :=
  match e with
  | Req (PlaceMarketOrder _ _ q) | Req (PlaceTakeProfit _ _ q _)
  | Req (PlaceStopLoss _ _ q _) => PyFloat.le0 q = false
  | _ => True
  end.

(** The manager holds the ids of both protective orders, or none. *)
Definition legs_paired (s : Store) : Prop :=
  (tp_order_id s = None /\ sl_order_id s = None) \/
  (exists tp sl : Z, tp_order_id s = Some tp /\ sl_order_id s = Some sl /\
                     tp <> 0%Z /\ sl <> 0%Z).

(** Trading is allowed and no limit is set that could disallow it. *)
Definition free_to_trade (s : Store) : Prop :=
  unlimited (limits s) /\ is_trading_allowed s = true.

(** The log line of the branch of [main] that skips a turn for missing
    candles. *)
Definition candles_not_ready : event :=
  Log INFO "Main" "Skipping cycle; candles not ready".

(** The number of waits for the next minute among the events. *)
Definition sleeps (evs : list event) : nat :=
  List.length (filter is_sleep evs).

(** [paced m]: [m] waits for the next minute once if it returns, and at
    most once if it raises. *)
Definition paced {A : Type} (m : M A) : Prop :=
  forall (w : World) (s : Store),
    exists evs, trace (snd (m w s)) = (trace s ++ evs)%list /\
                (sleeps evs <= 1)%nat /\
                forall a, fst (m w s) = Ok a -> sleeps evs = 1%nat.

(** What [has_open_position] answers in a store. *)
Definition open_position (s : Store) : bool :=
  match position s with
  | Some p => PyFloat.gt0 (Position.quantity p)
  | None => false
  end.

(* ===================================================================== *)
(** * infra/retry.py                                                      *)
(* ===================================================================== *)

Module Retry.

(** What a wrapped call does, in order: a call of the function, the
    warning before a retry, the error log when the retries are exhausted
    (with the number it prints), a [time.sleep] of a delay. *)
Inductive step : Type :=
| Call
| Warn (attempt : Z)
| Exhausted (attempts : Z)
| Wait (delay : float).

Section Wrapper.

(** The state the function and [time.sleep] act on, and the type of the
    result. *)
Variables St A : Type.
Variable func : St -> res A * St.
Variable sleep : float -> St -> res unit * St.
(** [isinstance(exc, retry_on)] *)
Variable retry_on : exn -> bool.
Variable max_retries : Z.
Variable backoff_factor : float.

(** [while True:] of [wrapper], for at most [fuel] turns, from the local
    variables [delay] and [attempt]. *)
Fixpoint loop (fuel : nat) (delay : float) (attempt : Z) (s : St)
  : option (res A * St * list step) :=
  match fuel with
  | O => None
  | S fuel' =>
      match func s with
      | (Ok a, s1) => Some (Ok a, s1, [Call])
      | (Raise e, s1) =>
          if retry_on e then
            let attempt := (attempt + 1)%Z in
            if (max_retries <? attempt)%Z
            then Some (Raise e, s1, [Call; Exhausted (attempt - 1)%Z])
            else
              match sleep delay s1 with
              | (Ok _, s2) =>
                  match loop fuel' (delay * 2)%float attempt s2 with
                  | Some (r, s3, steps) =>
                      Some (r, s3, Call :: Warn attempt :: Wait delay :: steps)
                  | None => None
                  end
              | (Raise e', s2) =>
                  Some (Raise e', s2, [Call; Warn attempt; Wait delay])
              end
          else Some (Raise e, s1, [Call])
      end
  end.

Definition wrapper (fuel : nat) (s : St) : option (res A * St * list step) :=
  loop fuel backoff_factor 0%Z s.

End Wrapper.

Definition calls (steps : list step) : nat :=
  List.length (filter (fun x => match x with Call => true | _ => false end) steps).

Definition waits (steps : list step) : list float :=
  flat_map (fun x => match x with Wait d => [d] | _ => [] end) steps.

(** [n] delays, each twice the one before, from [d]. *)
Fixpoint doubling (n : nat) (d : float) : list float :=
  match n with
  | O => []
  | S n' => d :: doubling n' (d * 2)%float
  end.

End Retry.

(* ===================================================================== *)
(** * exchange/binance_client.py: the transport                           *)
(* ===================================================================== *)

Module BinanceTransport.

(** The decorator on [_public_get], [_signed_get], [_signed_post] and
    [_signed_delete]: [@retry(max_retries=3, backoff_factor=0.5,
    retry_on=(requests.RequestException,))]. *)
Definition max_retries : Z := 3.
Definition backoff_factor : float := 0.5.
Definition retry_on (e : exn) : bool := exn_eqb e RequestException.

Section Request.

Variables St A : Type.
(** One execution of the decorated body: the credentials check, the
    signature, the HTTP request of the session and [_handle_response]. *)
Variable body : St -> res A * St.
Variable sleep : float -> St -> res unit * St.

Definition request (fuel : nat) (s : St)
  : option (res A * St * list Retry.step) :=
  Retry.wrapper body sleep retry_on max_retries backoff_factor fuel s.

End Request.

(** Every call through the transport ends, after at most [n] executions of
    its body, that is after at most [n] HTTP requests. *)
Definition sends_at_most (n : nat) : Prop :=
  forall (St A : Type) (body : St -> res A * St)
         (sleep : float -> St -> res unit * St) (s : St),
  exists r s' steps,
    (forall fuel, (Z.to_nat max_retries < fuel)%nat ->
       request body sleep fuel s = Some (r, s', steps)) /\
    (Retry.calls steps <= n)%nat.

End BinanceTransport.

(* ===================================================================== *)
(** * strategy/indicators.py, strategy/ema_pullback.py                    *)
(* ===================================================================== *)

Module Strategy.

(** [float(n)] for an integer below 2^53 in absolute value, as the
    periods are. *)
Definition float_of_int (z : Z) : float :=
  match z with
  | Z0 => 0%float
  | Zpos _ => PrimFloat.of_uint63 (Uint63.of_Z z)
  | Zneg p => (- PrimFloat.of_uint63 (Uint63.of_Z (Zpos p)))%float
  end.

Section Indicators.

(** The builtin [sum] on a list of floats. How it rounds depends on the
    interpreter (plain left-to-right addition, or compensated summation
    since CPython 3.12), so it is left open. *)
Variable sum : list float -> float.

Definition ema (values : list float) (period : Z) : option float :=
  if (period <=? 0)%Z || (Z.of_nat (List.length values) <? period)%Z then None
  else
    let k := (2 / float_of_int (period + 1))%float in
    let seed := (sum (firstn (Z.to_nat period) values) / float_of_int period)%float in
    Some (fold_left (fun ema_value price =>
                       (price * k + ema_value * (1 - k))%float)
            (skipn (Z.to_nat period) values) seed).

Definition volume_sma (volumes : list float) (period : Z) : option float :=
  if (period <=? 0)%Z || (Z.of_nat (List.length volumes) <? period)%Z then None
  else
    let window := skipn (List.length volumes - Z.to_nat period) volumes in
    Some (sum window / float_of_int period)%float.

(** [EmaPullbackStrategy.generate_signal] on the dict main.py builds,
    whose ["1m"] entry is never empty: the signal, and the line it logs. *)
Definition generate_signal (market_data : MarketData) : option Side * string :=
  let closes := c_close (data_1m market_data) in
  let volumes := c_volume (data_1m market_data) in
  if (Z.of_nat (List.length closes) <? 2)%Z
  then (None, "Not enough candles for signal")
  else
    match ema closes 20, ema closes 50, volume_sma volumes 20 with
    | Some ema20, Some ema50, Some vol_ma =>
        let latest_close := last closes 0%float in
        let prev_close := last (removelast closes) 0%float in
        match rev volumes with
        | [] => (None, "No volume data available")
        | latest_volume :: _ =>
            if PrimFloat.ltb ema50 latest_close
               && PrimFloat.ltb ema50 ema20
               && PrimFloat.ltb ema20 prev_close
               && PrimFloat.leb latest_close ema20
               && PrimFloat.ltb vol_ma latest_volume
            then (Some LONG, "Strategy decision: LONG (EMA pullback confirmed)")
            else if PrimFloat.ltb latest_close ema50
                    && PrimFloat.ltb ema20 ema50
                    && PrimFloat.ltb prev_close ema20
                    && PrimFloat.leb ema20 latest_close
                    && PrimFloat.ltb vol_ma latest_volume
            then (Some SHORT, "Strategy decision: SHORT (EMA pullback confirmed)")
            else (None, "Strategy decision: None (no pullback signal)")
        end
    | _, _, _ => (None, "Insufficient data for indicators")
    end.

End Indicators.

End Strategy.

(* ===================================================================== *)
(** * core/state.py                                                       *)
(* ===================================================================== *)

Module BotState.

Local Open Scope Z_scope.

Record t : Type := {
  has_position : bool;
  last_cycle_time : option Z;
  trades_this_hour : Z;
  daily_loss : float;
  _current_hour : Z;
  _current_day : Z
}.

Definition _hour_key (dt_obj : Datetime.datetime) : Z :=
  Datetime.year dt_obj * 10000 + Datetime.tm_yday dt_obj * 24
  + Datetime.hour dt_obj.

(** [__init__]; the two arguments are the two readings of
    [datetime.utcnow()] it takes. *)
Definition init (utcnow1 utcnow2 : Datetime.datetime) : t :=
  {| has_position := false;
     last_cycle_time := None;
     trades_this_hour := 0;
     daily_loss := 0%float;
     _current_hour := _hour_key utcnow1;
     _current_day := Datetime.date utcnow2 |}.

Definition set_position (v : bool) (b : t) : t :=
  {| has_position := v;
     last_cycle_time := last_cycle_time b;
     trades_this_hour := trades_this_hour b;
     daily_loss := daily_loss b;
     _current_hour := _current_hour b;
     _current_day := _current_day b |}.

Definition increment_trades (count : Z) (b : t) : t :=
  {| has_position := has_position b;
     last_cycle_time := last_cycle_time b;
     trades_this_hour := trades_this_hour b + count;
     daily_loss := daily_loss b;
     _current_hour := _current_hour b;
     _current_day := _current_day b |}.

Definition add_loss (loss_amount : float) (b : t) : t :=
  {| has_position := has_position b;
     last_cycle_time := last_cycle_time b;
     trades_this_hour := trades_this_hour b;
     daily_loss := (daily_loss b + loss_amount)%float;
     _current_hour := _current_hour b;
     _current_day := _current_day b |}.

(** [reset_hour] and [reset_day] store the hour and the day of the wall
    clock ([utcnow]), not those of the timestamp that made them run. *)
Definition reset_hour (utcnow : Datetime.datetime) (b : t) : t :=
  {| has_position := has_position b;
     last_cycle_time := last_cycle_time b;
     trades_this_hour := 0;
     daily_loss := daily_loss b;
     _current_hour := _hour_key utcnow;
     _current_day := _current_day b |}.

Definition reset_day (utcnow : Datetime.datetime) (b : t) : t :=
  {| has_position := has_position b;
     last_cycle_time := last_cycle_time b;
     trades_this_hour := trades_this_hour b;
     daily_loss := 0%float;
     _current_hour := _current_hour b;
     _current_day := Datetime.date utcnow |}.

Definition _maybe_reset_hour (timestamp_ms : Z) (utcnow : Datetime.datetime)
    (b : t) : res t :=
  (current <- Datetime.utcfromtimestamp_ms timestamp_ms ;;
   if negb (_hour_key current =? _current_hour b)
   then Ok (reset_hour utcnow b) else Ok b)%res.

Definition _maybe_reset_day (timestamp_ms : Z) (utcnow : Datetime.datetime)
    (b : t) : res t :=
  (current <- Datetime.utcfromtimestamp_ms timestamp_ms ;;
   if negb (Datetime.date current =? _current_day b)
   then Ok (reset_day utcnow b) else Ok b)%res.

(** [update_cycle_time]; [utcnow_hour] and [utcnow_day] are the wall
    clock as [reset_hour] and [reset_day] read it, if they run. *)
Definition update_cycle_time (timestamp_ms : Z)
    (utcnow_hour utcnow_day : Datetime.datetime) (b : t) : res t :=
  (b <- _maybe_reset_hour timestamp_ms utcnow_hour b ;;
   b <- _maybe_reset_day timestamp_ms utcnow_day b ;;
   Ok {| has_position := has_position b;
         last_cycle_time := Some timestamp_ms;
         trades_this_hour := trades_this_hour b;
         daily_loss := daily_loss b;
         _current_hour := _current_hour b;
         _current_day := _current_day b |})%res.

End BotState.

(* ===================================================================== *)
(** * core/scheduler.py                                                   *)
(* ===================================================================== *)

Module Scheduler.

(** [MarketDataService.fetch_closed_klines], with its result as the dict
    it always is. *)
Definition fetch_closed_klines (sym : string) (interval : Interval)
    (limit : Z) : M Candles :=
  (raw <- call (GetKlines sym interval limit) ;;
   normalized <- MarketDataService._normalize_klines raw interval ;;
   log INFO "MarketData" "Fetched klines" ;;;
   ret normalized)%M.

(** [_log_candle_snapshot], for candles that are not [None]. *)
Definition _log_candle_snapshot (interval : Interval) (candles : Candles)
  : M unit :=
  match c_timestamp candles with
  | [] => log WARNING "Scheduler" "No candles available for interval"
  | _ => log INFO "Scheduler" "Latest close"
  end.

(** One turn of [while True:] in [run], for a scheduler of [sym] with
    [klines_limit], on the state [b]; it gives the state after the turn.
    [utcnow_hour] and [utcnow_day] are the wall clock as the resets of the
    state would read it. The state is written by [update_cycle_time] only,
    which raises, if it does, before it writes: a turn that catches an
    error hands on the state it got. *)
Definition cycle (sym : string) (klines_limit : Z)
    (utcnow_hour utcnow_day : Datetime.datetime) (b : BotState.t)
  : M BotState.t :=
  (cycle_start <- clock_ms ;;
   try_finally
     (try_except
        (log INFO "Scheduler" "Cycle start" ;;;
         candles_1m <- fetch_closed_klines sym I1m klines_limit ;;
         candles_5m <- fetch_closed_klines sym I5m klines_limit ;;
         match c_timestamp candles_1m with
         | [] =>
             log INFO "Scheduler" "Skipping cycle: 1m candle not ready" ;;;
             ret b
         | _ =>
             _log_candle_snapshot I1m candles_1m ;;;
             _log_candle_snapshot I5m candles_5m ;;;
             b' <- lift (BotState.update_cycle_time cycle_start
                           utcnow_hour utcnow_day b) ;;
             log INFO "Scheduler" "State updated" ;;;
             ret b'
         end)
        catches_ValueError_BinanceAPIError
        (fun _ => log ERROR "Scheduler" "Cycle error" ;;; ret b))
     (log INFO "Scheduler" "Cycle end, sleeping" ;;;
      Main._sleep_until_next_minute))%M.

End Scheduler.

(** The line [KillSwitch.reset_daily] logs when it turns trading on
    again. *)
Definition kill_switch_reset : event :=
  Log INFO "KillSwitch" "Kill switch reset for new day".

(* ===================================================================== *)
(** * More concrete worlds and stores for the examples                    *)
(* ===================================================================== *)

Module Scenario.

(** One closed 1m candle, opened two minutes before the clock of the
    sample worlds. *)
Definition one_closed_candle : KlinesPayload :=
  Payload [Sample.row (Sample.t0 - 120000)%Z].

Definition two_closed_candles : KlinesPayload :=
  Payload [Sample.row (Sample.t0 - 180000)%Z; Sample.row (Sample.t0 - 120000)%Z].

(** The exchange holds a long position of 1.5 and accepts both protective
    orders. *)
Definition holding : World :=
  Sample.world (Ok (Sample.account 1.5 100)) (Ok one_closed_candle)
    (Ok (Sample.order 11)) (Ok (Sample.order 12)) (Ok tt).

(** The exchange holds nothing. *)
Definition flat : World :=
  Sample.world (Ok Sample.flat_account) (Ok one_closed_candle)
    (Ok (Sample.order 11)) (Ok (Sample.order 12)) (Ok tt).

(** The exchange holds nothing and refuses every cancel. *)
Definition refusing_cancels : World :=
  Sample.world (Ok Sample.flat_account) (Ok one_closed_candle)
    (Ok (Sample.order 11)) (Ok (Sample.order 12)) (Raise BinanceAPIError).

(** One trade in the hour of [hour_key], under a limit of no trade per
    hour. *)
Definition one_trade_in (hour_key : Z) : TradeLimits.t :=
  {| TradeLimits.daily_trades := 1; TradeLimits.hourly_trades := 1;
     TradeLimits.daily_loss := 0%float;
     TradeLimits._current_day := 738886;
     TradeLimits._current_hour_key := hour_key;
     TradeLimits.max_daily_loss := None;
     TradeLimits.max_trades_per_day := None;
     TradeLimits.max_trades_per_hour := Some 0%Z |}.

(** A store whose kill switch has tripped on [l]. *)
Definition halted (l : TradeLimits.t) : Store :=
  {| symbol := Sample.BTCUSDT; position := None; tp_order_id := None;
     sl_order_id := None; is_protected := false; limits := l;
     is_trading_allowed := false; _symbol_filters := [];
     _in_cycle := false; trace := [] |}.

(** 2024-01-01 10:00 UTC, the hour of [Sample.t0]. *)
Definition ten_o_clock : Datetime.datetime :=
  {| Datetime.date := 738886; Datetime.year := 2024;
     Datetime.tm_yday := 1; Datetime.hour := 10 |}.

Definition eleven_o_clock : Datetime.datetime :=
  {| Datetime.date := 738886; Datetime.year := 2024;
     Datetime.tm_yday := 1; Datetime.hour := 11 |}.

(** A bot state of the ten o'clock hour, with five trades in it. *)
Definition five_trades : BotState.t :=
  {| BotState.has_position := true;
     BotState.last_cycle_time := Some Sample.t0;
     BotState.trades_this_hour := 5;
     BotState.daily_loss := (-3)%float;
     BotState._current_hour := 20240034;
     BotState._current_day := 738886 |}.

(** Market data with no candle. *)
Definition no_data : MarketData :=
  let empty := {| c_open := []; c_high := []; c_low := []; c_close := [];
                  c_volume := []; c_timestamp := [] |} in
  {| data_1m := empty; data_5m := empty |}.

(** A function that fails with a transport error at every call, and a
    sleep that is never interrupted. *)
Definition always_down (s : unit) : res unit * unit := (Raise RequestException, s).
Definition calm_sleep (d : float) (s : unit) : res unit * unit := (Ok tt, s).
Definition on_transport_error (e : exn) : bool := exn_eqb e RequestException.

End Scenario.

Example sample_boot : boot Sample.BTCUSDT Sample.t0 = Ok Sample.store0.
Proof. reflexivity. Qed.

Local Open Scope list_scope.

(* ===================================================================== *)
(** * Position sizing                                                     *)
(* ===================================================================== *)

Lemma gt0_not_le0 (x : float) : PyFloat.gt0 x = true -> PyFloat.le0 x = false.
Proof.
  unfold PyFloat.gt0, PyFloat.le0.
  rewrite ltb_spec, leb_spec. unfold SFltb, SFleb.
  replace (Prim2SF 0) with (S754_zero false) by reflexivity.
  destruct (Prim2SF x) as [sg | sg | | sg m e]; simpl;
    try destruct sg; simpl; congruence.
Qed.

(** The sizer on the figures of the end-to-end scenario of the
    specification: 10000 * 0.001 / (50000 * 0.01) = 0.02. *)
Example compute_position_size_scenario :
  PositionSizer.compute_position_size 10000 0.001 50000 0.01 = Ok (Some 0.02%float).
Proof. reflexivity. Qed.

(** C6, as stated, fails: with equity = risk_percent = 2^-600 and
    entry_price = sl_percent = 1, all four arguments are strictly positive,
    the product equity * risk_percent underflows to 0.0, the quotient is
    0.0, and the function returns [None], not a strictly positive
    quantity. *)
Lemma compute_position_size_underflow :
  ~ (forall equity risk_percent entry_price sl_percent : float,
        PyFloat.gt0 equity = true -> PyFloat.gt0 risk_percent = true ->
        PyFloat.gt0 entry_price = true -> PyFloat.gt0 sl_percent = true ->
        PositionSizer.compute_position_size equity risk_percent entry_price sl_percent
        = Ok (Some (equity * risk_percent / (entry_price * sl_percent))%float)
        /\ PyFloat.gt0 (equity * risk_percent / (entry_price * sl_percent))%float = true).
Proof.
  intro H.
  destruct (H 0x1p-600%float 0x1p-600%float 1%float 1%float
              eq_refl eq_refl eq_refl eq_refl) as [_ Hpos].
  vm_compute in Hpos. discriminate Hpos.
Qed.

Example compute_position_size_underflow_value :
  PositionSizer.compute_position_size 0x1p-600 0x1p-600 1 1 = Ok None.
Proof. reflexivity. Qed.

(** The same underflow in the divisor is not guarded: the division raises. *)
Example compute_position_size_zero_divisor :
  PositionSizer.compute_position_size 1 1 0x1p-600 0x1p-600 = Raise ZeroDivisionError.
Proof. reflexivity. Qed.

(** C6 (amended): for strictly positive arguments whose product
    entry_price * sl_percent is not zero, [compute_position_size] returns
    exactly the float quotient (equity * risk_percent) / (entry_price *
    sl_percent) when that quotient is strictly positive, and [None] when it
    is not; whenever one of the four arguments is <= 0 it returns [None]
    and does not raise. *)
Theorem compute_position_size_spec
    (equity risk_percent entry_price sl_percent : float) :
  (PyFloat.gt0 equity = true -> PyFloat.gt0 risk_percent = true ->
   PyFloat.gt0 entry_price = true -> PyFloat.gt0 sl_percent = true ->
   PrimFloat.eqb (entry_price * sl_percent) 0 = false ->
   let qty := (equity * risk_percent / (entry_price * sl_percent))%float in
   PositionSizer.compute_position_size equity risk_percent entry_price sl_percent
   = Ok (if PyFloat.gt0 qty then Some qty else None))
  /\
  (PyFloat.le0 equity = true \/ PyFloat.le0 risk_percent = true \/
   PyFloat.le0 entry_price = true \/ PyFloat.le0 sl_percent = true ->
   PositionSizer.compute_position_size equity risk_percent entry_price sl_percent
   = Ok None).
Proof.
  unfold PositionSizer.compute_position_size. split.
  - intros He Hr Hp Hs Hd. cbv zeta.
    rewrite (gt0_not_le0 He), (gt0_not_le0 Hr),
            (gt0_not_le0 Hp), (gt0_not_le0 Hs).
    simpl. unfold PyFloat.truediv. rewrite Hd. reflexivity.
  - intros [H | [H | [H | H]]]; rewrite H;
      rewrite ?orb_true_r; reflexivity.
Qed.

Lemma compute_position_size_spec_witness :
  PositionSizer.compute_position_size 10000 0.001 50000 0.01 = Ok (Some 0.02%float)
  /\ PositionSizer.compute_position_size 10000 0.001 0 0.01 = Ok None.
Proof.
  split.
  - exact (proj1 (compute_position_size_spec 10000 0.001 50000 0.01)
             eq_refl eq_refl eq_refl eq_refl eq_refl).
  - apply (proj2 (compute_position_size_spec 10000 0.001 0 0.01)).
    right. right. left. reflexivity.
Defined.

(* ===================================================================== *)
(** * Trade limits                                                        *)
(* ===================================================================== *)

Section TradeLimitsFacts.

Import TradeLimits.
Local Open Scope Z_scope.

(** C7: for every pnl and timestamp, [record_trade(pnl, now)] first
    applies [reset_if_needed(now)] (and raises with it when the timestamp
    is no date), then adds exactly 1 to [daily_trades] and to
    [hourly_trades], and adds pnl to [daily_loss] if and only if
    pnl < 0; a pnl that is not negative leaves [daily_loss] as the reset
    left it. *)
Theorem record_trade_spec (pnl : float) (now_ms : Z) (l : TradeLimits.t) :
  match Datetime.utcfromtimestamp_ms now_ms with
  | Raise e =>
      reset_if_needed now_ms l = Raise e /\ record_trade pnl now_ms l = Raise e
  | Ok _ =>
      exists l1 l2,
        reset_if_needed now_ms l = Ok l1 /\
        record_trade pnl now_ms l = Ok l2 /\
        daily_trades l2 = daily_trades l1 + 1 /\
        hourly_trades l2 = hourly_trades l1 + 1 /\
        daily_loss l2 = (if PyFloat.lt0 pnl then (daily_loss l1 + pnl)%float
                         else daily_loss l1) /\
        _current_day l2 = _current_day l1 /\
        _current_hour_key l2 = _current_hour_key l1
  end.
Proof.
  unfold record_trade, reset_if_needed.
  destruct (Datetime.utcfromtimestamp_ms now_ms) as [now | e]; simpl.
  - eexists. eexists. repeat split; reflexivity.
  - split; reflexivity.
Qed.

(** C8: [reset_if_needed(now)] derives the UTC day and the hour key of
    now and compares each with the stored one: a different day resets
    [daily_trades] to 0 and [daily_loss] to 0.0 and stores the day, a
    different hour key resets [hourly_trades] to 0 and stores the key, and
    neither comparison looks at the other bucket. In particular three
    losing trades of -10, -20 and -5 in one day give daily_loss = -35 and
    daily_trades = 3; a [reset_if_needed] in the next UTC day then gives
    daily_loss = 0 and daily_trades = 0, and one in the next hour of the
    same day resets the hourly counter only. *)
Theorem reset_if_needed_spec :
  (forall (now_ms : Z) (l : TradeLimits.t),
      match Datetime.utcfromtimestamp_ms now_ms with
      | Raise e => reset_if_needed now_ms l = Raise e
      | Ok now =>
          let new_day := negb (Datetime.date now =? _current_day l) in
          let new_hour := negb (_hour_key now =? _current_hour_key l) in
          reset_if_needed now_ms l =
          Ok {| daily_trades := if new_day then 0 else daily_trades l;
                hourly_trades := if new_hour then 0 else hourly_trades l;
                daily_loss := if new_day then 0%float else daily_loss l;
                _current_day := Datetime.date now;
                _current_hour_key := _hour_key now;
                max_daily_loss := max_daily_loss l;
                max_trades_per_day := max_trades_per_day l;
                max_trades_per_hour := max_trades_per_hour l |}
      end)
  /\
  (exists l3 next_day next_hour,
      three_losses Sample.t0 = Ok l3 /\
      daily_loss l3 = (-35)%float /\ daily_trades l3 = 3 /\ hourly_trades l3 = 3 /\
      reset_if_needed (Sample.t0 + Datetime.MS_PER_DAY) l3 = Ok next_day /\
      daily_loss next_day = 0%float /\ daily_trades next_day = 0 /\
      reset_if_needed (Sample.t0 + Datetime.MS_PER_HOUR) l3 = Ok next_hour /\
      daily_loss next_hour = (-35)%float /\ daily_trades next_hour = 3 /\
      hourly_trades next_hour = 0).
Proof.
  split.
  - intros now_ms l. unfold reset_if_needed.
    destruct (Datetime.utcfromtimestamp_ms now_ms) as [now | e]; simpl;
      [| reflexivity].
    destruct (Z.eqb_spec (Datetime.date now) (_current_day l)) as [Hd | Hd];
      destruct (Z.eqb_spec (_hour_key now) (_current_hour_key l)) as [Hh | Hh];
      simpl; rewrite ?Z.eqb_refl;
      try (destruct (Z.eqb_spec (_hour_key now) (_current_hour_key l));
           [| contradiction]);
      try (destruct (Z.eqb_spec (_hour_key now) (_current_hour_key l));
           [contradiction |]);
      simpl; destruct l; simpl in *; subst; reflexivity.
  - eexists. eexists. eexists.
    repeat split; vm_compute; reflexivity.
Qed.

End TradeLimitsFacts.

(* ===================================================================== *)
(** * Kill switch                                                         *)
(* ===================================================================== *)

Lemma evaluate_run (l : TradeLimits.t) (w : World) (s : Store) :
  fst (KillSwitch.evaluate l w s) = Ok tt /\
  is_trading_allowed (snd (KillSwitch.evaluate l w s))
  = (if TradeLimits.limits_exceeded l then false else is_trading_allowed s).
Proof.
  unfold KillSwitch.evaluate.
  destruct (TradeLimits.limits_exceeded l); [| split; reflexivity].
  unfold bind, gets, when, log, modify, ret.
  destruct (is_trading_allowed s); split; reflexivity.
Qed.

Lemma evaluate_all_cons (l : TradeLimits.t) (ls : list TradeLimits.t)
    (w : World) (s : Store) :
  evaluate_all (l :: ls) w s = evaluate_all ls w (snd (KillSwitch.evaluate l w s)).
Proof.
  simpl. unfold bind at 1.
  pose proof (evaluate_run l w s) as [Hok _].
  destruct (KillSwitch.evaluate l w s) as [r s']. simpl in *. subst r.
  reflexivity.
Qed.

Lemma evaluate_all_stays_off (ls : list TradeLimits.t) (w : World) (s : Store) :
  is_trading_allowed s = false ->
  fst (evaluate_all ls w s) = Ok tt /\
  is_trading_allowed (snd (evaluate_all ls w s)) = false.
Proof.
  revert s. induction ls as [| l ls IH]; intros s Hoff.
  - split; [reflexivity | exact Hoff].
  - rewrite evaluate_all_cons. apply IH.
    rewrite (proj2 (evaluate_run l w s)), Hoff.
    destruct (TradeLimits.limits_exceeded l); reflexivity.
Qed.

(** C4: the kill switch is one-directional. In any sequence of
    [evaluate] calls, once one call sees [limits_exceeded()] true,
    [is_trading_allowed] is false after the whole sequence, whatever limits
    the later calls are given; an [evaluate] never turns a false flag true;
    and [reset_daily()] sets it to true. *)
Theorem kill_switch_one_way :
  (forall (w : World) (s : Store) (before after : list TradeLimits.t)
          (l : TradeLimits.t),
      TradeLimits.limits_exceeded l = true ->
      fst (evaluate_all (before ++ l :: after) w s) = Ok tt /\
      is_trading_allowed (snd (evaluate_all (before ++ l :: after) w s)) = false)
  /\
  (forall (w : World) (s : Store) (l : TradeLimits.t),
      is_trading_allowed s = false ->
      is_trading_allowed (snd (KillSwitch.evaluate l w s)) = false)
  /\
  (forall (w : World) (s : Store),
      fst (KillSwitch.reset_daily w s) = Ok tt /\
      is_trading_allowed (snd (KillSwitch.reset_daily w s)) = true).
Proof.
  split; [| split].
  - intros w s before after l Hex. revert s.
    induction before as [| b before IH]; intros s.
    + simpl app. rewrite evaluate_all_cons.
      apply evaluate_all_stays_off.
      rewrite (proj2 (evaluate_run l w s)), Hex. reflexivity.
    + simpl app. rewrite evaluate_all_cons. apply IH.
  - intros w s l Hoff.
    rewrite (proj2 (evaluate_run l w s)), Hoff.
    destruct (TradeLimits.limits_exceeded l); reflexivity.
  - intros w s. unfold KillSwitch.reset_daily, bind, gets, when, log, modify, ret.
    destruct (is_trading_allowed s); split; reflexivity.
Qed.

Lemma kill_switch_one_way_witness :
  let spent :=
    {| TradeLimits.daily_trades := 3; TradeLimits.hourly_trades := 3;
       TradeLimits.daily_loss := (-35)%float;
       TradeLimits._current_day := 738886;
       TradeLimits._current_hour_key := 20240034;
       TradeLimits.max_daily_loss := Some 30%float;
       TradeLimits.max_trades_per_day := None;
       TradeLimits.max_trades_per_hour := None |} in
  let w := Sample.world (Ok Sample.flat_account) (Ok (Payload []))
             (Ok (Sample.order 11)) (Ok (Sample.order 12)) (Ok tt) in
  TradeLimits.limits_exceeded spent = true /\
  TradeLimits.limits_exceeded Sample.limits0 = false /\
  is_trading_allowed
    (snd (evaluate_all ([Sample.limits0] ++ spent :: [Sample.limits0; Sample.limits0])
            w Sample.store0)) = false.
Proof.
  intros spent w.
  split; [reflexivity | split; [reflexivity |]].
  apply (proj1 kill_switch_one_way w Sample.store0 [Sample.limits0]
           [Sample.limits0; Sample.limits0] spent).
  reflexivity.
Defined.

(* ===================================================================== *)
(** * Position tracker                                                    *)
(* ===================================================================== *)

Lemma new_events_app (s s' : Store) (evs : list event) :
  trace s' = trace s ++ evs -> new_events s s' = evs.
Proof.
  intros H. unfold new_events. rewrite H.
  rewrite skipn_app, skipn_all, Nat.sub_diag. reflexivity.
Qed.

(** What one reconciliation does, for every store and every answer. *)
Lemma sync_from_exchange_run (w : World) (s : Store) :
  let r := PositionTracker.sync_from_exchange w s in
  match get_account_info w (trace s) with
  | Ok info =>
      fst r = Ok tt /\
      forget_trace (snd r) =
      forget_trace
        (with_position
           match PositionTracker.find_remote (symbol s) (positions info), position s with
           | Some remote, None => Some remote
           | Some remote, Some loc =>
               if PositionTracker.mismatch loc remote then Some remote else Some loc
           | None, loc => loc
           end s)
  | Raise e =>
      forget_trace (snd r) = forget_trace s /\
      if catches_BinanceAPIError e
      then fst r = Ok tt /\
           new_events s (snd r) =
           [Req GetAccountInfo;
            Log ERROR "PositionTracker" "Failed to fetch account info for sync"]
      else fst r = Raise e
  end.
Proof.
  unfold PositionTracker.sync_from_exchange, try_except, bind, call, ret, log,
    modify, gets. simpl.
  destruct (get_account_info w (trace s)) as [info | e]; simpl.
  - destruct (PositionTracker.find_remote (symbol s) (positions info)) as [remote |];
      destruct (position s) as [loc |] eqn:Hloc; simpl;
      try destruct (PositionTracker.mismatch loc remote); simpl;
      split; try reflexivity;
      unfold forget_trace, with_position; simpl; rewrite ?Hloc; reflexivity.
  - destruct e; simpl; split; try reflexivity.
    split; [reflexivity |]. apply new_events_app. simpl.
    rewrite <- app_assoc. reflexivity.
Qed.

(** C3, as stated, fails in its last part: when the account query raises
    [BinanceAPIError], [sync_from_exchange] logs and returns normally; its
    caller sees no failure. *)
Lemma sync_from_exchange_swallows_api_error :
  ~ (forall (w : World) (s : Store) (e : exn),
        get_account_info w (trace s) = Raise e ->
        fst (PositionTracker.sync_from_exchange w s) = Raise e).
Proof.
  intro H.
  specialize (H (Sample.world (Raise BinanceAPIError) (Ok (Payload []))
                   (Ok (Sample.order 11)) (Ok (Sample.order 12)) (Ok tt))
                Sample.protected_store BinanceAPIError eq_refl).
  vm_compute in H. discriminate H.
Qed.

(** C3 (amended): for every local state and every answer to the account
    query, [sync_from_exchange] (adopt) takes the remote position when the
    exchange reports one and none is tracked; (overwrite) replaces the local
    position by exactly the remote one when both exist and differ in side,
    or in quantity or entry price by more than 1e-8; (retain) leaves the
    local position when the exchange reports none; (failure) leaves the
    local state untouched when the query fails: a [BinanceAPIError] is
    logged and the call returns normally, any other failure of the query
    is raised to the caller. *)
Theorem sync_from_exchange_spec (w : World) (s : Store) :
  let r := PositionTracker.sync_from_exchange w s in
  (forall info remote,
      get_account_info w (trace s) = Ok info ->
      PositionTracker.find_remote (symbol s) (positions info) = Some remote ->
      position s = None ->
      fst r = Ok tt /\ position (snd r) = Some remote)
  /\
  (forall info remote loc,
      get_account_info w (trace s) = Ok info ->
      PositionTracker.find_remote (symbol s) (positions info) = Some remote ->
      position s = Some loc ->
      Position.side loc <> Position.side remote \/
      PositionTracker.differs (Position.quantity loc) (Position.quantity remote) = true \/
      PositionTracker.differs (Position.entry_price loc) (Position.entry_price remote) = true ->
      fst r = Ok tt /\ position (snd r) = Some remote)
  /\
  (forall info loc,
      get_account_info w (trace s) = Ok info ->
      PositionTracker.find_remote (symbol s) (positions info) = None ->
      position s = Some loc ->
      fst r = Ok tt /\ forget_trace (snd r) = forget_trace s)
  /\
  (forall e,
      get_account_info w (trace s) = Raise e ->
      forget_trace (snd r) = forget_trace s /\
      fst r = (if catches_BinanceAPIError e then Ok tt else Raise e) /\
      (catches_BinanceAPIError e = true ->
       new_events s (snd r) =
       [Req GetAccountInfo;
        Log ERROR "PositionTracker" "Failed to fetch account info for sync"])).
Proof.
  intro r. pose proof (sync_from_exchange_run w s) as Hrun.
  fold r in Hrun. cbv zeta in Hrun.
  split; [| split; [| split]].
  - intros info remote Hinfo Hremote Hloc.
    rewrite Hinfo, Hremote, Hloc in Hrun. destruct Hrun as [Hok Hs].
    split; [exact Hok |]. apply (f_equal position) in Hs. exact Hs.
  - intros info remote loc Hinfo Hremote Hloc Hdiff.
    rewrite Hinfo, Hremote, Hloc in Hrun. destruct Hrun as [Hok Hs].
    split; [exact Hok |].
    apply (f_equal position) in Hs. simpl in Hs. rewrite Hs.
    assert (Hm : PositionTracker.mismatch loc remote = true).
    { unfold PositionTracker.mismatch.
      destruct Hdiff as [Hside | [Hq | Hp]].
      - destruct (Position.side loc), (Position.side remote); simpl;
          try reflexivity; congruence.
      - rewrite Hq. apply orb_true_iff. left. apply orb_true_r.
      - rewrite Hp. apply orb_true_r. }
    rewrite Hm. reflexivity.
  - intros info loc Hinfo Hremote Hloc.
    rewrite Hinfo, Hremote, Hloc in Hrun. destruct Hrun as [Hok Hs].
    split; [exact Hok |]. rewrite Hs.
    unfold forget_trace, with_position. simpl. rewrite Hloc. reflexivity.
  - intros e He. rewrite He in Hrun. destruct Hrun as [Hs Hr].
    split; [exact Hs |].
    destruct (catches_BinanceAPIError e).
    + split; [apply Hr | intros _; apply Hr].
    + split; [exact Hr | discriminate].
Qed.

Lemma sync_from_exchange_spec_witness :
  let reports := fun acct =>
    Sample.world acct (Ok (Payload [])) (Ok (Sample.order 11))
      (Ok (Sample.order 12)) (Ok tt) in
  let open_1_5 := reports (Ok (Sample.account 1.5 100)) in
  let flat := reports (Ok Sample.flat_account) in
  let down := reports (Raise BinanceAPIError) in
  let local_1_0 := Sample.tracking (Sample.long 1) in
  position (snd (PositionTracker.sync_from_exchange open_1_5 Sample.store0))
  = Some (Sample.long 1.5)
  /\ position (snd (PositionTracker.sync_from_exchange open_1_5 local_1_0))
     = Some (Sample.long 1.5)
  /\ forget_trace (snd (PositionTracker.sync_from_exchange flat local_1_0))
     = forget_trace local_1_0
  /\ forget_trace (snd (PositionTracker.sync_from_exchange down local_1_0))
     = forget_trace local_1_0.
Proof.
  intros reports open_1_5 flat down local_1_0.
  split; [| split; [| split]].
  - destruct (sync_from_exchange_spec open_1_5 Sample.store0) as [Hadopt _].
    apply (Hadopt (Sample.account 1.5 100) (Sample.long 1.5));
      reflexivity.
  - destruct (sync_from_exchange_spec open_1_5 local_1_0) as [_ [Hover _]].
    apply (Hover (Sample.account 1.5 100) (Sample.long 1.5) (Sample.long 1));
      try reflexivity.
    right. left. reflexivity.
  - destruct (sync_from_exchange_spec flat local_1_0) as [_ [_ [Hretain _]]].
    apply (Hretain Sample.flat_account (Sample.long 1)); reflexivity.
  - destruct (sync_from_exchange_spec down local_1_0) as [_ [_ [_ Hfail]]].
    apply (Hfail BinanceAPIError). reflexivity.
Defined.

(* ===================================================================== *)
(** * Doubles by index, and the double nearest to a fraction              *)
(* ===================================================================== *)

Section Nearest.

Local Open Scope Z_scope.
Import PyDecimal.

Lemma two52 : 2 ^ 52 = 4503599627370496.
Proof. reflexivity. Qed.

(** An index is its significand plus [2 ^ 52] times its exponent. *)
Lemma index_decomp (i : Z) :
  0 <= i ->
  i = mantissa i + exponent i * 2 ^ 52 /\
  0 <= exponent i /\
  0 <= mantissa i < 2 * 2 ^ 52 /\
  (1 <= exponent i -> 2 ^ 52 <= mantissa i).
Proof.
  intros Hi. unfold mantissa, exponent. rewrite two52.
  destruct (Z.ltb_spec i 4503599627370496) as [Hlt | Hge]; [lia |].
  pose proof (Z.div_mod i 4503599627370496 ltac:(lia)) as Hdm.
  pose proof (Z.mod_pos_bound i 4503599627370496 ltac:(lia)) as Hmod.
  assert (1 <= i / 4503599627370496)
    by (apply Z.div_le_lower_bound; lia).
  lia.
Qed.

Lemma scaled_spec (i : Z) :
  0 <= i -> scaled i = mantissa i * 2 ^ exponent i.
Proof.
  intros Hi. unfold scaled.
  apply Z.shiftl_mul_pow2. apply (index_decomp Hi).
Qed.

Lemma exponent_mono (i j : Z) :
  0 <= i <= j -> exponent i <= exponent j.
Proof.
  intros [Hi Hij].
  destruct (index_decomp Hi) as [Ei [Hei [Hmi Hni]]].
  destruct (index_decomp (Z.le_trans _ _ _ Hi Hij)) as [Ej [Hej [Hmj Hnj]]].
  rewrite two52 in *. nia.
Qed.

Lemma scaled_mono (i j : Z) :
  0 <= i <= j -> scaled i <= scaled j.
Proof.
  intros [Hi Hij].
  assert (Hj : 0 <= j) by lia.
  pose proof (exponent_mono (conj Hi Hij)) as He.
  rewrite (scaled_spec Hi), (scaled_spec Hj).
  destruct (index_decomp Hi) as [Ei [Hei [Hmi Hni]]].
  destruct (index_decomp Hj) as [Ej [Hej [Hmj Hnj]]].
  destruct (Z.eq_dec (exponent i) (exponent j)) as [Heq | Hne].
  - rewrite Heq in *.
    apply Z.mul_le_mono_nonneg_r; [apply Z.pow_nonneg; lia | lia].
  - assert (Hlt : exponent i + 1 <= exponent j) by lia.
    assert (Hp : 2 ^ (exponent i + 1) <= 2 ^ exponent j)
      by (apply Z.pow_le_mono_r; lia).
    rewrite Z.pow_add_r in Hp by lia. change (2 ^ 1) with 2 in Hp.
    assert (H0 : 0 < 2 ^ exponent i) by (apply Z.pow_pos_nonneg; lia).
    specialize (Hnj ltac:(lia)).
    nia.
Qed.

Lemma below_spec (i n d : Z) :
  0 <= i ->
  below i n d = (scaled i * d <=? n * 2 ^ 1074).
Proof.
  intros Hi. unfold below.
  rewrite (scaled_spec Hi).
  rewrite !Z.shiftl_mul_pow2 by (try apply (index_decomp Hi); lia).
  f_equal. ring.
Qed.

Lemma below_zero (n d : Z) : 0 <= n -> below 0 n d = true.
Proof.
  intros Hn. rewrite below_spec by lia.
  change (scaled 0) with 0. apply Z.leb_le.
  assert (0 < 2 ^ 1074) by (apply Z.pow_pos_nonneg; lia). nia.
Qed.

(** A greater fraction has more doubles below it. *)
Lemma below_value_mono (i n1 d1 n2 d2 : Z) :
  0 <= i -> 0 < d1 -> 0 < d2 ->
  n1 * d2 <= n2 * d1 ->
  below i n1 d1 = true -> below i n2 d2 = true.
Proof.
  intros Hi H1 H2 Hle. rewrite !below_spec by exact Hi.
  assert (HK : 0 < 2 ^ 1074) by (apply Z.pow_pos_nonneg; lia).
  generalize dependent (2 ^ 1074). intros K HK.
  generalize (scaled i). intros S.
  rewrite !Z.leb_le. intros Hb.
  assert (S * d2 * d1 <= n2 * K * d1) by nia.
  nia.
Qed.

Lemma below_index_mono (i j n d : Z) :
  0 <= i <= j -> 0 < d ->
  below j n d = true -> below i n d = true.
Proof.
  intros Hij Hd. rewrite !below_spec by lia.
  pose proof (scaled_mono Hij) as Hs.
  rewrite !Z.leb_le. nia.
Qed.

Lemma bisect_spec (n d : Z) (fuel : nat) :
  forall lo hi : Z,
    0 <= lo < hi -> hi - lo <= 2 ^ Z.of_nat fuel ->
    below lo n d = true -> below hi n d = false ->
    let r := bisect fuel lo hi n d in
    lo <= r < hi /\ below r n d = true /\ below (r + 1) n d = false.
Proof.
  induction fuel as [| fuel IH]; intros lo hi Hlh Hgap Hlo Hhi.
  - simpl in *. assert (hi = lo + 1) by lia. subst hi.
    repeat split; try assumption; lia.
  - cbn [bisect].
    rewrite Nat2Z.inj_succ, Z.pow_succ_r in Hgap by lia.
    set (mid := (lo + hi) / 2).
    assert (Hmid : lo <= mid < hi /\ mid - lo <= 2 ^ Z.of_nat fuel
                   /\ hi - mid <= 2 ^ Z.of_nat fuel).
    { subst mid.
      pose proof (Z.div_mod (lo + hi) 2 ltac:(lia)) as Hdm.
      pose proof (Z.mod_pos_bound (lo + hi) 2 ltac:(lia)) as Hmod.
      lia. }
    destruct Hmid as [Hm [Hg1 Hg2]].
    destruct (below mid n d) eqn:Hb.
    + destruct (IH mid hi ltac:(lia) Hg2 Hb Hhi) as [Hr Hrest].
      split; [lia | exact Hrest].
    + destruct (Z.eq_dec mid lo) as [-> | Hne]; [congruence |].
      destruct (IH lo mid ltac:(lia) Hg1 Hlo Hb) as [Hr Hrest].
      split; [lia | exact Hrest].
Qed.

(** The bracketing index is unique. *)
Lemma bracket_unique (n d i j : Z) :
  0 <= i -> 0 <= j -> 0 < d ->
  below i n d = true -> below (i + 1) n d = false ->
  below j n d = true -> below (j + 1) n d = false ->
  i = j.
Proof.
  intros Hi Hj Hd Bi Bi1 Bj Bj1.
  destruct (Z.lt_trichotomy i j) as [Hlt | [Heq | Hgt]]; [| exact Heq |].
  - rewrite (@below_index_mono (i + 1) j n d ltac:(lia) Hd Bj) in Bi1.
    discriminate.
  - rewrite (@below_index_mono (j + 1) i n d ltac:(lia) Hd Bi) in Bj1.
    discriminate.
Qed.

Lemma index_inf_value : index_inf = 9218868437227405312.
Proof. reflexivity. Qed.

(** The index found brackets the fraction, and is the lower or the upper
    end of its bracket. *)
Lemma nearest_index_cases (n d : Z) :
  0 <= n -> 0 < d ->
  (below index_inf n d = true /\ nearest_index n d = index_inf) \/
  (below index_inf n d = false /\
   exists lo, 0 <= lo < index_inf /\
     below lo n d = true /\ below (lo + 1) n d = false /\
     nearest_index n d =
       match Z.shiftl n 1075 ?= (scaled lo + scaled (lo + 1)) * d with
       | Lt => lo
       | Gt => lo + 1
       | Eq => if Z.even lo then lo else lo + 1
       end).
Proof.
  intros Hn Hd. unfold nearest_index.
  destruct (below index_inf n d) eqn:Hinf; [left; split; reflexivity |].
  right. split; [reflexivity |].
  destruct (@bisect_spec n d 63 0 index_inf) as [Hr [Hb Hb1]].
  - rewrite index_inf_value. lia.
  - rewrite index_inf_value. change (2 ^ Z.of_nat 63) with 9223372036854775808. lia.
  - apply below_zero; exact Hn.
  - exact Hinf.
  - exists (bisect 63 0 index_inf n d). repeat split; try assumption; lia.
Qed.

Lemma nearest_index_range (n d : Z) :
  0 <= n -> 0 < d -> 0 <= nearest_index n d <= index_inf.
Proof.
  intros Hn Hd.
  destruct (nearest_index_cases Hn Hd) as [[_ ->] | [_ [lo [Hlo [_ [_ ->]]]]]].
  - rewrite index_inf_value. lia.
  - destruct (Z.shiftl n 1075 ?= _); [destruct (Z.even lo) | |]; lia.
Qed.

(** Rounding to the nearest double is monotone. *)
Lemma nearest_index_mono (n1 d1 n2 d2 : Z) :
  0 <= n1 -> 0 < d1 -> 0 <= n2 -> 0 < d2 ->
  n1 * d2 <= n2 * d1 ->
  nearest_index n1 d1 <= nearest_index n2 d2.
Proof.
  intros Hn1 Hd1 Hn2 Hd2 Hle.
  pose proof (nearest_index_range Hn1 Hd1) as R1.
  destruct (nearest_index_cases Hn2 Hd2)
    as [[_ E2] | [Hinf2 [lo2 [Hlo2 [B2 [B2' E2]]]]]]; [lia |].
  destruct (nearest_index_cases Hn1 Hd1)
    as [[Hinf1 _] | [_ [lo1 [Hlo1 [B1 [B1' E1]]]]]].
  { rewrite (@below_value_mono index_inf n1 d1 n2 d2) in Hinf2;
      [discriminate | rewrite index_inf_value; lia | assumption..]. }
  assert (Hlo : lo1 <= lo2).
  { destruct (Z.le_gt_cases lo1 lo2) as [H | H]; [exact H | exfalso].
    pose proof (@below_value_mono lo1 n1 d1 n2 d2 ltac:(lia) Hd1 Hd2 Hle B1) as B.
    rewrite (@below_index_mono (lo2 + 1) lo1 n2 d2 ltac:(lia) Hd2 B) in B2'.
    discriminate. }
  assert (U1 : lo1 <= nearest_index n1 d1 <= lo1 + 1).
  { rewrite E1. destruct (Z.shiftl n1 1075 ?= _); [destruct (Z.even lo1) | |]; lia. }
  assert (U2 : lo2 <= nearest_index n2 d2 <= lo2 + 1).
  { rewrite E2. destruct (Z.shiftl n2 1075 ?= _); [destruct (Z.even lo2) | |]; lia. }
  destruct (Z.eq_dec lo1 lo2) as [Heq | Hne]; [| lia].
  subst lo2. rewrite E1, E2.
  rewrite !Z.shiftl_mul_pow2 by lia.
  assert (HK : 0 < 2 ^ 1075) by (apply Z.pow_pos_nonneg; lia).
  generalize dependent (2 ^ 1075). intros K HK.
  generalize (scaled lo1 + scaled (lo1 + 1)). intros S.
  destruct (Z.compare_spec (n1 * K) (S * d1)) as [C1 | C1 | C1];
    destruct (Z.compare_spec (n2 * K) (S * d2)) as [C2 | C2 | C2];
    try (destruct (Z.even lo1)); try lia.
  all: exfalso; assert (n1 * K * d2 <= n2 * K * d1) by nia; nia.
Qed.

(** ** The doubles of the indices *)

Lemma digits2_pos_bounds (m : positive) :
  2 ^ (Zpos (digits2_pos m) - 1) <= Zpos m < 2 ^ Zpos (digits2_pos m).
Proof.
  induction m as [m IH | m IH |]; cbn [digits2_pos].
  - rewrite Pos2Z.inj_succ.
    replace (Z.succ (Zpos (digits2_pos m)) - 1) with (Z.succ (Zpos (digits2_pos m) - 1)) by lia.
    rewrite !Z.pow_succ_r by lia. lia.
  - rewrite Pos2Z.inj_succ.
    replace (Z.succ (Zpos (digits2_pos m)) - 1) with (Z.succ (Zpos (digits2_pos m) - 1)) by lia.
    rewrite !Z.pow_succ_r by lia. lia.
  - cbn. lia.
Qed.

Lemma sf_of_index_valid (i : Z) :
  0 <= i -> valid_binary (sf_of_index i) = true.
Proof.
  intros Hi. unfold sf_of_index.
  destruct (Z.eqb_spec i 0) as [| Hnz]; [reflexivity |].
  destruct (Z.ltb_spec i index_inf) as [Hlt | Hge]; [| reflexivity].
  rewrite index_inf_value in Hlt.
  destruct (index_decomp Hi) as [Ei [He [Hm Hn]]]. rewrite two52 in *.
  assert (Hmpos : 0 < mantissa i) by nia.
  cbn [SpecFloat.valid_binary]. unfold bounded, canonical_mantissa, fexp.
  change (SpecFloat.emin FloatOps.prec emax) with (-1074).
  change (emax - FloatOps.prec) with 971. change FloatOps.prec with 53.
  pose proof (digits2_pos_bounds (Z.to_pos (mantissa i))) as Hd.
  rewrite Z2Pos.id in Hd by exact Hmpos.
  set (k := Zpos (digits2_pos (Z.to_pos (mantissa i)))) in *.
  assert (Hk : 0 < k) by (subst k; lia).
  apply andb_true_iff. split; [apply Z.eqb_eq | apply Z.leb_le; lia].
  destruct (Z.le_gt_cases 4503599627370496 (mantissa i)) as [Hnorm | Hsub].
  - assert (k = 53).
    { destruct (Z.lt_trichotomy k 53) as [H | [H | H]]; [exfalso | exact H | exfalso].
      - assert (2 ^ k <= 2 ^ 52) by (apply Z.pow_le_mono_r; lia).
        rewrite two52 in *. lia.
      - assert (2 ^ 53 <= 2 ^ (k - 1)) by (apply Z.pow_le_mono_r; lia).
        change (2 ^ 53) with 9007199254740992 in *. lia. }
    lia.
  - assert (exponent i = 0) by lia.
    assert (k <= 52).
    { destruct (Z.le_gt_cases k 52) as [H' | H']; [exact H' | exfalso].
      assert (2 ^ 52 <= 2 ^ (k - 1)) by (apply Z.pow_le_mono_r; lia).
      rewrite two52 in *. lia. }
    lia.
Qed.

Lemma sf_of_index_le (i j : Z) :
  0 <= i <= j -> SFleb (sf_of_index i) (sf_of_index j) = true.
Proof.
  intros [Hi Hij]. assert (Hj : 0 <= j) by lia.
  pose proof (exponent_mono (conj Hi Hij)) as He.
  destruct (index_decomp Hi) as [Ei [Hei [Hmi Hni]]].
  destruct (index_decomp Hj) as [Ej [Hej [Hmj Hnj]]].
  rewrite two52 in *.
  unfold sf_of_index.
  destruct (Z.eqb_spec i 0) as [Hi0 | Hi0];
    destruct (Z.eqb_spec j 0) as [Hj0 | Hj0]; try lia;
    destruct (Z.ltb_spec i index_inf) as [Hli | Hli];
    destruct (Z.ltb_spec j index_inf) as [Hlj | Hlj]; try lia;
    try reflexivity.
  unfold SFleb, SFcompare.
  destruct (Z.compare_spec (exponent i - 1074) (exponent j - 1074))
    as [C | C | C]; [| reflexivity | lia].
  change (Pos.compare_cont Eq ?a ?b) with (Pos.compare a b).
  assert (Hm : (Z.to_pos (mantissa i) <= Z.to_pos (mantissa j))%positive).
  { assert (0 < mantissa i) by lia. assert (mantissa i <= mantissa j) by lia. lia. }
  apply Pos.compare_le_iff in Hm.
  destruct (Pos.compare _ _); [reflexivity | reflexivity | congruence].
Qed.

Lemma float_of_index_le (i j : Z) :
  0 <= i <= j ->
  PrimFloat.leb (float_of_index i) (float_of_index j) = true.
Proof.
  intros Hij. rewrite leb_spec. unfold float_of_index.
  rewrite !Prim2SF_SF2Prim by (apply sf_of_index_valid; lia).
  apply sf_of_index_le; exact Hij.
Qed.

End Nearest.

(* ===================================================================== *)
(** * Decimal arithmetic                                                  *)
(* ===================================================================== *)

Section DecimalFacts.

Local Open Scope Z_scope.
Import PyDecimal.

Lemma den_pos (e : Z) : 0 < den e.
Proof.
  unfold den. destruct (Z.leb_spec 0 e); [lia |].
  apply Z.pow_pos_nonneg; lia.
Qed.

Lemma num_nonneg (c : N) (e : Z) : 0 <= num c e.
Proof.
  unfold num. destruct (Z.leb_spec 0 e); [| lia].
  apply Z.mul_nonneg_nonneg; [lia | apply Z.pow_nonneg; lia].
Qed.

Lemma den_id (e : Z) : Zpos (Z.to_pos (den e)) = den e.
Proof. apply Z2Pos.id, den_pos. Qed.

(** If [X / Y = A / B] as fractions, the integer part of [A / B] brackets
    [X] between two consecutive multiples of [Y]. *)
Lemma floor_transfer (A B X Y : Z) :
  0 < B -> 0 < Y -> X * B = A * Y ->
  (A / B) * Y <= X < (A / B + 1) * Y.
Proof.
  intros HB HY E.
  pose proof (Z.mul_div_le A B HB) as H1.
  pose proof (Z.mul_succ_div_gt A B HB) as H2.
  set (q := A / B) in *.
  split.
  - assert (q * Y * B <= X * B) by nia. nia.
  - assert (X * B < (q + 1) * Y * B) by nia. nia.
Qed.

Lemma pow10_split (a b : Z) :
  0 <= a -> 0 <= b -> 10 ^ (a + b) = 10 ^ a * 10 ^ b.
Proof. intros. apply Z.pow_add_r; assumption. Qed.

(** The quotient [_divide] computes is the integer part of the quotient of
    the values. *)
Lemma quotient_spec (c1 c2 : N) (e1 e2 : Z) :
  (0 < c2)%N ->
  let q := quotient c1 e1 c2 e2 in
  0 <= q /\
  q * (num c2 e2 * den e1) <= num c1 e1 * den e2 < (q + 1) * (num c2 e2 * den e1).
Proof.
  intros Hc2 q.
  assert (Ha : 0 <= Z.of_N c1) by lia.
  assert (Hb : 0 < Z.of_N c2) by lia.
  subst q. unfold quotient, num, den.
  generalize dependent (Z.of_N c1). intros a Ha.
  generalize dependent (Z.of_N c2). intros b Hb.
  destruct (Z.leb_spec e2 e1) as [H21 | H21];
    destruct (Z.leb_spec 0 e1) as [H1 | H1];
    destruct (Z.leb_spec 0 e2) as [H2 | H2]; try lia.
  - assert (P : 10 ^ e1 = 10 ^ (e1 - e2) * 10 ^ e2)
      by (rewrite <- pow10_split by lia; f_equal; lia).
    assert (0 < 10 ^ e2) by (apply Z.pow_pos_nonneg; lia).
    assert (0 <= 10 ^ (e1 - e2)) by (apply Z.pow_nonneg; lia).
    split; [apply Z.div_pos; nia |].
    apply floor_transfer; [lia | nia |]. rewrite P. ring.
  - assert (P : 10 ^ (e1 - e2) = 10 ^ e1 * 10 ^ (- e2))
      by (rewrite <- pow10_split by lia; f_equal; lia).
    assert (0 <= 10 ^ e1) by (apply Z.pow_nonneg; lia).
    assert (0 <= 10 ^ (- e2)) by (apply Z.pow_nonneg; lia).
    split; [apply Z.div_pos; nia |].
    apply floor_transfer; [lia | nia |]. rewrite P. ring.
  - assert (P : 10 ^ (- e2) = 10 ^ (e1 - e2) * 10 ^ (- e1))
      by (rewrite <- pow10_split by lia; f_equal; lia).
    assert (0 < 10 ^ (- e1)) by (apply Z.pow_pos_nonneg; lia).
    assert (0 <= 10 ^ (e1 - e2)) by (apply Z.pow_nonneg; lia).
    split; [apply Z.div_pos; nia |].
    apply floor_transfer; [lia | nia |]. rewrite P. ring.
  - assert (P : 10 ^ e2 = 10 ^ e1 * 10 ^ (e2 - e1))
      by (rewrite <- pow10_split by lia; f_equal; lia).
    assert (0 < 10 ^ e2) by (apply Z.pow_pos_nonneg; lia).
    assert (0 < 10 ^ (e2 - e1)) by (apply Z.pow_pos_nonneg; lia).
    split; [apply Z.div_pos; nia |].
    apply floor_transfer; [nia | nia |]. rewrite P. ring.
  - assert (P : 10 ^ (e2 - e1) = 10 ^ e2 * 10 ^ (- e1))
      by (rewrite <- pow10_split by lia; f_equal; lia).
    assert (0 < 10 ^ e2) by (apply Z.pow_pos_nonneg; lia).
    assert (0 < 10 ^ (- e1)) by (apply Z.pow_pos_nonneg; lia).
    assert (0 < 10 ^ (e2 - e1)) by (apply Z.pow_pos_nonneg; lia).
    split; [apply Z.div_pos; nia |].
    apply floor_transfer; [nia | nia |]. rewrite P. ring.
  - assert (P : 10 ^ (- e1) = 10 ^ (- e2) * 10 ^ (e2 - e1))
      by (rewrite <- pow10_split by lia; f_equal; lia).
    assert (0 < 10 ^ (- e1)) by (apply Z.pow_pos_nonneg; lia).
    assert (0 < 10 ^ (e2 - e1)) by (apply Z.pow_pos_nonneg; lia).
    split; [apply Z.div_pos; nia |].
    apply floor_transfer; [nia | nia |]. rewrite P. ring.
Qed.

Lemma digits_loop_le (fuel : nat) :
  forall n k : Z, 1 <= k -> n < 10 ^ k -> digits_loop fuel n <= k.
Proof.
  induction fuel as [| fuel IH]; intros n k Hk Hn; cbn [digits_loop]; [lia |].
  destruct (Z.ltb_spec n 10) as [Hlt | Hge]; [lia |].
  assert (Hk2 : 2 <= k).
  { destruct (Z.eq_dec k 1) as [-> | Hne]; [| lia].
    change (10 ^ 1) with 10 in Hn. lia. }
  assert (Hdiv : n / 10 < 10 ^ (k - 1)).
  { apply Z.div_lt_upper_bound; [lia |].
    rewrite <- Z.pow_succ_r by lia.
    replace (Z.succ (k - 1)) with k by lia. exact Hn. }
  specialize (IH (n / 10) (k - 1) ltac:(lia) Hdiv). lia.
Qed.

(** A coefficient below [10 ^ prec] is not rounded. *)
Lemma fix_exact (s : bool) (c : N) (e : Z) :
  Z.of_N c < 10 ^ prec -> fix_ s c e = Finite s c e.
Proof.
  intros Hc. unfold fix_.
  assert (H : digits (Z.of_N c) <= prec)
    by (apply digits_loop_le; [unfold prec; lia | exact Hc]).
  destruct (Z.leb_spec (digits (Z.of_N c) - prec) 0); [reflexivity | lia].
Qed.

(** [(d // unit) * unit] for a non-negative [d] and a positive [unit],
    within the precision of the context. *)
Lemma floor_product (c cu : N) (e eu : Z) :
  (0 < cu)%N ->
  let k := quotient c e cu eu in
  k * Z.of_N cu < 10 ^ prec ->
  floordiv (Finite false c e) (Finite false cu eu)
  = Ok (Finite false (Z.to_N k) 0) /\
  mul (Finite false (Z.to_N k) 0) (Finite false cu eu)
  = Ok (Finite false (Z.to_N k * cu) eu).
Proof.
  intros Hcu k Hk.
  destruct (quotient_spec c e eu Hcu) as [Hq _]. fold k in Hq.
  assert (Hk' : k < 10 ^ prec) by nia.
  split.
  - unfold floordiv. fold k.
    destruct (N.eqb_spec cu 0) as [-> | _]; [lia |].
    destruct (Z.ltb_spec k (10 ^ prec)); [reflexivity | lia].
  - unfold mul. cbn [xorb]. rewrite Z.add_0_l.
    f_equal. apply fix_exact. rewrite N2Z.inj_mul, Z2N.id by exact Hq. exact Hk.
Qed.

(** Beyond it, the division raises. *)
Lemma floordiv_impossible (c cu : N) (e eu : Z) :
  (0 < cu)%N ->
  10 ^ prec <= quotient c e cu eu ->
  floordiv (Finite false c e) (Finite false cu eu) = Raise DecimalException.
Proof.
  intros Hcu Hk. unfold floordiv.
  destruct (N.eqb_spec cu 0) as [-> | _]; [lia |].
  destruct (Z.ltb_spec (quotient c e cu eu) (10 ^ prec)); [lia | reflexivity].
Qed.

(** [float] is monotone on the non-negative Decimals. *)
Lemma to_float_mono (c1 c2 : N) (e1 e2 : Z) :
  (value (Finite false c1 e1) <= value (Finite false c2 e2))%Q ->
  PrimFloat.leb (to_float (Finite false c1 e1)) (to_float (Finite false c2 e2))
  = true.
Proof.
  unfold value, Qle. cbn [Qnum Qden]. rewrite !den_id. intros Hle.
  unfold to_float. apply float_of_index_le.
  pose proof (num_nonneg c1 e1). pose proof (num_nonneg c2 e2).
  pose proof (den_pos e1). pose proof (den_pos e2).
  split.
  - apply nearest_index_range; assumption.
  - apply nearest_index_mono; assumption.
Qed.

(** The product is the greatest multiple of the unit below the Decimal. *)
Lemma quotient_greatest (c cu : N) (e eu : Z) :
  (0 < cu)%N ->
  let k := quotient c e cu eu in
  let d := value (Finite false c e) in
  let unit := value (Finite false cu eu) in
  (value (Finite false (Z.to_N k * cu) eu) == inject_Z k * unit)%Q /\
  (inject_Z k * unit <= d)%Q /\
  (forall j : Z, (inject_Z j * unit <= d)%Q -> j <= k).
Proof.
  intros Hcu k d unit.
  destruct (quotient_spec c e eu Hcu) as [Hq [Hlo Hhi]]. fold k in Hq, Hlo, Hhi.
  pose proof (den_pos e) as Hde. pose proof (den_pos eu) as Hdu.
  assert (Hnu : 0 < num cu eu).
  { unfold num. destruct (Z.leb_spec 0 eu); [| lia].
    apply Z.mul_pos_pos; [lia | apply Z.pow_pos_nonneg; lia]. }
  assert (Hprod : num (Z.to_N k * cu) eu = k * num cu eu).
  { unfold num. rewrite N2Z.inj_mul, Z2N.id by exact Hq.
    destruct (0 <=? eu); ring. }
  subst d unit. unfold value, Qeq, Qle, Qmult, inject_Z. cbn [Qnum Qden].
  rewrite ?Pos.mul_1_l, !den_id, Hprod.
  split; [ring | split].
  - nia.
  - intros j Hj. rewrite ?den_id in Hj.
    destruct (Z.le_gt_cases j k) as [H | H]; [exact H | exfalso].
    assert ((k + 1) * (num cu eu * den e) <= j * (num cu eu * den e))
      by (apply Z.mul_le_mono_nonneg_r; nia).
    nia.
Qed.

End DecimalFacts.

(* ===================================================================== *)
(** * [str] of a float reads back                                         *)
(* ===================================================================== *)

Section ReadsBack.

Local Open Scope Z_scope.
Import PyDecimal.

Lemma scaled_lt (i j : Z) :
  0 <= i < j -> scaled i < scaled j.
Proof.
  intros [Hi Hij].
  assert (Hj : 0 <= j) by lia.
  pose proof (@exponent_mono i j ltac:(lia)) as He.
  rewrite (scaled_spec Hi), (scaled_spec Hj).
  destruct (index_decomp Hi) as [Ei [Hei [Hmi Hni]]].
  destruct (index_decomp Hj) as [Ej [Hej [Hmj Hnj]]].
  assert (H0 : 0 < 2 ^ exponent i) by (apply Z.pow_pos_nonneg; lia).
  destruct (Z.eq_dec (exponent i) (exponent j)) as [Heq | Hne].
  - rewrite Heq in *.
    apply Z.mul_lt_mono_pos_r; [exact H0 | lia].
  - assert (Hlt : exponent i + 1 <= exponent j) by lia.
    assert (Hp : 2 ^ (exponent i + 1) <= 2 ^ exponent j)
      by (apply Z.pow_le_mono_r; lia).
    rewrite Z.pow_add_r in Hp by lia. change (2 ^ 1) with 2 in Hp.
    specialize (Hnj ltac:(lia)).
    nia.
Qed.

(** Fractions of the same value round to the same double. *)
Lemma nearest_index_value (n1 d1 n2 d2 : Z) :
  0 <= n1 -> 0 < d1 -> 0 <= n2 -> 0 < d2 ->
  n1 * d2 = n2 * d1 ->
  nearest_index n1 d1 = nearest_index n2 d2.
Proof.
  intros Hn1 Hd1 Hn2 Hd2 E.
  apply Z.le_antisymm; apply nearest_index_mono; try assumption; lia.
Qed.

(** The value of a double rounds to that double. *)
Lemma nearest_index_exact (i n d : Z) :
  0 <= i < index_inf -> 0 < d ->
  scaled i * d = n * 2 ^ 1074 ->
  nearest_index n d = i.
Proof.
  intros [Hi Hinf] Hd E.
  assert (HK : 0 < 2 ^ 1074) by (apply Z.pow_pos_nonneg; lia).
  assert (Hs : 0 <= scaled i).
  { rewrite (scaled_spec Hi).
    apply Z.mul_nonneg_nonneg;
      [apply (index_decomp Hi) | apply Z.pow_nonneg; lia]. }
  assert (Hn : 0 <= n) by nia.
  pose proof (@scaled_lt i (i + 1) ltac:(lia)) as Hnext.
  pose proof (@scaled_lt i index_inf ltac:(lia)) as Htop.
  assert (Bi : below i n d = true)
    by (rewrite below_spec by lia; apply Z.leb_le; lia).
  assert (Bi1 : below (i + 1) n d = false)
    by (rewrite below_spec by lia; apply Z.leb_gt; nia).
  destruct (nearest_index_cases Hn Hd)
    as [[Binf _] | [_ [lo [Hlo [B [B' ->]]]]]].
  - rewrite below_spec in Binf by lia. apply Z.leb_le in Binf. nia.
  - assert (lo = i)
      by (apply (@bracket_unique n d lo i); try assumption; lia).
    subst lo.
    rewrite Z.shiftl_mul_pow2 by lia.
    replace 1075 with (Z.succ 1074) by reflexivity.
    rewrite Z.pow_succ_r by lia.
    destruct (Z.compare_spec (n * (2 * 2 ^ 1074))
                             ((scaled i + scaled (i + 1)) * d))
      as [C | C | C]; [nia | reflexivity | nia].
Qed.

(** The index of a double from its significand and exponent. *)
Lemma valid_index (s : bool) (m : positive) (e : Z) :
  valid_binary (S754_finite s m e) = true ->
  let i := Zpos m + (e + 1074) * 2 ^ 52 in
  0 < i < index_inf /\ mantissa i = Zpos m /\ exponent i = e + 1074.
Proof.
  cbn [SpecFloat.valid_binary]. unfold bounded, canonical_mantissa, fexp.
  change (SpecFloat.emin FloatOps.prec emax) with (-1074).
  change (emax - FloatOps.prec) with 971. change FloatOps.prec with 53.
  intros H. apply andb_true_iff in H. destruct H as [Hc He].
  apply Z.eqb_eq in Hc. apply Z.leb_le in He.
  pose proof (digits2_pos_bounds m) as Hd.
  set (k := Zpos (digits2_pos m)) in *.
  assert (Hk : 0 < k) by (subst k; lia).
  cbv zeta. rewrite index_inf_value, two52.
  unfold mantissa, exponent. rewrite two52.
  destruct (Z.max_spec (k + e - 53) (-1074)) as [[Hlt Hmax] | [Hge Hmax]];
    rewrite Hmax in Hc.
  - (* subnormal *)
    assert (k <= 52) by lia.
    assert (2 ^ k <= 2 ^ 52) by (apply Z.pow_le_mono_r; lia).
    rewrite two52 in *. subst e.
    replace (-1074 + 1074) with 0 by lia. rewrite Z.mul_0_l, Z.add_0_r.
    destruct (Z.ltb_spec (Zpos m) 4503599627370496); lia.
  - (* normal *)
    assert (k = 53) by lia.
    assert (Hlo : 2 ^ 52 <= Zpos m) by (replace 52 with (k - 1) by lia; lia).
    assert (Hhi : Zpos m < 2 ^ 53) by (replace 53 with k by lia; lia).
    rewrite two52 in Hlo. change (2 ^ 53) with 9007199254740992 in Hhi.
    set (i := Zpos m + (e + 1074) * 4503599627370496).
    assert (Hq : i / 4503599627370496 = e + 1075).
    { symmetry. apply (Z.div_unique_pos i 4503599627370496 (e + 1075)
                         (Zpos m - 4503599627370496)); subst i; lia. }
    assert (Hr : i mod 4503599627370496 = Zpos m - 4503599627370496).
    { symmetry. apply (Z.mod_unique_pos i 4503599627370496 (e + 1075)
                         (Zpos m - 4503599627370496)); subst i; lia. }
    destruct (Z.ltb_spec i 4503599627370496); [subst i; lia |].
    rewrite Hq, Hr. subst i. lia.
Qed.

Lemma sf_of_valid_index (s : bool) (m : positive) (e : Z) :
  valid_binary (S754_finite s m e) = true ->
  sf_of_index (Zpos m + (e + 1074) * 2 ^ 52) = S754_finite false m e.
Proof.
  intros Hv. destruct (@valid_index s m e Hv) as [[Hpos Hinf] [Hm He]].
  unfold sf_of_index.
  destruct (Z.eqb_spec (Zpos m + (e + 1074) * 2 ^ 52) 0); [lia |].
  destruct (Z.ltb_spec (Zpos m + (e + 1074) * 2 ^ 52) index_inf); [| lia].
  rewrite Hm, He. cbn [Z.to_pos]. f_equal. lia.
Qed.

(** The value of a double, as a fraction, rounds to its index. *)
Lemma float_value_index (s : bool) (m : positive) (e : Z) :
  valid_binary (S754_finite s m e) = true ->
  nearest_index (if 0 <=? e then Zpos m * 2 ^ e else Zpos m)
                (if 0 <=? e then 1 else 2 ^ (- e))
  = Zpos m + (e + 1074) * 2 ^ 52.
Proof.
  intros Hv. destruct (@valid_index s m e Hv) as [[Hpos Hinf] [Hm He]].
  assert (Hi : 0 <= Zpos m + (e + 1074) * 2 ^ 52) by lia.
  assert (He0 : 0 <= e + 1074) by (rewrite <- He; apply (index_decomp Hi)).
  apply nearest_index_exact; [lia | |].
  - destruct (Z.leb_spec 0 e); [lia | apply Z.pow_pos_nonneg; lia].
  - rewrite (scaled_spec Hi), Hm, He.
    destruct (Z.leb_spec 0 e) as [H | H].
    + rewrite Z.pow_add_r by lia. ring.
    + rewrite <- Z.mul_assoc, <- Z.pow_add_r by lia.
      do 2 f_equal. lia.
Qed.

Lemma reads_value (n d c e : Z) :
  0 <= n -> 0 < d -> 0 <= c ->
  num (Z.to_N c) e * d = n * den e ->
  reads (nearest_index n d) c e.
Proof.
  intros Hn Hd Hc E. split; [exact Hc |].
  apply nearest_index_value;
    [apply num_nonneg | apply den_pos | exact Hn | exact Hd | exact E].
Qed.

Lemma reads_same_value (i c e c' e' : Z) :
  0 <= c' ->
  num (Z.to_N c') e' * den e = num (Z.to_N c) e * den e' ->
  reads i c e -> reads i c' e'.
Proof.
  intros Hc' E [Hc Hi]. split; [exact Hc' |].
  rewrite <- Hi.
  apply nearest_index_value;
    [apply num_nonneg | apply den_pos | apply num_nonneg | apply den_pos
    | exact E].
Qed.

Lemma candidate_reads (n d k c e : Z) :
  0 <= n -> 0 < d ->
  candidate (nearest_index n d) n d k = Some (c, e) ->
  reads (nearest_index n d) c e.
Proof.
  intros Hn Hd. unfold candidate.
  set (e0 := adjusted n d - k + 1).
  set (N := if 0 <=? e0 then n else n * 10 ^ (- e0)).
  set (D := if 0 <=? e0 then d * 10 ^ e0 else d).
  assert (HD : 0 < D).
  { subst D. destruct (Z.leb_spec 0 e0); [| exact Hd].
    apply Z.mul_pos_pos; [exact Hd | apply Z.pow_pos_nonneg; lia]. }
  assert (HN : 0 <= N).
  { subst N. destruct (Z.leb_spec 0 e0); [exact Hn |].
    apply Z.mul_nonneg_nonneg; [exact Hn | apply Z.pow_nonneg; lia]. }
  assert (Hlo : 0 <= N / D) by (apply Z.div_pos; assumption).
  assert (Hread : forall c', 0 <= c' ->
            reads_back (nearest_index n d) c' e0 = true ->
            reads (nearest_index n d) c' e0).
  { intros c' Hc' Hb. split; [exact Hc' |]. apply Z.eqb_eq. exact Hb. }
  destruct (Z.eqb_spec (N mod D) 0) as [Hex | Hnex].
  - intros H. injection H as <- <-.
    apply reads_value; try assumption.
    pose proof (Z.div_mod N D ltac:(lia)) as Hdm. rewrite Hex in Hdm.
    unfold num, den. rewrite Z2N.id by exact Hlo.
    subst N D. destruct (Z.leb_spec 0 e0); nia.
  - destruct (reads_back (nearest_index n d) (N / D) e0) eqn:Rlo;
      destruct (reads_back (nearest_index n d) (N / D + 1) e0) eqn:Rhi.
    + destruct (2 * (N mod D) ?= D); [destruct (Z.even (N / D)) | |];
        intros H; injection H as <- <-; apply Hread; (assumption || lia).
    + intros H; injection H as <- <-; apply Hread; assumption.
    + intros H; injection H as <- <-; apply Hread; (assumption || lia).
    + discriminate.
Qed.

Lemma shortest_from_reads (n d : Z) (otherwise : Z * Z) (fuel : nat) :
  0 <= n -> 0 < d ->
  reads (nearest_index n d) (fst otherwise) (snd otherwise) ->
  forall k,
    reads (nearest_index n d)
          (fst (shortest_from fuel (nearest_index n d) n d k otherwise))
          (snd (shortest_from fuel (nearest_index n d) n d k otherwise)).
Proof.
  intros Hn Hd Ho.
  induction fuel as [| fuel IH]; intros k; cbn [shortest_from]; [exact Ho |].
  destruct (candidate (nearest_index n d) n d k) as [[c e] |] eqn:Hc.
  - exact (candidate_reads k Hn Hd Hc).
  - apply IH.
Qed.

Lemma strip_zeros_reads (i : Z) (fuel : nat) :
  forall c e,
    reads i c e ->
    reads i (fst (strip_zeros fuel c e)) (snd (strip_zeros fuel c e)).
Proof.
  induction fuel as [| fuel IH]; intros c e Hr; cbn [strip_zeros]; [exact Hr |].
  destruct (Z.eqb_spec (c mod 10) 0) as [Hz | Hnz]; [| exact Hr].
  destruct (Z.eqb_spec c 0) as [Hc0 | Hc0]; [exact Hr |].
  cbn [andb negb]. apply IH.
  destruct Hr as [Hc Hi].
  pose proof (Z.div_mod c 10 ltac:(lia)) as Hdm. rewrite Hz in Hdm.
  assert (Hq : 0 <= c / 10) by (apply Z.div_pos; lia).
  apply (@reads_same_value i c e); [exact Hq | | split; assumption].
  unfold num, den. rewrite !Z2N.id by assumption.
  destruct (Z.leb_spec 0 e) as [He | He];
    destruct (Z.leb_spec 0 (e + 1)) as [He1 | He1]; try lia.
  - rewrite Z.pow_add_r by lia. change (10 ^ 1) with 10. nia.
  - assert (e = -1) by lia. subst e. change (10 ^ (- -1)) with 10.
    change (10 ^ (-1 + 1)) with 1. lia.
  - replace (- e) with (- (e + 1) + 1) by lia.
    rewrite Z.pow_add_r by lia. change (10 ^ 1) with 10. nia.
Qed.

(** Writing the digits keeps the value. *)
Lemma of_digits_reads (i : Z) (s : bool) (c e : Z) :
  reads i c e ->
  exists c' e',
    of_digits s c e = Finite s c' e' /\
    nearest_index (num c' e') (den e') = i.
Proof.
  intros [Hc Hi]. unfold of_digits.
  destruct ((e + digits c <=? -4) || (16 <? e + digits c));
    [exists (Z.to_N c), e; split; [reflexivity | exact Hi] |].
  destruct (Z.leb_spec 0 e) as [He | He];
    [| exists (Z.to_N c), e; split; [reflexivity | exact Hi]].
  exists (Z.to_N (c * 10 ^ (e + 1))), (-1). split; [reflexivity |].
  assert (Hp : 0 <= c * 10 ^ (e + 1))
    by (apply Z.mul_nonneg_nonneg; [exact Hc | apply Z.pow_nonneg; lia]).
  rewrite <- Hi.
  apply nearest_index_value;
    [apply num_nonneg | apply den_pos | apply num_nonneg | apply den_pos |].
  unfold num, den. rewrite !Z2N.id by assumption.
  destruct (Z.leb_spec 0 e); [| lia].
  change (0 <=? -1) with false. cbn [Z.opp]. change (10 ^ 1) with 10.
  rewrite Z.pow_add_r by lia. change (10 ^ 1) with 10. ring.
Qed.

(** [float(Decimal(str(x)))] is [x], for every float. *)
Lemma str_reads_back (x : float) : to_float (of_float x) = x.
Proof.
  rewrite <- (SF2Prim_Prim2SF x) at 2.
  pose proof (Prim2SF_valid x) as Hv.
  unfold of_float.
  destruct (Prim2SF x) as [s | s | | s m e].
  - destruct s; vm_compute; reflexivity.
  - destruct s; reflexivity.
  - reflexivity.
  - set (n := if 0 <=? e then Zpos m * 2 ^ e else Zpos m).
    set (d := if 0 <=? e then 1 else 2 ^ (- e)).
    set (exact := if 0 <=? e then (n, 0) else (Zpos m * 5 ^ (- e), e)).
    assert (Hn : 0 <= n).
    { subst n. destruct (0 <=? e); [| lia].
      apply Z.mul_nonneg_nonneg; [lia | apply Z.pow_nonneg; lia]. }
    assert (Hd : 0 < d).
    { subst d. destruct (Z.leb_spec 0 e); [lia | apply Z.pow_pos_nonneg; lia]. }
    assert (Hex : reads (nearest_index n d) (fst exact) (snd exact)).
    { clear Hn. subst exact n d.
      destruct (Z.leb_spec 0 e) as [He | He]; cbn [fst snd].
      - assert (0 <= Zpos m * 2 ^ e)
          by (apply Z.mul_nonneg_nonneg; [lia | apply Z.pow_nonneg; lia]).
        apply reads_value; [assumption | lia | assumption |].
        unfold num, den. rewrite Z2N.id by assumption.
        change (0 <=? 0) with true. cbv iota. change (10 ^ 0) with 1. ring.
      - assert (0 <= Zpos m * 5 ^ (- e))
          by (apply Z.mul_nonneg_nonneg; [lia | apply Z.pow_nonneg; lia]).
        apply reads_value;
          [lia | apply Z.pow_pos_nonneg; lia | assumption |].
        unfold num, den. rewrite Z2N.id by assumption.
        destruct (Z.leb_spec 0 e); [lia |].
        replace 10 with (5 * 2) by reflexivity.
        rewrite Z.pow_mul_l. ring. }
    unfold shortest.
    pose proof (@shortest_from_reads n d exact 17 Hn Hd Hex 1) as Hs.
    destruct (shortest_from 17 (nearest_index n d) n d 1 exact) as [c0 e0].
    cbn [fst snd] in Hs.
    pose proof (@strip_zeros_reads _ 17 c0 e0 Hs) as Hz.
    destruct (strip_zeros 17 c0 e0) as [c e10]. cbn [fst snd] in Hz.
    destruct (@of_digits_reads _ s c e10 Hz) as [c' [e' [-> Hi]]].
    unfold to_float, float_of_index. rewrite Hi.
    subst n d.
    rewrite (@float_value_index s m e Hv), (@sf_of_valid_index s m e Hv).
    destruct s; reflexivity.
Qed.

End ReadsBack.

(* ===================================================================== *)
(** * Order rounding                                                      *)
(* ===================================================================== *)

(** [float((Decimal(str(x)) // unit) * unit)] for a non-negative finite
    [x] and a positive unit, when the quotient times the coefficient of the
    unit stays below [10 ^ prec]: nothing raises and nothing is rounded
    before [float]. *)
Lemma floor_to_run (w : World) (s : Store) (unit : PyDecimal.t) (x : float)
    (c cu : N) (e eu : Z) :
  PyDecimal.of_float x = PyDecimal.Finite false c e ->
  unit = PyDecimal.Finite false cu eu -> (0 < cu)%N ->
  let k := PyDecimal.quotient c e cu eu in
  (k * Z.of_N cu < 10 ^ PyDecimal.prec)%Z ->
  let rounded := PyDecimal.Finite false (Z.to_N k * cu) eu in
  OrderManager.floor_to unit x w s = (Ok (PyDecimal.to_float rounded), s) /\
  (PyDecimal.value rounded == inject_Z k * PyDecimal.value unit)%Q /\
  (inject_Z k * PyDecimal.value unit
   <= PyDecimal.value (PyDecimal.of_float x))%Q /\
  (forall j : Z,
      (inject_Z j * PyDecimal.value unit
       <= PyDecimal.value (PyDecimal.of_float x))%Q -> (j <= k)%Z) /\
  PrimFloat.leb (PyDecimal.to_float rounded) x = true.
Proof.
  intros Hx -> Hcu k Hk rounded.
  destruct (floor_product c e eu Hcu Hk) as [Hdiv Hmul].
  destruct (quotient_greatest c e eu Hcu) as [Heq [Hle Hmax]].
  fold k in Hdiv, Hmul, Heq, Hle, Hmax. fold rounded in Heq.
  rewrite Hx.
  split; [| split; [exact Heq | split; [exact Hle | split; [exact Hmax |]]]].
  - unfold OrderManager.floor_to, bind, lift, ret.
    rewrite Hx, Hdiv, Hmul. reflexivity.
  - pose proof (str_reads_back x) as Hback. rewrite Hx in Hback.
    rewrite <- Hback. apply to_float_mono. eapply Qle_trans; [| exact Hle].
    apply Qle_lteq. right. exact Heq.
Qed.

(** Past the precision of the context the division raises. *)
Lemma floor_to_raises (w : World) (s : Store) (unit : PyDecimal.t) (x : float)
    (c cu : N) (e eu : Z) :
  PyDecimal.of_float x = PyDecimal.Finite false c e ->
  unit = PyDecimal.Finite false cu eu -> (0 < cu)%N ->
  (10 ^ PyDecimal.prec <= PyDecimal.quotient c e cu eu)%Z ->
  OrderManager.floor_to unit x w s = (Raise DecimalException, s).
Proof.
  intros Hx -> Hcu Hk.
  unfold OrderManager.floor_to, bind, lift.
  rewrite Hx, (floordiv_impossible c e eu Hcu Hk). reflexivity.
Qed.

(** The claim as the specification words it, for every positive quantity
    and every positive step, fails: with the default step 0.001 the
    quantity 1e25 has a quotient of 29 digits, [Decimal.__floordiv__]
    raises [InvalidOperation] under the 28-digit context, and
    [_round_qty] returns nothing. *)
Lemma round_qty_beyond_precision :
  ~ (forall (w : World) (s s1 : Store) (sym : string) (filt : Filters)
            (quantity : float) (c cu : N) (e eu : Z),
        OrderManager._load_filters sym w s = (Ok filt, s1) ->
        PyFloat.gt0 quantity = true ->
        PyDecimal.of_float quantity = PyDecimal.Finite false c e ->
        stepSize filt = PyDecimal.Finite false cu eu -> (0 < cu)%N ->
        exists qty : float,
          OrderManager._round_qty sym quantity w s = (Ok qty, s1)).
Proof.
  intro H.
  set (w := Sample.world (Ok Sample.flat_account) (Ok (Payload []))
              (Ok (Sample.order 11)) (Ok (Sample.order 12)) (Ok tt)).
  set (s1 := snd (OrderManager._load_filters Sample.BTCUSDT w Sample.store0)).
  assert (Hd : PyDecimal.of_float 1e25 = PyDecimal.Finite false 1 25)
    by (vm_compute; reflexivity).
  destruct (H w Sample.store0 s1 Sample.BTCUSDT OrderManager.default_filters
              1e25%float 1%N 1%N 25%Z (-3)%Z
              eq_refl eq_refl Hd eq_refl eq_refl) as [qty Hqty].
  vm_compute in Hqty. discriminate Hqty.
Qed.

Example round_qty_beyond_precision_value :
  let w := Sample.world (Ok Sample.flat_account) (Ok (Payload []))
             (Ok (Sample.order 11)) (Ok (Sample.order 12)) (Ok tt) in
  let r := OrderManager.place_market_order Sample.BTCUSDT BUY 1e25 w
             Sample.store0 in
  fst r = Raise DecimalException /\
  order_requests (trace (snd r)) = [].
Proof. vm_compute. split; reflexivity. Qed.

(** C9: quantities and prices are floored to the exchange step, within
    the 28 digits of the Decimal context. With the filters of the symbol
    loaded, take a quantity (price) that is finite and not negative, so
    that [Decimal(str(quantity))] is a coefficient [c] with an exponent
    [e], and a positive step (tick) of coefficient [cu]; let [k] be the
    integer part of their quotient. If [k * cu] has at most 28 digits,
    [_round_qty] ([_round_price]) returns [float] of the Decimal k * step,
    which is the greatest integer multiple of the step that does not
    exceed [Decimal(str(quantity))]; and the float returned does not
    exceed the quantity itself. If [k] has more than 28 digits the
    division raises and [_round_qty] raises with it.
    [place_market_order] raises [BinanceAPIError] and sends nothing when
    the rounded quantity is <= 0; otherwise it sends exactly one order, of
    the rounded quantity. *)
Theorem order_rounding_floors (w : World) (s s1 : Store) (sym : string)
    (filt : Filters) :
  OrderManager._load_filters sym w s = (Ok filt, s1) ->
  (forall (quantity : float) (c cu : N) (e eu : Z),
      PyDecimal.of_float quantity = PyDecimal.Finite false c e ->
      stepSize filt = PyDecimal.Finite false cu eu -> (0 < cu)%N ->
      let k := PyDecimal.quotient c e cu eu in
      (k * Z.of_N cu < 10 ^ PyDecimal.prec)%Z ->
      let rounded := PyDecimal.Finite false (Z.to_N k * cu) eu in
      OrderManager._round_qty sym quantity w s
      = (Ok (PyDecimal.to_float rounded), s1) /\
      (PyDecimal.value rounded
       == inject_Z k * PyDecimal.value (stepSize filt))%Q /\
      (inject_Z k * PyDecimal.value (stepSize filt)
       <= PyDecimal.value (PyDecimal.of_float quantity))%Q /\
      (forall j : Z,
          (inject_Z j * PyDecimal.value (stepSize filt)
           <= PyDecimal.value (PyDecimal.of_float quantity))%Q ->
          (j <= k)%Z) /\
      PrimFloat.leb (PyDecimal.to_float rounded) quantity = true)
  /\
  (forall (price : float) (c cu : N) (e eu : Z),
      PyDecimal.of_float price = PyDecimal.Finite false c e ->
      tickSize filt = PyDecimal.Finite false cu eu -> (0 < cu)%N ->
      let k := PyDecimal.quotient c e cu eu in
      (k * Z.of_N cu < 10 ^ PyDecimal.prec)%Z ->
      let rounded := PyDecimal.Finite false (Z.to_N k * cu) eu in
      OrderManager._round_price sym price w s
      = (Ok (PyDecimal.to_float rounded), s1) /\
      (PyDecimal.value rounded
       == inject_Z k * PyDecimal.value (tickSize filt))%Q /\
      (inject_Z k * PyDecimal.value (tickSize filt)
       <= PyDecimal.value (PyDecimal.of_float price))%Q /\
      (forall j : Z,
          (inject_Z j * PyDecimal.value (tickSize filt)
           <= PyDecimal.value (PyDecimal.of_float price))%Q ->
          (j <= k)%Z) /\
      PrimFloat.leb (PyDecimal.to_float rounded) price = true)
  /\
  (forall (quantity : float) (c cu : N) (e eu : Z),
      PyDecimal.of_float quantity = PyDecimal.Finite false c e ->
      stepSize filt = PyDecimal.Finite false cu eu -> (0 < cu)%N ->
      (10 ^ PyDecimal.prec <= PyDecimal.quotient c e cu eu)%Z ->
      OrderManager._round_qty sym quantity w s = (Raise DecimalException, s1))
  /\
  (forall (side : OrderSide) (quantity qty : float),
      OrderManager._round_qty sym quantity w s = (Ok qty, s1) ->
      let r := OrderManager.place_market_order sym side quantity w s in
      if PyFloat.le0 qty
      then r = (Raise BinanceAPIError, s1)
      else fst r = place_market_order w (trace s1) sym side qty /\
           order_requests (new_events s1 (snd r))
           = [Req (PlaceMarketOrder sym side qty)]).
Proof.
  intros Hload. split; [| split; [| split]].
  - intros quantity c cu e eu Hd Hstep Hcu k Hk rounded.
    destruct (floor_to_run w s1 quantity Hd Hstep Hcu Hk)
      as [Hrun [Heq [Hle [Hmax Hfloat]]]].
    fold k in Hrun, Heq, Hle, Hmax, Hfloat.
    fold rounded in Hrun, Heq, Hfloat.
    split; [| split; [exact Heq | split; [exact Hle | split; assumption]]].
    unfold OrderManager._round_qty, bind. rewrite Hload. exact Hrun.
  - intros price c cu e eu Hd Htick Hcu k Hk rounded.
    destruct (floor_to_run w s1 price Hd Htick Hcu Hk)
      as [Hrun [Heq [Hle [Hmax Hfloat]]]].
    fold k in Hrun, Heq, Hle, Hmax, Hfloat.
    fold rounded in Hrun, Heq, Hfloat.
    split; [| split; [exact Heq | split; [exact Hle | split; assumption]]].
    unfold OrderManager._round_price, bind. rewrite Hload. exact Hrun.
  - intros quantity c cu e eu Hd Hstep Hcu Hk.
    unfold OrderManager._round_qty, bind. rewrite Hload.
    exact (floor_to_raises w s1 quantity Hd Hstep Hcu Hk).
  - intros side quantity qty Hround r.
    assert (Hr : r = if PyFloat.le0 qty then (Raise BinanceAPIError, s1)
                     else match place_market_order w (trace s1) sym side qty with
                          | Ok o =>
                              (Ok o,
                               emit (Log INFO "OrderManager" "Submitted market order")
                                 (emit (Req (PlaceMarketOrder sym side qty)) s1))
                          | Raise e =>
                              (Raise e, emit (Req (PlaceMarketOrder sym side qty)) s1)
                          end).
    { subst r. unfold OrderManager.place_market_order, bind at 1.
      rewrite Hround. destruct (PyFloat.le0 qty); reflexivity. }
    rewrite Hr. clear Hr r.
    destruct (PyFloat.le0 qty); [reflexivity |].
    destruct (place_market_order w (trace s1) sym side qty) as [o | e]; simpl;
      (split; [reflexivity |]).
    + rewrite (@new_events_app s1 _
                 [Req (PlaceMarketOrder sym side qty);
                  Log INFO "OrderManager" "Submitted market order"]).
      * reflexivity.
      * simpl. rewrite <- app_assoc. reflexivity.
    + rewrite (@new_events_app s1 _ [Req (PlaceMarketOrder sym side qty)]);
        reflexivity.
Qed.

Lemma order_rounding_floors_witness :
  let w := Sample.world (Ok Sample.flat_account) (Ok (Payload []))
             (Ok (Sample.order 11)) (Ok (Sample.order 12)) (Ok tt) in
  let s1 := snd (OrderManager._load_filters Sample.BTCUSDT w Sample.store0) in
  OrderManager._round_qty Sample.BTCUSDT 1.2345 w Sample.store0
  = (Ok 1.234%float, s1)
  /\ PrimFloat.leb 1.234 1.2345 = true
  /\ OrderManager._round_price Sample.BTCUSDT 64123.456 w Sample.store0
     = (Ok 64123.45%float, s1)
  /\ OrderManager._round_qty Sample.BTCUSDT 1e25 w Sample.store0
     = (Raise DecimalException, s1)
  /\ OrderManager.place_market_order Sample.BTCUSDT BUY 0.0004 w Sample.store0
     = (Raise BinanceAPIError, s1).
Proof.
  intros w s1.
  assert (Hload : OrderManager._load_filters Sample.BTCUSDT w Sample.store0
                  = (Ok OrderManager.default_filters, s1)) by reflexivity.
  destruct (order_rounding_floors w Sample.store0 Sample.BTCUSDT Hload)
    as [Hqty [Hprice [Hraise Hplace]]].
  assert (Dq : PyDecimal.of_float 1.2345 = PyDecimal.Finite false 12345 (-4))
    by (vm_compute; reflexivity).
  assert (Kq : (PyDecimal.quotient 12345 (-4) 1 (-3) * Z.of_N 1
                < 10 ^ PyDecimal.prec)%Z) by (vm_compute; reflexivity).
  assert (Dp : PyDecimal.of_float 64123.456
               = PyDecimal.Finite false 64123456 (-3))
    by (vm_compute; reflexivity).
  assert (Kp : (PyDecimal.quotient 64123456 (-3) 1 (-2) * Z.of_N 1
                < 10 ^ PyDecimal.prec)%Z) by (vm_compute; reflexivity).
  assert (Dr : PyDecimal.of_float 1e25 = PyDecimal.Finite false 1 25)
    by (vm_compute; reflexivity).
  assert (Kr : (10 ^ PyDecimal.prec <= PyDecimal.quotient 1 25 1 (-3))%Z)
    by (vm_compute; discriminate).
  destruct (Hqty 1.2345%float 12345%N 1%N (-4)%Z (-3)%Z
              Dq eq_refl eq_refl Kq) as [Rq [_ [_ [_ Lq]]]].
  destruct (Hprice 64123.456%float 64123456%N 1%N (-3)%Z (-2)%Z
              Dp eq_refl eq_refl Kp) as [Rp _].
  split; [| split; [| split; [| split]]].
  - rewrite Rq. vm_compute. reflexivity.
  - replace 1.234%float
      with (PyDecimal.to_float
              (PyDecimal.Finite false
                 (Z.to_N (PyDecimal.quotient 12345 (-4) 1 (-3)) * 1) (-3)))
      by (vm_compute; reflexivity).
    exact Lq.
  - rewrite Rp. vm_compute. reflexivity.
  - exact (Hraise 1e25%float 1%N 1%N 25%Z (-3)%Z Dr eq_refl eq_refl Kr).
  - apply (Hplace BUY 0.0004%float 0%float). vm_compute. reflexivity.
Defined.

(* ===================================================================== *)
(** * Frames: what a computation leaves alone                             *)
(* ===================================================================== *)

Section Frames.

Context {X : Type} (f : Store -> X).
Hypothesis f_emit : forall (e : event) (s : Store), f (emit e s) = f s.

Lemma preserves_ret {A} (a : A) : preserves f (ret a).
Proof. intros w s. reflexivity. Qed.

Lemma preserves_raise {A} (e : exn) : preserves f (@raise A e).
Proof. intros w s. reflexivity. Qed.

Lemma preserves_gets {A} (g : Store -> A) : preserves f (gets g).
Proof. intros w s. reflexivity. Qed.

Lemma preserves_lift {A} (r : res A) : preserves f (lift r).
Proof. intros w s. reflexivity. Qed.

Lemma preserves_ask {A} (g : World -> A) : preserves f (ask g).
Proof. intros w s. reflexivity. Qed.

Lemma preserves_modify (g : Store -> Store) :
  (forall s, f (g s) = f s) -> preserves f (modify g).
Proof. intros H w s. apply H. Qed.

Lemma preserves_log (lvl : level) (name msg : string) :
  preserves f (log lvl name msg).
Proof. apply preserves_modify. intros s. apply f_emit. Qed.

Lemma preserves_call (r : request) : preserves f (call r).
Proof. intros w s. unfold call. simpl. apply f_emit. Qed.

Lemma preserves_bind {A B} (m : M A) (k : A -> M B) :
  preserves f m -> (forall a, preserves f (k a)) -> preserves f (bind m k).
Proof.
  intros Hm Hk w s. unfold bind.
  specialize (Hm w s). destruct (m w s) as [[a | e] s1]; simpl in *.
  - rewrite Hk. exact Hm.
  - exact Hm.
Qed.

Lemma preserves_try_except {A} (m : M A) (c : exn -> bool) (h : exn -> M A) :
  preserves f m -> (forall e, preserves f (h e)) ->
  preserves f (try_except m c h).
Proof.
  intros Hm Hh w s. unfold try_except.
  specialize (Hm w s). destruct (m w s) as [[a | e] s1]; simpl in *.
  - exact Hm.
  - destruct (c e); [rewrite Hh |]; exact Hm.
Qed.

Lemma preserves_try_finally {A} (m : M A) (fin : M unit) :
  preserves f m -> preserves f fin -> preserves f (try_finally m fin).
Proof.
  intros Hm Hfin w s. unfold try_finally.
  specialize (Hm w s). destruct (m w s) as [r s1]. simpl in Hm.
  specialize (Hfin w s1). destruct (fin w s1) as [[u | e] s2]; simpl in *;
    congruence.
Qed.

Lemma preserves_when (b : bool) (m : M unit) :
  preserves f m -> preserves f (when b m).
Proof. intros Hm. destruct b; [exact Hm | apply preserves_ret]. Qed.

End Frames.

(** Walks a computation built from the combinators, leaving the updates
    of the store to [reflexivity]. *)
Ltac frame :=
  repeat first
    [ progress intros
    | apply preserves_ret | apply preserves_raise | apply preserves_gets
    | apply preserves_lift | apply preserves_ask
    | apply preserves_log | apply preserves_call
    | apply preserves_when | apply preserves_bind
    | apply preserves_try_except | apply preserves_try_finally
    | apply preserves_modify
    | reflexivity
    | solve [auto]
    | match goal with
      | |- preserves _ (match ?x with _ => _ end) => destruct x
      | |- preserves _ (let '(_, _) := ?x in _) => destruct x
      end ].

Lemma load_filters_frame {X} (f : Store -> X) (sym : string) :
  (forall e s, f (emit e s) = f s) ->
  (forall v s, f (with_symbol_filters v s) = f s) ->
  preserves f (OrderManager._load_filters sym).
Proof.
  intros He Hf. unfold OrderManager._load_filters. frame.
Qed.

Lemma floor_to_frame {X} (f : Store -> X) (unit : PyDecimal.t) (x : float) :
  preserves f (OrderManager.floor_to unit x).
Proof. unfold OrderManager.floor_to. intros w s. unfold bind, lift, ret.
  destruct (PyDecimal.floordiv (PyDecimal.of_float x) unit) as [n |];
    [| reflexivity].
  destruct (PyDecimal.mul n unit); reflexivity.
Qed.

Lemma place_take_profit_frame {X} (f : Store -> X) sym side quantity price :
  (forall e s, f (emit e s) = f s) ->
  (forall v s, f (with_symbol_filters v s) = f s) ->
  preserves f (OrderManager.place_take_profit sym side quantity price).
Proof.
  intros He Hf.
  unfold OrderManager.place_take_profit, OrderManager._round_qty,
    OrderManager._round_price.
  apply preserves_bind.
  - apply preserves_bind;
      [apply load_filters_frame; assumption | intros; apply floor_to_frame].
  - intros qty. apply preserves_bind.
    + apply preserves_bind;
        [apply load_filters_frame; assumption | intros; apply floor_to_frame].
    + intros rounded. destruct (PyFloat.le0 qty); frame.
Qed.

Lemma place_stop_loss_frame {X} (f : Store -> X) sym side quantity price :
  (forall e s, f (emit e s) = f s) ->
  (forall v s, f (with_symbol_filters v s) = f s) ->
  preserves f (OrderManager.place_stop_loss sym side quantity price).
Proof.
  intros He Hf.
  unfold OrderManager.place_stop_loss, OrderManager._round_qty,
    OrderManager._round_price.
  apply preserves_bind.
  - apply preserves_bind;
      [apply load_filters_frame; assumption | intros; apply floor_to_frame].
  - intros qty. apply preserves_bind.
    + apply preserves_bind;
        [apply load_filters_frame; assumption | intros; apply floor_to_frame].
    + intros rounded. destruct (PyFloat.le0 qty); frame.
Qed.

Lemma cancel_outstanding_position (reason : string) :
  preserves position (TpSlManager._cancel_outstanding reason).
Proof. unfold TpSlManager._cancel_outstanding, OrderManager.cancel_order. frame. Qed.

Lemma place_protection_position (p : Position.t) :
  preserves position (TpSlManager._place_protection p).
Proof.
  unfold TpSlManager._place_protection.
  destruct (TpSlManager._compute_prices _ _) as [tp_price sl_price].
  apply preserves_try_except.
  - apply preserves_bind; [apply place_take_profit_frame; reflexivity |].
    intros tp_order. destruct (TpSlManager.truthy_id (orderId tp_order));
      [| apply preserves_raise].
    apply preserves_bind; [frame |]. intros _.
    apply preserves_bind; [apply place_stop_loss_frame; reflexivity |].
    intros sl_order. destruct (TpSlManager.truthy_id (orderId sl_order)); frame.
  - intros e. apply preserves_bind; [frame |]. intros _.
    apply preserves_bind; [apply cancel_outstanding_position |]. frame.
Qed.

(* ===================================================================== *)
(** * TP/SL protection                                                    *)
(* ===================================================================== *)

(** What [_fetch_remote_position] does, for every store and answer. *)
Lemma fetch_remote_position_run (w : World) (s : Store) :
  TpSlManager._fetch_remote_position w s =
  match get_account_info w (trace s) with
  | Ok info =>
      match PositionTracker.find_remote (symbol s) (positions info) with
      | Some remote =>
          (Ok (Some remote),
           emit (Log INFO "PositionTracker" "Position set")
             (with_position (Some remote) (emit (Req GetAccountInfo) s)))
      | None => (Ok None, with_is_protected false (emit (Req GetAccountInfo) s))
      end
  | Raise e =>
      if catches_BinanceAPIError e
      then (Ok (position s),
            emit (Log ERROR "TpSlManager" "Failed to fetch account info for TP/SL sync")
              (emit (Req GetAccountInfo) s))
      else (Raise e, emit (Req GetAccountInfo) s)
  end.
Proof.
  unfold TpSlManager._fetch_remote_position, PositionTracker.set_position,
    try_except, bind, call, ret, log, modify, gets. simpl.
  destruct (get_account_info w (trace s)) as [info | e]; simpl.
  - destruct (PositionTracker.find_remote (symbol s) (positions info));
      reflexivity.
  - destruct e; reflexivity.
Qed.

(** A manager that holds no order id cancels nothing. *)
Lemma cancel_outstanding_idle (reason : string) (w : World) (s : Store) :
  tp_order_id s = None -> sl_order_id s = None ->
  TpSlManager._cancel_outstanding reason w s =
  (Ok tt, with_is_protected false (with_sl_order_id None (with_tp_order_id None s))).
Proof.
  intros Htp Hsl.
  unfold TpSlManager._cancel_outstanding, bind, gets, ret, modify. simpl.
  rewrite Htp. simpl. rewrite Hsl. reflexivity.
Qed.

(** When [_cancel_outstanding] returns, no order id is held and the flag
    is down. *)
Lemma cancel_outstanding_clears (reason : string) (w : World) (s : Store) :
  fst (TpSlManager._cancel_outstanding reason w s) = Ok tt ->
  let s' := snd (TpSlManager._cancel_outstanding reason w s) in
  tp_order_id s' = None /\ sl_order_id s' = None /\ is_protected s' = false.
Proof.
  unfold TpSlManager._cancel_outstanding, OrderManager.cancel_order,
    try_except, bind, gets, call, log, ret, modify. simpl.
  destruct (TpSlManager.truthy_id (tp_order_id s)) as [tp |]; simpl.
  - destruct (cancel_order w (trace s) (symbol s) tp) as [[] | e]; simpl;
      [| destruct e; simpl; try discriminate];
      (destruct (TpSlManager.truthy_id (sl_order_id s)) as [sl |]; simpl;
       [ match goal with
         | |- context [cancel_order w ?h ?a ?b] =>
             destruct (cancel_order w h a b) as [[] | e']; simpl;
             [| destruct e'; simpl; try discriminate]
         end | ]);
      intros _; repeat split; reflexivity.
  - destruct (TpSlManager.truthy_id (sl_order_id s)) as [sl |]; simpl;
      [ destruct (cancel_order w (trace s) (symbol s) sl) as [[] | e']; simpl;
        [| destruct e'; simpl; try discriminate] | ];
      intros _; repeat split; reflexivity.
Qed.

Lemma clear_position_run (w : World) (s : Store) :
  PositionTracker.clear_position w s =
  (Ok tt,
   with_position None
     match position s with
     | Some _ => emit (Log INFO "PositionTracker" "Clearing local position") s
     | None => s
     end).
Proof.
  unfold PositionTracker.clear_position, bind, gets, when, log, modify, ret.
  destruct (position s); reflexivity.
Qed.

(** [sync], step by step. *)
Lemma sync_run (w : World) (s : Store) :
  TpSlManager.sync w s =
  match TpSlManager._fetch_remote_position w s with
  | (Ok (Some p), s1) =>
      if is_protected s1 then (Ok tt, s1)
      else
        match TpSlManager._cancel_outstanding "Placing initial protection" w s1 with
        | (Ok _, s2) =>
            match TpSlManager._place_protection p w s2 with
            | (Ok _, s3) => (Ok tt, with_is_protected true s3)
            | (Raise e, s3) => (Raise e, s3)
            end
        | (Raise e, s2) => (Raise e, s2)
        end
  | (Ok None, s1) =>
      match TpSlManager._cancel_outstanding "Position closed on exchange" w s1 with
      | (Ok _, s2) =>
          (Ok tt, with_is_protected false (snd (PositionTracker.clear_position w s2)))
      | (Raise e, s2) => (Raise e, s2)
      end
  | (Raise e, s1) => (Raise e, s1)
  end.
Proof.
  unfold TpSlManager.sync. unfold bind at 1.
  destruct (TpSlManager._fetch_remote_position w s) as [[[p |] | e] s1];
    [| | reflexivity].
  - unfold bind at 1. unfold gets at 1.
    destruct (is_protected s1); simpl; [reflexivity |].
    unfold bind at 1.
    destruct (TpSlManager._cancel_outstanding _ w s1) as [[u | e] s2];
      [| reflexivity].
    unfold bind at 1.
    destruct (TpSlManager._place_protection p w s2) as [[u' | e] s3];
      reflexivity.
  - unfold bind at 1.
    destruct (TpSlManager._cancel_outstanding _ w s1) as [[u | e] s2];
      [| reflexivity].
    unfold bind at 1. rewrite clear_position_run. reflexivity.
Qed.

(** Every [sync] that returns leaves the manager [between_syncs], and
    [main] starts it there. *)
Lemma sync_between_syncs (w : World) (s : Store) :
  fst (TpSlManager.sync w s) = Ok tt -> between_syncs (snd (TpSlManager.sync w s)).
Proof.
  rewrite sync_run.
  destruct (TpSlManager._fetch_remote_position w s) as [[[p |] | e] s1].
  - destruct (is_protected s1) eqn:Hprot.
    + intros _ Hoff. simpl in Hoff. congruence.
    + destruct (TpSlManager._cancel_outstanding _ w s1) as [[u | e] s2];
        [| discriminate].
      destruct (TpSlManager._place_protection p w s2) as [[u' | e] s3];
        [| discriminate].
      intros _ Hoff. discriminate Hoff.
  - pose proof (cancel_outstanding_clears "Position closed on exchange" w s1) as Hc.
    destruct (TpSlManager._cancel_outstanding _ w s1) as [[[] | e] s2];
      [| discriminate].
    destruct (Hc eq_refl) as [Htp [Hsl _]]. simpl in Htp, Hsl.
    intros _ _. rewrite clear_position_run.
    destruct (position s2); simpl; split; assumption.
  - discriminate.
Qed.

Lemma boot_between_syncs (sym : string) (utcnow_ms : Z) (s : Store) :
  boot sym utcnow_ms = Ok s -> between_syncs s.
Proof.
  unfold boot. destruct (TradeLimits.init utcnow_ms); simpl; [| discriminate].
  intros H. injection H as <-. intros _. split; reflexivity.
Qed.

(** Whenever [sync] returns with a position still tracked, the manager is
    flagged protected, whether or not the two orders were placed. *)
Lemma sync_flags_tracked_position (w : World) (s : Store) :
  fst (TpSlManager.sync w s) = Ok tt ->
  position (snd (TpSlManager.sync w s)) <> None ->
  is_protected (snd (TpSlManager.sync w s)) = true.
Proof.
  rewrite sync_run.
  destruct (TpSlManager._fetch_remote_position w s) as [[[p |] | e] s1].
  - destruct (is_protected s1) eqn:Hprot.
    + intros _ _. exact Hprot.
    + destruct (TpSlManager._cancel_outstanding _ w s1) as [[u | e] s2];
        [| discriminate].
      destruct (TpSlManager._place_protection p w s2) as [[u' | e] s3];
        [| discriminate].
      reflexivity.
  - destruct (TpSlManager._cancel_outstanding _ w s1) as [[u | e] s2];
      [| discriminate].
    intros _ Hpos. exfalso. apply Hpos.
    rewrite clear_position_run. reflexivity.
  - discriminate.
Qed.

(** C1 fails on the code: the exchange holds a long position of 1.5 at
    100.0, the take-profit order is accepted with id 11 and the stop-loss
    order is rejected. [_place_protection] cancels order 11, clears both
    ids and lowers the flag; [sync] then raises the flag all the same. The
    manager ends flagged protected with no order id, and no order on the
    exchange. *)
Theorem sync_flags_failed_placement_protected :
  let w := Sample.world (Ok (Sample.account 1.5 100)) (Ok (Payload []))
             (Ok (Sample.order 11)) (Raise BinanceAPIError) (Ok tt) in
  let r := TpSlManager.sync w Sample.store0 in
  fst r = Ok tt /\
  is_protected (snd r) = true /\
  tp_order_id (snd r) = None /\
  sl_order_id (snd r) = None /\
  order_requests (trace (snd r))
  = [Req (PlaceTakeProfit Sample.BTCUSDT SELL 1.5 101);
     Req (PlaceStopLoss Sample.BTCUSDT SELL 1.5 99);
     Req (CancelOrder Sample.BTCUSDT 11)].
Proof. vm_compute. repeat split; reflexivity. Qed.

(** C5: in the PROTECTED state, when the exchange reports an open position
    for the symbol, [sync()] places no order and cancels none, and changes
    nothing in the manager; the tracker holds the reported position
    afterwards, so when it already held it (as after a first [sync]) the
    whole local state is what it was. *)
Theorem sync_idempotent_when_protected (w : World) (s : Store)
    (info : AccountInfo) (p : Position.t) :
  is_protected s = true ->
  get_account_info w (trace s) = Ok info ->
  PositionTracker.find_remote (symbol s) (positions info) = Some p ->
  let r := TpSlManager.sync w s in
  fst r = Ok tt /\
  order_requests (new_events s (snd r)) = [] /\
  forget_trace (snd r) = forget_trace (with_position (Some p) s) /\
  (position s = Some p -> forget_trace (snd r) = forget_trace s).
Proof.
  intros Hprot Hinfo Hremote r. subst r.
  rewrite sync_run, fetch_remote_position_run, Hinfo, Hremote. simpl.
  rewrite Hprot. simpl.
  split; [reflexivity | split; [| split]].
  - rewrite (@new_events_app s _
               [Req GetAccountInfo; Log INFO "PositionTracker" "Position set"]).
    + reflexivity.
    + simpl. rewrite <- app_assoc. reflexivity.
  - reflexivity.
  - intros Hpos. unfold forget_trace. simpl. rewrite Hpos. reflexivity.
Qed.

(** A first [sync] protects the position; the theorem then applies to the
    second. *)
Lemma sync_idempotent_when_protected_witness :
  let w := Sample.world (Ok (Sample.account 1.5 100)) (Ok (Payload []))
             (Ok (Sample.order 11)) (Ok (Sample.order 12)) (Ok tt) in
  let s1 := snd (TpSlManager.sync w Sample.store0) in
  let r := TpSlManager.sync w s1 in
  (tp_order_id s1 = Some 11%Z /\ sl_order_id s1 = Some 12%Z) /\
  fst r = Ok tt /\
  order_requests (new_events s1 (snd r)) = [] /\
  forget_trace (snd r) = forget_trace s1.
Proof.
  intros w s1 r.
  split; [split; reflexivity |].
  destruct (@sync_idempotent_when_protected w s1 (Sample.account 1.5 100)
              (Sample.long 1.5) eq_refl eq_refl eq_refl)
    as [Hok [Hnone [_ Hsame]]].
  split; [exact Hok | split; [exact Hnone | apply Hsame; reflexivity]].
Defined.

(** C10: when the account query of [sync] fails with [BinanceAPIError]
    and the tracker holds a position, [_fetch_remote_position] returns that
    local position instead of "no position". For a manager as it stands
    between two syncs of the main loop, [sync] then never clears the local
    position and cancels none of the orders the manager holds; a protected
    manager is left exactly as it was, with no order placed or cancelled. *)
Theorem sync_survives_api_outage (w : World) (s : Store) (p : Position.t) :
  get_account_info w (trace s) = Raise BinanceAPIError ->
  position s = Some p ->
  between_syncs s ->
  let r := TpSlManager.sync w s in
  fst (TpSlManager._fetch_remote_position w s) = Ok (Some p) /\
  position (snd r) = Some p /\
  (forall id : Z,
      In id (outstanding_ids s) ->
      ~ In id (cancelled_ids (new_events s (snd r)))) /\
  (is_protected s = true ->
   fst r = Ok tt /\ forget_trace (snd r) = forget_trace s /\
   order_requests (new_events s (snd r)) = []).
Proof.
  intros Hdown Hpos Hinv r. subst r.
  assert (Hfetch :
    TpSlManager._fetch_remote_position w s =
    (Ok (Some p),
     emit (Log ERROR "TpSlManager" "Failed to fetch account info for TP/SL sync")
       (emit (Req GetAccountInfo) s))).
  { rewrite fetch_remote_position_run, Hdown. simpl. rewrite Hpos. reflexivity. }
  assert (Hprotected :
    is_protected s = true ->
    TpSlManager.sync w s =
    (Ok tt,
     emit (Log ERROR "TpSlManager" "Failed to fetch account info for TP/SL sync")
       (emit (Req GetAccountInfo) s))).
  { intros Hp. rewrite sync_run, Hfetch. simpl. rewrite Hp. reflexivity. }
  assert (Hnew :
    is_protected s = true ->
    new_events s (snd (TpSlManager.sync w s)) =
    [Req GetAccountInfo;
     Log ERROR "TpSlManager" "Failed to fetch account info for TP/SL sync"]).
  { intros Hp. rewrite (Hprotected Hp). apply new_events_app.
    simpl. rewrite <- app_assoc. reflexivity. }
  split; [rewrite Hfetch; reflexivity | split; [| split]].
  - rewrite sync_run, Hfetch. simpl.
    destruct (is_protected s) eqn:Hp; [exact Hpos |].
    pose proof (cancel_outstanding_position "Placing initial protection" w
                  (emit (Log ERROR "TpSlManager"
                           "Failed to fetch account info for TP/SL sync")
                     (emit (Req GetAccountInfo) s))) as Hc.
    destruct (TpSlManager._cancel_outstanding _ w _) as [[u | e] s2];
      simpl in Hc; [| simpl; rewrite Hc; exact Hpos].
    pose proof (place_protection_position p w s2) as Hpl.
    destruct (TpSlManager._place_protection p w s2) as [[u' | e] s3];
      simpl in *; congruence.
  - intros id Hin.
    destruct (is_protected s) eqn:Hp.
    + rewrite (Hnew eq_refl). simpl. tauto.
    + destruct (Hinv Hp) as [Htp Hsl].
      unfold outstanding_ids in Hin. rewrite Htp, Hsl in Hin.
      destruct Hin.
  - intros Hp. rewrite (Hnew Hp), (Hprotected Hp).
    repeat split; reflexivity.
Qed.

Lemma sync_survives_api_outage_witness :
  let w := Sample.world (Raise BinanceAPIError) (Ok (Payload []))
             (Ok (Sample.order 11)) (Ok (Sample.order 12)) (Ok tt) in
  let r := TpSlManager.sync w Sample.protected_store in
  let r' := TpSlManager.sync w (Sample.tracking Sample.long_position) in
  between_syncs Sample.protected_store /\
  outstanding_ids Sample.protected_store = [11%Z; 12%Z] /\
  position (snd r) = Some Sample.long_position /\
  forget_trace (snd r) = forget_trace Sample.protected_store /\
  order_requests (new_events Sample.protected_store (snd r)) = [] /\
  position (snd r') = Some Sample.long_position.
Proof.
  intros w r r'.
  assert (Hinv : between_syncs Sample.protected_store)
    by (intros Hoff; discriminate Hoff).
  assert (Hinv' : between_syncs (Sample.tracking Sample.long_position))
    by (intros _; split; reflexivity).
  destruct (@sync_survives_api_outage w Sample.protected_store
              Sample.long_position eq_refl eq_refl Hinv)
    as [_ [Hpos [_ Hprot]]].
  destruct (@sync_survives_api_outage w (Sample.tracking Sample.long_position)
              Sample.long_position eq_refl eq_refl Hinv')
    as [_ [Hpos' _]].
  destruct (Hprot eq_refl) as [_ [Hsame Hnone]].
  split; [exact Hinv | split; [reflexivity | split; [exact Hpos |]]].
  split; [exact Hsame | split; [exact Hnone | exact Hpos']].
Defined.

(* ===================================================================== *)
(** * Market data failures in the main loop                               *)
(* ===================================================================== *)

Lemma normalize_klines_rejects (interval : Interval) (p : KlinesPayload)
    (w : World) (s : Store) :
  data_integrity_failure interval p ->
  MarketDataService._normalize_klines p interval w s = (Raise ValueError, s).
Proof.
  intros [ | | rows Hparse | rows ps Hparse Hseq].
  - reflexivity.
  - reflexivity.
  - destruct rows as [| row rows]; [reflexivity |].
    unfold MarketDataService._normalize_klines, bind, lift.
    rewrite Hparse. reflexivity.
  - destruct rows as [| row rows]; [reflexivity |].
    unfold MarketDataService._normalize_klines, bind, lift.
    rewrite Hparse, Hseq. reflexivity.
Qed.

Lemma fetch_closed_klines_rejects (sym : string) (interval : Interval)
    (limit : Z) (p : KlinesPayload) (w : World) (s : Store) :
  get_klines w (trace s) sym interval limit = Ok p ->
  data_integrity_failure interval p ->
  MarketDataService.fetch_closed_klines sym interval limit w s
  = (Raise ValueError, emit (Req (GetKlines sym interval limit)) s).
Proof.
  intros Hget Hbad.
  unfold MarketDataService.fetch_closed_klines, bind at 1, call. simpl.
  rewrite Hget. unfold bind. rewrite (normalize_klines_rejects _ _ Hbad).
  reflexivity.
Qed.

(** [main] catches [KeyboardInterrupt] only: what a cycle raises otherwise
    ends the loop and leaves [main]. *)
Lemma main_propagates (n : nat) (loc : Main.Locals) (w : World) (s : Store)
    (e : exn) :
  fst (Main.cycle loc w s) = Raise e ->
  catches_KeyboardInterrupt e = false ->
  Main.main (S n) loc w s = (Raise e, snd (Main.cycle loc w s)).
Proof.
  intros Hcycle Hcatch.
  unfold Main.main, try_except. simpl Main.loop. unfold bind at 1.
  destruct (Main.cycle loc w s) as [[loc' | e'] s']; simpl in *;
    [discriminate |].
  injection Hcycle as ->. rewrite Hcatch. reflexivity.
Qed.

Lemma sync_from_exchange_symbol :
  preserves symbol PositionTracker.sync_from_exchange.
Proof. unfold PositionTracker.sync_from_exchange. frame. Qed.

Lemma reset_daily_symbol : preserves symbol KillSwitch.reset_daily.
Proof. unfold KillSwitch.reset_daily. frame. Qed.

Lemma reset_if_needed_total (now_ms : Z) (l : TradeLimits.t)
    (d : Datetime.datetime) :
  Datetime.utcfromtimestamp_ms now_ms = Ok d ->
  exists l', TradeLimits.reset_if_needed now_ms l = Ok l'.
Proof.
  intros Hd. unfold TradeLimits.reset_if_needed. rewrite Hd. simpl.
  eexists. reflexivity.
Qed.

Section Emissions.

Variable P : event -> Prop.

Lemma emits_nothing {A} (m : M A) :
  (forall w s, trace (snd (m w s)) = trace s) -> emits P m.
Proof.
  intros H w s. exists []. rewrite app_nil_r. split; [apply H | constructor].
Qed.

Lemma emits_ret {A} (a : A) : emits P (ret a).
Proof. apply emits_nothing. reflexivity. Qed.

Lemma emits_raise {A} (e : exn) : emits P (@raise A e).
Proof. apply emits_nothing. reflexivity. Qed.

Lemma emits_gets {A} (g : Store -> A) : emits P (gets g).
Proof. apply emits_nothing. reflexivity. Qed.

Lemma emits_lift {A} (r : res A) : emits P (lift r).
Proof. apply emits_nothing. reflexivity. Qed.

Lemma emits_ask {A} (g : World -> A) : emits P (ask g).
Proof. apply emits_nothing. reflexivity. Qed.

Lemma emits_modify (g : Store -> Store) :
  (forall s, trace (g s) = trace s) -> emits P (modify g).
Proof. intros H. apply emits_nothing. intros w s. apply H. Qed.

Lemma emits_log (lvl : level) (name msg : string) :
  P (Log lvl name msg) -> emits P (log lvl name msg).
Proof.
  intros H w s. exists [Log lvl name msg]. split; [reflexivity |].
  constructor; [exact H | constructor].
Qed.

Lemma emits_call (r : request) : P (Req r) -> emits P (call r).
Proof.
  intros H w s. exists [Req r]. split; [reflexivity |].
  constructor; [exact H | constructor].
Qed.

Lemma emits_bind {A B} (m : M A) (k : A -> M B) :
  emits P m -> (forall a, emits P (k a)) -> emits P (bind m k).
Proof.
  intros Hm Hk w s. unfold bind.
  destruct (Hm w s) as [evs [Ht Hp]].
  destruct (m w s) as [[a | e] s1]; simpl in *.
  - destruct (Hk a w s1) as [evs' [Ht' Hp']].
    exists (evs ++ evs'). rewrite Ht', Ht, app_assoc.
    split; [reflexivity | apply Forall_app; split; assumption].
  - exists evs. split; assumption.
Qed.

Lemma emits_try_except {A} (m : M A) (c : exn -> bool) (h : exn -> M A) :
  emits P m -> (forall e, emits P (h e)) -> emits P (try_except m c h).
Proof.
  intros Hm Hh w s. unfold try_except.
  destruct (Hm w s) as [evs [Ht Hp]].
  destruct (m w s) as [[a | e] s1]; simpl in *.
  - exists evs. split; assumption.
  - destruct (c e).
    + destruct (Hh e w s1) as [evs' [Ht' Hp']].
      exists (evs ++ evs'). rewrite Ht', Ht, app_assoc.
      split; [reflexivity | apply Forall_app; split; assumption].
    + exists evs. split; assumption.
Qed.

Lemma emits_try_finally {A} (m : M A) (fin : M unit) :
  emits P m -> emits P fin -> emits P (try_finally m fin).
Proof.
  intros Hm Hfin w s. unfold try_finally.
  destruct (Hm w s) as [evs [Ht Hp]].
  destruct (m w s) as [r s1]. simpl in Ht.
  destruct (Hfin w s1) as [evs' [Ht' Hp']].
  exists (evs ++ evs').
  destruct (fin w s1) as [[u | e] s2]; simpl in *;
    rewrite Ht', Ht, app_assoc;
    (split; [reflexivity | apply Forall_app; split; assumption]).
Qed.

Lemma emits_when (b : bool) (m : M unit) : emits P m -> emits P (when b m).
Proof. intros Hm. destruct b; [exact Hm | apply emits_ret]. Qed.

End Emissions.

(** Walks a computation as [frame] does, for what it adds to the trace. *)
Ltac traces :=
  repeat first
    [ progress intros
    | apply emits_ret | apply emits_raise | apply emits_gets
    | apply emits_lift | apply emits_ask
    | apply emits_when | apply emits_bind
    | apply emits_try_except | apply emits_try_finally
    | apply emits_modify; reflexivity
    | apply emits_log | apply emits_call
    | match goal with
      | |- emits _ (match ?x with _ => _ end) => destruct x
      | |- emits _ (let '(_, _) := ?x in _) => destruct x
      end ].

Lemma sync_from_exchange_quiet :
  emits not_sleep PositionTracker.sync_from_exchange.
Proof. unfold PositionTracker.sync_from_exchange. traces; discriminate. Qed.

Lemma reset_daily_quiet : emits not_sleep KillSwitch.reset_daily.
Proof. unfold KillSwitch.reset_daily. traces; discriminate. Qed.

Lemma reset_daily_returns (b : bool) (w : World) (s : Store) :
  fst (when b KillSwitch.reset_daily w s) = Ok tt.
Proof.
  destruct b; [| reflexivity].
  unfold when, KillSwitch.reset_daily, bind, gets, when, log, modify, ret.
  destruct (is_trading_allowed s); reflexivity.
Qed.

(** With the exchange answering the account query and the clock a date,
    a data-integrity failure in the 1m klines makes the first cycle raise
    [ValueError], and [main] with it: the process ends without having
    reached the sleep that precedes a next cycle. *)
Lemma main_dies_on_bad_klines (n : nat) (loc : Main.Locals) (w : World)
    (s : Store) :
  (forall h, exists info, get_account_info w h = Ok info) ->
  (forall h, exists d, Datetime.utcfromtimestamp_ms (time_ms w h) = Ok d) ->
  (forall h, exists p,
      get_klines w h (symbol s) I1m Settings.KLINES_LIMIT = Ok p /\
      data_integrity_failure I1m p) ->
  fst (Main.main (S n) loc w s) = Raise ValueError /\
  Forall not_sleep (new_events s (snd (Main.main (S n) loc w s))).
Proof.
  intros Hacct Hclock Hklines.
  assert (Hcycle : exists s2,
    Main.cycle loc w s
    = (Raise ValueError,
       emit (Req (GetKlines (symbol s) I1m Settings.KLINES_LIMIT)) s2)
    /\ (exists evs, trace s2 = trace s ++ evs /\ Forall not_sleep evs)).
  { unfold Main.cycle. unfold bind at 1. unfold try_except, bind at 1.
    pose proof (sync_from_exchange_run w s) as Hrun. cbv zeta in Hrun.
    pose proof (sync_from_exchange_symbol w s) as Hsym.
    destruct (sync_from_exchange_quiet w s) as [evs1 [Ht1 Hq1]].
    destruct (Hacct (trace s)) as [info Hinfo]. rewrite Hinfo in Hrun.
    destruct Hrun as [Hok _].
    destruct (PositionTracker.sync_from_exchange w s) as [[[] | e] s1];
      simpl in Hok, Hsym, Ht1; [| discriminate]. clear Hok.
    unfold ret at 1. cbn [negb].
    unfold bind at 1. unfold clock_ms at 1.
    destruct (Hclock (trace s1)) as [d Hd].
    destruct (reset_if_needed_total _ (limits s1) Hd) as [l1 Hl1].
    unfold bind at 1. unfold gets at 1.
    unfold bind at 1. unfold lift at 1. rewrite Hl1.
    unfold bind at 1. unfold modify at 1.
    unfold bind at 1. unfold gets at 1.
    unfold bind at 1.
    set (b := negb (TradeLimits.limits_exceeded l1)
              && negb (is_trading_allowed (with_limits l1 s1))).
    pose proof (reset_daily_returns b w (with_limits l1 s1)) as Hret.
    assert (Hsym2 : symbol (snd (when b KillSwitch.reset_daily w (with_limits l1 s1)))
                    = symbol (with_limits l1 s1)).
    { apply preserves_when; first [apply reset_daily_symbol | reflexivity]. }
    assert (Hquiet2 : emits not_sleep (when b KillSwitch.reset_daily)).
    { apply emits_when. apply reset_daily_quiet. }
    destruct (Hquiet2 w (with_limits l1 s1)) as [evs2 [Ht2 Hq2]].
    destruct (when b KillSwitch.reset_daily w (with_limits l1 s1))
      as [[[] | e] s2]; simpl in Hret, Hsym2, Ht2; [| discriminate].
    unfold bind at 1. unfold gets at 1. unfold bind at 1.
    destruct (Hklines (trace s2)) as [p [Hp Hbad]].
    assert (Hs2 : symbol s2 = symbol s) by congruence.
    rewrite Hs2.
    rewrite (@fetch_closed_klines_rejects (symbol s) I1m Settings.KLINES_LIMIT
               p w s2 Hp Hbad).
    exists s2. split; [reflexivity |].
    exists (evs1 ++ evs2). rewrite Ht2, Ht1, app_assoc.
    split; [reflexivity | apply Forall_app; split; assumption]. }
  destruct Hcycle as [s2 [Hcycle [evs [Hevs Hquiet]]]].
  assert (Hmain : Main.main (S n) loc w s
                  = (Raise ValueError,
                     emit (Req (GetKlines (symbol s) I1m Settings.KLINES_LIMIT)) s2)).
  { rewrite (@main_propagates n loc w s ValueError).
    - rewrite Hcycle. reflexivity.
    - rewrite Hcycle. reflexivity.
    - reflexivity. }
  rewrite Hmain. split; [reflexivity |].
  rewrite (@new_events_app s _
             (evs ++ [Req (GetKlines (symbol s) I1m Settings.KLINES_LIMIT)])).
  - apply Forall_app. split; [exact Hquiet |].
    constructor; [discriminate | constructor].
  - simpl. rewrite Hevs, app_assoc. reflexivity.
Qed.

(** C2 fails on the code: with a klines response that is empty, not a
    list, made of a malformed row, or made of two rows two minutes apart,
    the first cycle of [main] raises [ValueError] out of [main]. The trace
    ends at the klines request: nothing is logged and no sleep towards a
    next cycle is reached. *)
Theorem main_dies_on_data_integrity_failure :
  let run := fun klines =>
    Main.main 3 Sample.locals0
      (Sample.world (Ok Sample.flat_account) (Ok klines)
         (Ok (Sample.order 11)) (Ok (Sample.order 12)) (Ok tt))
      Sample.store0 in
  map (fun klines => (fst (run klines), trace (snd (run klines))))
    [ Payload [];
      PayloadNotList;
      Payload [RowNotList];
      Payload [Sample.row 0; Sample.row 120000] ]
  = repeat
      (Raise ValueError,
       [Req GetAccountInfo; Req (GetKlines Sample.BTCUSDT I1m 200)]) 4.
Proof. vm_compute. reflexivity. Qed.

(* ===================================================================== *)
(** * The TP/SL manager in the main loop                                  *)
(* ===================================================================== *)

Lemma preserves_clock {X} (f : Store -> X) : preserves f clock_ms.
Proof. intros w s. reflexivity. Qed.

Lemma preserves_sleep {X} (f : Store -> X) :
  (forall e s, f (emit e s) = f s) -> preserves f Main._sleep_until_next_minute.
Proof. intros He w s. unfold Main._sleep_until_next_minute. simpl. apply He. Qed.

(** Only [TpSlManager.sync] writes the attributes of the manager. *)
Lemma sync_from_exchange_manager :
  preserves manager_fields PositionTracker.sync_from_exchange.
Proof. unfold PositionTracker.sync_from_exchange. frame. Qed.

Lemma fetch_closed_klines_manager (sym : string) (i : Interval) (limit : Z) :
  preserves manager_fields (MarketDataService.fetch_closed_klines sym i limit).
Proof.
  unfold MarketDataService.fetch_closed_klines,
    MarketDataService._normalize_klines.
  repeat first [apply preserves_clock | progress frame].
Qed.

Lemma place_market_order_manager (sym : string) (side : OrderSide) (q : float) :
  preserves manager_fields (OrderManager.place_market_order sym side q).
Proof.
  unfold OrderManager.place_market_order, OrderManager._round_qty.
  apply preserves_bind.
  - apply preserves_bind;
      [apply load_filters_frame; reflexivity | intros; apply floor_to_frame].
  - intros qty. destruct (PyFloat.le0 qty); frame.
Qed.

Lemma process_manager (md : MarketData) :
  preserves manager_fields (EntryExecutor.process md).
Proof.
  unfold EntryExecutor.process, EntryExecutor.attempt_entry,
    BinanceClient.get_available_balance, PositionTracker.has_open_position,
    PositionTracker.set_position, OrderManager.fetch_fills.
  repeat first
    [ apply sync_from_exchange_manager
    | apply place_market_order_manager
    | progress frame ].
Qed.

Lemma evaluate_manager (l : TradeLimits.t) :
  preserves manager_fields (KillSwitch.evaluate l).
Proof. unfold KillSwitch.evaluate. frame. Qed.

Lemma reset_daily_manager : preserves manager_fields KillSwitch.reset_daily.
Proof. unfold KillSwitch.reset_daily. frame. Qed.

Lemma keeps_of_preserves {A} (m : M A) :
  preserves manager_fields m -> keeps_between_syncs m.
Proof.
  intros Hm w s a Hinv _ Hoff.
  specialize (Hm w s). unfold manager_fields in Hm.
  injection Hm as Htp Hsl Hprot.
  rewrite Htp, Hsl. apply Hinv. congruence.
Qed.

Lemma keeps_bind {A B} (m : M A) (k : A -> M B) :
  keeps_between_syncs m -> (forall a, keeps_between_syncs (k a)) ->
  keeps_between_syncs (bind m k).
Proof.
  intros Hm Hk w s b Hinv. unfold bind.
  specialize (Hm w s). destruct (m w s) as [[a | e] s1]; simpl in *.
  - intros Hok. apply (Hk a w s1 b); [apply (Hm a Hinv eq_refl) | exact Hok].
  - discriminate.
Qed.

Lemma keeps_sync : keeps_between_syncs TpSlManager.sync.
Proof. intros w s [] _ Hok. apply sync_between_syncs. exact Hok. Qed.

(** A cycle of [main] that returns hands a manager [between_syncs] to the
    next one. *)
Lemma cycle_keeps_between_syncs (loc : Main.Locals) :
  keeps_between_syncs (Main.cycle loc).
Proof.
  unfold Main.cycle.
  apply keeps_bind.
  { apply keeps_of_preserves. unfold Main.notify_error.
    repeat first [ apply sync_from_exchange_manager | apply preserves_sleep
                 | progress frame ]. }
  intros synced. destruct synced; simpl negb; cbv iota;
    [| apply keeps_of_preserves; frame].
  apply keeps_bind; [apply keeps_of_preserves; apply preserves_clock |].
  intros now_ms.
  apply keeps_bind; [apply keeps_of_preserves; frame |]. intros l.
  apply keeps_bind; [apply keeps_of_preserves; frame |]. intros l1.
  apply keeps_bind; [apply keeps_of_preserves; frame |]. intros _.
  apply keeps_bind; [apply keeps_of_preserves; frame |]. intros allowed.
  apply keeps_bind.
  { apply keeps_of_preserves. apply preserves_when;
      first [apply reset_daily_manager | reflexivity]. }
  intros _.
  apply keeps_bind; [apply keeps_of_preserves; frame |]. intros sym.
  apply keeps_bind;
    [apply keeps_of_preserves; apply fetch_closed_klines_manager |].
  intros candles_1m.
  apply keeps_bind;
    [apply keeps_of_preserves; apply fetch_closed_klines_manager |].
  intros candles_5m.
  assert (Hskip : keeps_between_syncs
            (bind (log INFO "Main" "Skipping cycle; candles not ready")
               (fun _ => bind Main._sleep_until_next_minute (fun _ => ret loc)))).
  { apply keeps_of_preserves.
    repeat first [apply preserves_sleep | progress frame]. }
  destruct candles_1m as [c1 |]; [| exact Hskip].
  destruct candles_5m as [c5 |]; [| exact Hskip].
  apply keeps_bind; [apply keeps_of_preserves; frame |]. intros allowed'.
  apply keeps_bind.
  { apply keeps_of_preserves. destruct allowed';
      [apply process_manager | frame]. }
  intros _.
  apply keeps_bind; [apply keeps_sync |]. intros _.
  apply keeps_of_preserves.
  unfold PositionTracker.has_open_position, Pnl.realized_pnl_since,
    Pnl.funding_pnl_since, Main.notify_warning.
  repeat first
    [ apply preserves_sleep | apply evaluate_manager | progress frame ].
Qed.

Lemma loop_keeps_between_syncs (n : nat) (loc : Main.Locals) :
  keeps_between_syncs (Main.loop n loc).
Proof.
  revert loc. induction n as [| n IH]; intros loc; simpl.
  - apply keeps_of_preserves. frame.
  - apply keeps_bind; [apply cycle_keeps_between_syncs | intros loc'; apply IH].
Qed.

(* ===================================================================== *)
(** * Hour keys and trade counts                                          *)
(* ===================================================================== *)

Section CalendarFacts.

Local Open Scope Z_scope.

(** [_ord2ymd] and [_days_before_year] are inverse: the year and the day
    of the year give the ordinal back. *)
Lemma ord2ymd_inverse (ordinal : Z) :
  _days_before_year (fst (Datetime._ord2ymd ordinal))
  + snd (Datetime._ord2ymd ordinal) = ordinal.
Proof.
  unfold Datetime._ord2ymd, _days_before_year, Datetime._DI400Y,
    Datetime._DI100Y, Datetime._DI4Y.
  cbv zeta.
  destruct (((ordinal - 1) mod 146097 mod 36524 mod 1461 / 365 =? 4)
            || ((ordinal - 1) mod 146097 / 36524 =? 4)) eqn:E; cbn [fst snd].
  - apply orb_true_iff in E. rewrite !Z.eqb_eq in E.
    Z.div_mod_to_equations. lia.
  - apply orb_false_iff in E. rewrite !Z.eqb_neq in E.
    Z.div_mod_to_equations. lia.
Qed.

Lemma ord2ymd_ranges (ordinal : Z) :
  1 <= snd (Datetime._ord2ymd ordinal) <= 366.
Proof.
  unfold Datetime._ord2ymd, Datetime._DI400Y, Datetime._DI100Y, Datetime._DI4Y.
  cbv zeta.
  destruct (_ || _); cbn [fst snd]; [lia |].
  Z.div_mod_to_equations. lia.
Qed.

Lemma utcfromtimestamp_fields (t : Z) (d : Datetime.datetime) :
  Datetime.utcfromtimestamp_ms t = Ok d ->
  Datetime.date d = t / Datetime.MS_PER_DAY + Datetime.EPOCH_ORDINAL /\
  (Datetime.year d, Datetime.tm_yday d) = Datetime._ord2ymd (Datetime.date d) /\
  Datetime.hour d = t mod Datetime.MS_PER_DAY / Datetime.MS_PER_HOUR /\
  1 <= Datetime.year d <= 9999 /\
  1 <= Datetime.tm_yday d <= 366 /\
  0 <= Datetime.hour d <= 23.
Proof.
  unfold Datetime.utcfromtimestamp_ms.
  pose proof (ord2ymd_ranges (t / Datetime.MS_PER_DAY + Datetime.EPOCH_ORDINAL))
    as Hr.
  destruct (Datetime._ord2ymd _) as [y yd] eqn:E. simpl in Hr.
  destruct ((1 <=? y) && (y <=? 9999)) eqn:Hy; [| discriminate].
  intros H. injection H as <-. cbn.
  apply andb_true_iff in Hy. rewrite !Z.leb_le in Hy.
  repeat split; try lia; try (symmetry; exact E);
    unfold Datetime.MS_PER_DAY, Datetime.MS_PER_HOUR;
    Z.div_mod_to_equations; lia.
Qed.

Lemma hour_index (t : Z) :
  t / Datetime.MS_PER_HOUR
  = t / Datetime.MS_PER_DAY * 24
    + t mod Datetime.MS_PER_DAY / Datetime.MS_PER_HOUR.
Proof.
  unfold Datetime.MS_PER_DAY, Datetime.MS_PER_HOUR.
  Z.div_mod_to_equations. lia.
Qed.

Lemma same_hour_same_day (t1 t2 : Z) :
  t1 / Datetime.MS_PER_HOUR = t2 / Datetime.MS_PER_HOUR ->
  t1 / Datetime.MS_PER_DAY = t2 / Datetime.MS_PER_DAY.
Proof.
  unfold Datetime.MS_PER_DAY, Datetime.MS_PER_HOUR.
  intros H. Z.div_mod_to_equations. lia.
Qed.

(** The key year * 10000 + yday * 24 + hour is the same for two
    timestamps exactly when they fall in the same hour since the epoch. *)
Lemma hour_key_injective (t1 t2 : Z) (d1 d2 : Datetime.datetime) :
  Datetime.utcfromtimestamp_ms t1 = Ok d1 ->
  Datetime.utcfromtimestamp_ms t2 = Ok d2 ->
  (TradeLimits._hour_key d1 = TradeLimits._hour_key d2
   <-> t1 / Datetime.MS_PER_HOUR = t2 / Datetime.MS_PER_HOUR).
Proof.
  intros H1 H2.
  destruct (utcfromtimestamp_fields t1 H1) as [Hd1 [Hy1 [Hh1 [Ry1 [Rd1 Rh1]]]]].
  destruct (utcfromtimestamp_fields t2 H2) as [Hd2 [Hy2 [Hh2 [Ry2 [Rd2 Rh2]]]]].
  pose proof (ord2ymd_inverse (Datetime.date d1)) as I1.
  pose proof (ord2ymd_inverse (Datetime.date d2)) as I2.
  rewrite <- Hy1 in I1. rewrite <- Hy2 in I2. cbn [fst snd] in I1, I2.
  rewrite (hour_index t1), (hour_index t2), <- Hh1, <- Hh2.
  assert (D1 : t1 / Datetime.MS_PER_DAY
               = Datetime.date d1 - Datetime.EPOCH_ORDINAL) by lia.
  assert (D2 : t2 / Datetime.MS_PER_DAY
               = Datetime.date d2 - Datetime.EPOCH_ORDINAL) by lia.
  rewrite D1, D2. clear Hd1 Hd2 Hh1 Hh2 D1 D2 H1 H2.
  unfold TradeLimits._hour_key. split.
  - intros Hk.
    assert (Ey : Datetime.year d1 = Datetime.year d2) by lia.
    assert (Ed : Datetime.tm_yday d1 = Datetime.tm_yday d2) by lia.
    assert (Eh : Datetime.hour d1 = Datetime.hour d2) by lia.
    rewrite Ey, Ed in I1. rewrite Eh. congruence.
  - intros Hh.
    assert (Ed : Datetime.date d1 = Datetime.date d2) by lia.
    assert (Eh : Datetime.hour d1 = Datetime.hour d2) by lia.
    assert (Hp : (Datetime.year d1, Datetime.tm_yday d1)
                 = (Datetime.year d2, Datetime.tm_yday d2)) by congruence.
    injection Hp as Ey Eyd. rewrite Ey, Eyd, Eh. reflexivity.
Qed.

(** X1: [_hour_key] is collision-free. Two timestamps that are dates get
    the same hour key exactly when they fall in the same UTC hour (the same
    hour since the epoch), so the key year * 10000 + yday * 24 + hour never
    merges two hours and never splits one. *)
Theorem hour_key_same_hour (t1 t2 : Z) (d1 d2 : Datetime.datetime) :
  Datetime.utcfromtimestamp_ms t1 = Ok d1 ->
  Datetime.utcfromtimestamp_ms t2 = Ok d2 ->
  (TradeLimits._hour_key d1 = TradeLimits._hour_key d2
   <-> t1 / Datetime.MS_PER_HOUR = t2 / Datetime.MS_PER_HOUR).
Proof. intros H1 H2. exact (hour_key_injective t1 t2 H1 H2). Qed.

Lemma hour_key_same_hour_witness :
  exists d1 d2,
    Datetime.utcfromtimestamp_ms Sample.t0 = Ok d1 /\
    Datetime.utcfromtimestamp_ms (Sample.t0 + 3599999) = Ok d2 /\
    TradeLimits._hour_key d1 = TradeLimits._hour_key d2.
Proof.
  eexists. eexists. split; [reflexivity | split; [reflexivity |]].
  apply (proj2 (@hour_key_same_hour Sample.t0 (Sample.t0 + 3599999) _ _
                  eq_refl eq_refl)).
  reflexivity.
Defined.

Lemma reset_keeps_order (now_ms : Z) (l l' : TradeLimits.t) :
  TradeLimits.reset_if_needed now_ms l = Ok l' ->
  counts_ordered l ->
  buckets_agree l \/ TradeLimits.hourly_trades l = 0 ->
  counts_ordered l' /\ buckets_agree l'.
Proof.
  unfold TradeLimits.reset_if_needed.
  destruct (Datetime.utcfromtimestamp_ms now_ms) as [now |] eqn:Hnow;
    simpl; [| discriminate].
  intros H. injection H as <-. intros Hord Hagree.
  split.
  - unfold counts_ordered in *.
    destruct (Z.eqb_spec (Datetime.date now) (TradeLimits._current_day l))
      as [Ed | Ed]; simpl;
      destruct (Z.eqb_spec (TradeLimits._hour_key now)
                  (TradeLimits._current_hour_key l)) as [Eh | Eh];
      simpl; try lia.
    (* a new day under the same hour key: the buckets cannot agree *)
    destruct Hagree as [[t [d [Hd [Hday Hkey]]]] | Hzero]; [| lia].
    exfalso. apply Ed.
    rewrite Hkey in Eh.
    apply (proj1 (@hour_key_injective now_ms t now d Hnow Hd)) in Eh.
    apply same_hour_same_day in Eh.
    destruct (utcfromtimestamp_fields now_ms Hnow) as [Hn _].
    destruct (utcfromtimestamp_fields t Hd) as [Ht _].
    rewrite Hday, Hn, Ht, Eh. reflexivity.
  - exists now_ms, now. split; [exact Hnow |].
    destruct (Z.eqb_spec (Datetime.date now) (TradeLimits._current_day l))
      as [Ed | Ed]; simpl;
      destruct (Z.eqb_spec (TradeLimits._hour_key now)
                  (TradeLimits._current_hour_key l)) as [Eh | Eh];
      simpl; auto.
Qed.

Lemma call_keeps_order (c : limits_call) (l l' : TradeLimits.t) :
  apply_call c l = Ok l' ->
  counts_ordered l ->
  buckets_agree l \/ TradeLimits.hourly_trades l = 0 ->
  counts_ordered l' /\ buckets_agree l'.
Proof.
  destruct c as [now_ms | pnl now_ms]; simpl.
  - apply reset_keeps_order.
  - unfold TradeLimits.record_trade.
    destruct (TradeLimits.reset_if_needed now_ms l) as [l1 |] eqn:Hr;
      simpl; [| discriminate].
    intros H. injection H as <-. intros Hord Hagree.
    destruct (@reset_keeps_order now_ms l l1 Hr Hord Hagree) as [Hord1 Hagree1].
    split.
    + unfold counts_ordered in *. simpl. lia.
    + destruct Hagree1 as [t [d [Hd [Hday Hkey]]]].
      exists t, d. auto.
Qed.

(** X2: on a [TradeLimits] object whose two counters are 0 (as
    [__init__] leaves them, whatever buckets it stored), after any sequence
    of [reset_if_needed] and [record_trade] calls that return, the hourly
    count is never negative and never exceeds the daily count: a day
    rollover always resets the hour too. *)
Theorem hourly_never_exceeds_daily (cs : list limits_call)
    (l l' : TradeLimits.t) :
  TradeLimits.daily_trades l = 0 -> TradeLimits.hourly_trades l = 0 ->
  apply_calls cs l = Ok l' ->
  0 <= TradeLimits.hourly_trades l' <= TradeLimits.daily_trades l'.
Proof.
  intros Hd Hh.
  assert (Hinv : counts_ordered l
                 /\ (buckets_agree l \/ TradeLimits.hourly_trades l = 0)).
  { split; [unfold counts_ordered; lia | right; exact Hh]. }
  clear Hd Hh. revert l Hinv.
  induction cs as [| c cs IH]; intros l [Hord Hagree]; simpl.
  - intros H. injection H as <-. exact Hord.
  - destruct (apply_call c l) as [l1 |] eqn:Hc; simpl; [| discriminate].
    destruct (@call_keeps_order c l l1 Hc Hord Hagree) as [Hord1 Hagree1].
    apply IH. split; [exact Hord1 | left; exact Hagree1].
Qed.

Lemma hourly_never_exceeds_daily_witness :
  exists l',
    apply_calls [CallRecord (-10) (Sample.t0 + 60000);
                 CallReset (Sample.t0 + Datetime.MS_PER_HOUR);
                 CallRecord 4 (Sample.t0 + Datetime.MS_PER_DAY)]
      Sample.limits0 = Ok l' /\
    0 <= TradeLimits.hourly_trades l' <= TradeLimits.daily_trades l'.
Proof.
  eexists. split; [reflexivity |].
  apply (@hourly_never_exceeds_daily
           [CallRecord (-10) (Sample.t0 + 60000);
            CallReset (Sample.t0 + Datetime.MS_PER_HOUR);
            CallRecord 4 (Sample.t0 + Datetime.MS_PER_DAY)]
           Sample.limits0 _ eq_refl eq_refl eq_refl).
Defined.

End CalendarFacts.

(* ===================================================================== *)
(** * Budgets of requests                                                 *)
(* ===================================================================== *)

Section Budgets.

Variable p : event -> bool.

Lemma spends_weaken {A} (n n' : nat) (m : M A) :
  (n <= n')%nat -> spends p n m -> spends p n' m.
Proof.
  intros Hle Hm w s. destruct (Hm w s) as [evs [Ht Hn]].
  exists evs. split; [exact Ht | lia].
Qed.

Lemma spends_of_emits {A} (m : M A) :
  emits (fun e => p e = false) m -> spends p 0 m.
Proof.
  intros Hm w s. destruct (Hm w s) as [evs [Ht Hq]].
  exists evs. split; [exact Ht |].
  assert (Hnil : filter p evs = []).
  { clear Ht. induction Hq as [| e evs He _ IH]; simpl; [reflexivity |].
    rewrite He. exact IH. }
  rewrite Hnil. simpl. lia.
Qed.

Lemma spends_bind {A B} (a b : nat) (m : M A) (k : A -> M B) :
  spends p a m -> (forall x, spends p b (k x)) -> spends p (a + b) (bind m k).
Proof.
  intros Hm Hk w s. unfold bind.
  destruct (Hm w s) as [evs [Ht Hn]].
  destruct (m w s) as [[x | e] s1]; simpl in *.
  - destruct (Hk x w s1) as [evs' [Ht' Hn']].
    exists (evs ++ evs'). rewrite Ht', Ht, app_assoc. split; [reflexivity |].
    rewrite filter_app, length_app. lia.
  - exists evs. split; [exact Ht | lia].
Qed.

Lemma spends_try_except {A} (a b : nat) (m : M A) (c : exn -> bool)
    (h : exn -> M A) :
  spends p a m -> (forall e, spends p b (h e)) ->
  spends p (a + b) (try_except m c h).
Proof.
  intros Hm Hh w s. unfold try_except.
  destruct (Hm w s) as [evs [Ht Hn]].
  destruct (m w s) as [[x | e] s1]; simpl in *.
  - exists evs. split; [exact Ht | lia].
  - destruct (c e).
    + destruct (Hh e w s1) as [evs' [Ht' Hn']].
      exists (evs ++ evs'). rewrite Ht', Ht, app_assoc. split; [reflexivity |].
      rewrite filter_app, length_app. lia.
    + exists evs. split; [exact Ht | lia].
Qed.

Lemma spends_try_finally {A} (a b : nat) (m : M A) (fin : M unit) :
  spends p a m -> spends p b fin -> spends p (a + b) (try_finally m fin).
Proof.
  intros Hm Hfin w s. unfold try_finally.
  destruct (Hm w s) as [evs [Ht Hn]].
  destruct (m w s) as [r s1]. simpl in Ht.
  destruct (Hfin w s1) as [evs' [Ht' Hn']].
  exists (evs ++ evs').
  destruct (fin w s1) as [[u | e] s2]; simpl in *;
    rewrite Ht', Ht, app_assoc;
    (split; [reflexivity | rewrite filter_app, length_app; lia]).
Qed.

Lemma spends_call (r : request) : spends p 1 (call r).
Proof.
  intros w s. exists [Req r]. split; [reflexivity |].
  simpl. destruct (p (Req r)); simpl; lia.
Qed.

End Budgets.

Section Invariants.

Variable I : Store -> Prop.
Hypothesis I_emit : forall (e : event) (s : Store), I s -> I (emit e s).

Lemma maintains_ret {A} (a : A) : maintains I (ret a).
Proof. intros w s H. exact H. Qed.

Lemma maintains_raise {A} (e : exn) : maintains I (@raise A e).
Proof. intros w s H. exact H. Qed.

Lemma maintains_gets {A} (g : Store -> A) : maintains I (gets g).
Proof. intros w s H. exact H. Qed.

Lemma maintains_lift {A} (r : res A) : maintains I (lift r).
Proof. intros w s H. exact H. Qed.

Lemma maintains_ask {A} (g : World -> A) : maintains I (ask g).
Proof. intros w s H. exact H. Qed.

Lemma maintains_clock : maintains I clock_ms.
Proof. intros w s H. exact H. Qed.

Lemma maintains_modify (g : Store -> Store) :
  (forall s, I s -> I (g s)) -> maintains I (modify g).
Proof. intros Hg w s H. apply Hg. exact H. Qed.

Lemma maintains_log (lvl : level) (name msg : string) :
  maintains I (log lvl name msg).
Proof. apply maintains_modify. intros s. apply I_emit. Qed.

Lemma maintains_call (r : request) : maintains I (call r).
Proof. intros w s H. unfold call. simpl. apply I_emit. exact H. Qed.

Lemma maintains_sleep : maintains I Main._sleep_until_next_minute.
Proof.
  intros w s H. unfold Main._sleep_until_next_minute. simpl.
  apply I_emit. exact H.
Qed.

Lemma maintains_bind {A B} (m : M A) (k : A -> M B) :
  maintains I m -> (forall a, maintains I (k a)) -> maintains I (bind m k).
Proof.
  intros Hm Hk w s H. unfold bind.
  specialize (Hm w s H). destruct (m w s) as [[a | e] s1]; simpl in *.
  - apply Hk. exact Hm.
  - exact Hm.
Qed.

Lemma maintains_try_except {A} (m : M A) (c : exn -> bool) (h : exn -> M A) :
  maintains I m -> (forall e, maintains I (h e)) ->
  maintains I (try_except m c h).
Proof.
  intros Hm Hh w s H. unfold try_except.
  specialize (Hm w s H). destruct (m w s) as [[a | e] s1]; simpl in *.
  - exact Hm.
  - destruct (c e); [apply Hh |]; exact Hm.
Qed.

Lemma maintains_try_finally {A} (m : M A) (fin : M unit) :
  maintains I m -> maintains I fin -> maintains I (try_finally m fin).
Proof.
  intros Hm Hfin w s H. unfold try_finally.
  specialize (Hm w s H). destruct (m w s) as [r s1]. simpl in Hm.
  specialize (Hfin w s1 Hm). destruct (fin w s1) as [[u | e] s2]; exact Hfin.
Qed.

Lemma maintains_when (b : bool) (m : M unit) :
  maintains I m -> maintains I (when b m).
Proof. intros Hm. destruct b; [exact Hm | apply maintains_ret]. Qed.

End Invariants.

Lemma emits_clock (P : event -> Prop) : emits P clock_ms.
Proof. apply emits_nothing. reflexivity. Qed.

Lemma emits_sleep (P : event -> Prop) :
  P Sleep -> emits P Main._sleep_until_next_minute.
Proof.
  intros H w s. exists [Sleep]. split; [reflexivity |].
  constructor; [exact H | constructor].
Qed.

(** The function at the head of an application. *)
Ltac head_of t := match t with ?f _ => head_of f | _ => t end.

Lemma emits_event (P : event -> Prop) (e : event) :
  P e -> emits P (modify (emit e)).
Proof.
  intros H w s. exists [e]. split; [reflexivity |].
  constructor; [exact H | constructor].
Qed.

(** Walks a computation for what it adds to the trace, as [traces] does,
    trying [hook] first at every step and unfolding the functions it
    meets. *)
Ltac walk hook :=
  repeat first
    [ progress intros
    | hook
    | apply emits_ret | apply emits_raise | apply emits_gets
    | apply emits_lift | apply emits_ask
    | apply emits_clock | apply emits_sleep
    | apply emits_when | apply emits_bind
    | apply emits_try_except | apply emits_try_finally
    | apply emits_modify; reflexivity
    | apply emits_log | apply emits_call | apply emits_event
    | match goal with
      | |- emits _ (match ?x with _ => _ end) => destruct x
      | |- emits _ ?m => let h := head_of m in progress unfold h
      end ].

(** Solves [emits P m] when [P] is decided by computation on each event
    that [m] can add. *)
Ltac silent := walk fail; try reflexivity; try discriminate.

Lemma spends_silent (p : event -> bool) {A} (n : nat) (m : M A) :
  emits (fun e => p e = false) m -> spends p n m.
Proof.
  intros H. apply (@spends_weaken p A 0 n); [lia | apply spends_of_emits, H].
Qed.

(** Solves [spends p 1 m] when at most one step of [m] can add an event
    that satisfies [p]. *)
Ltac budget :=
  first
    [ solve [apply spends_silent; silent]
    | apply spends_call
    | match goal with
      | |- spends _ _ (match ?x with _ => _ end) => destruct x; budget
      | |- spends ?p 1 (bind ?m ?k) =>
          first
            [ apply (@spends_bind p _ _ 0 1 m k);
              [ solve [apply spends_silent; silent] | intros; budget ]
            | apply (@spends_bind p _ _ 1 0 m k);
              [ budget | intros; solve [apply spends_silent; silent] ] ]
      | |- spends ?p 1 (try_except ?m ?c ?h) =>
          first
            [ apply (@spends_try_except p _ 1 0 m c h);
              [ budget | intros; solve [apply spends_silent; silent] ]
            | apply (@spends_try_except p _ 0 1 m c h);
              [ solve [apply spends_silent; silent] | intros; budget ] ]
      | |- spends ?p 1 (try_finally ?m ?fin) =>
          apply (@spends_try_finally p _ 1 0 m fin);
          [ budget | solve [apply spends_silent; silent] ]
      | |- spends _ _ ?m => let h := head_of m in progress unfold h; budget
      end ].

(* ===================================================================== *)
(** * Orders                                                              *)
(* ===================================================================== *)

(** X3: a symbol's filters are requested from the exchange once. When
    [_load_filters] returns, every later call for that symbol returns the
    same filters from the cache, whatever the exchange would answer then,
    and sends nothing; when it raises, the cache is what it was, so the next
    call asks again. *)
Theorem load_filters_cached (sym : string) (w : World) (s : Store) :
  match OrderManager._load_filters sym w s with
  | (Ok filt, s1) =>
      forall w' : World, OrderManager._load_filters sym w' s1 = (Ok filt, s1)
  | (Raise _, s1) => _symbol_filters s1 = _symbol_filters s
  end.
Proof.
  unfold OrderManager._load_filters, bind, gets, call, modify, ret. simpl.
  destruct (OrderManager.lookup_filters sym (_symbol_filters s)) as [filt |] eqn:Hhit.
  - intros w'. rewrite Hhit. reflexivity.
  - destruct (get_symbol_info w (trace s) sym) as [info | e]; simpl.
    + intros w'. rewrite String.eqb_refl. reflexivity.
    + reflexivity.
Qed.

(** X4: on fills whose quantity and price are numbers,
    [compute_avg_fill] never raises: the division is guarded. It gives an
    average only for a non-empty list of fills, and then with a total
    quantity that is not zero. *)
Theorem compute_avg_fill_total (trades : list Fill) :
  exists r, OrderManager.compute_avg_fill trades = Ok r /\
            forall price qty, r = Some (price, qty) ->
              trades <> [] /\ PrimFloat.eqb qty 0 = false.
Proof.
  unfold OrderManager.compute_avg_fill.
  destruct trades as [| t trades].
  - exists None. split; [reflexivity | discriminate].
  - destruct (fold_left _ (t :: trades) (0%float, 0%float)) as [total_qty total_quote].
    destruct (PrimFloat.eqb total_qty 0) eqn:Hz.
    + exists None. split; [reflexivity | discriminate].
    + unfold PyFloat.truediv. rewrite Hz. simpl.
      eexists. split; [reflexivity |].
      intros price qty H. injection H as _ <-.
      split; [discriminate | exact Hz].
Qed.

(** X5: the position [find_remote] reads from the account is that of the
    first entry of the symbol whose amount is not zero: long when the
    amount is positive and short otherwise, with the absolute amount as
    quantity. It finds none exactly when every entry is of another symbol
    or has a zero amount. *)
Theorem find_remote_first_open (sym : string) (ps : list RawPosition) :
  match PositionTracker.find_remote sym ps with
  | Some p =>
      exists before pos rest,
        ps = before ++ pos :: rest /\
        (forall x, In x before ->
                   rp_symbol x <> sym \/ PrimFloat.eqb (positionAmt x) 0 = true) /\
        rp_symbol pos = sym /\
        PrimFloat.eqb (positionAmt pos) 0 = false /\
        p = {| Position.symbol := sym;
               Position.side := if PyFloat.gt0 (positionAmt pos) then LONG else SHORT;
               Position.quantity := PrimFloat.abs (positionAmt pos);
               Position.entry_price := entryPrice pos;
               Position.entry_time := rp_updateTime pos |}
  | None =>
      forall x, In x ps ->
                rp_symbol x <> sym \/ PrimFloat.eqb (positionAmt x) 0 = true
  end.
Proof.
  induction ps as [| pos ps IH]; simpl.
  - intros x [].
  - destruct (String.eqb (rp_symbol pos) sym) eqn:Hsym; simpl.
    + destruct (PrimFloat.eqb (positionAmt pos) 0) eqn:Hamt.
      * destruct (PositionTracker.find_remote sym ps) as [p |].
        -- destruct IH as [before [pos' [rest [Hps [Hbefore Hrest]]]]].
           exists (pos :: before), pos', rest.
           split; [rewrite Hps; reflexivity |].
           split; [| exact Hrest].
           intros x [<- | Hin]; [right; exact Hamt | apply Hbefore, Hin].
        -- intros x [<- | Hin]; [right; exact Hamt | apply IH, Hin].
      * exists [], pos, ps.
        split; [reflexivity |].
        split; [intros x [] |].
        apply String.eqb_eq in Hsym.
        split; [exact Hsym | split; [exact Hamt | reflexivity]].
    + apply String.eqb_neq in Hsym.
      destruct (PositionTracker.find_remote sym ps) as [p |].
      * destruct IH as [before [pos' [rest [Hps [Hbefore Hrest]]]]].
        exists (pos :: before), pos', rest.
        split; [rewrite Hps; reflexivity |].
        split; [| exact Hrest].
        intros x [<- | Hin]; [left; exact Hsym | apply Hbefore, Hin].
      * intros x [<- | Hin]; [left; exact Hsym | apply IH, Hin].
Qed.

(* ===================================================================== *)
(** * Market data                                                         *)
(* ===================================================================== *)

Section MarketDataFacts.

Import MarketDataService.
Local Open Scope Z_scope.

Lemma validate_sequence_outcome (ts : list Z) (ms : Z) :
  _validate_sequence ts ms = Ok tt \/ _validate_sequence ts ms = Raise ValueError.
Proof.
  induction ts as [| prev ts IH]; [left; reflexivity |].
  destruct ts as [| cur rest]; [left; reflexivity |].
  cbn [_validate_sequence].
  destruct (cur =? prev + ms); simpl; [exact IH | right; reflexivity].
Qed.

(** X6: [_validate_sequence] accepts the open times exactly when they are
    evenly spaced: each is the first one plus its index times the interval.
    Any other sequence is refused with [ValueError]; an empty sequence and a
    single time are accepted. *)
Theorem validate_sequence_contiguous (ts : list Z) (ms : Z) :
  (_validate_sequence ts ms = Ok tt <->
   forall i : nat, (i < List.length ts)%nat ->
                   nth i ts 0 = nth 0 ts 0 + Z.of_nat i * ms) /\
  (_validate_sequence ts ms <> Ok tt -> _validate_sequence ts ms = Raise ValueError).
Proof.
  split.
  - induction ts as [| prev ts IH].
    + split; [intros _ i Hi; inversion Hi | reflexivity].
    + destruct ts as [| cur rest].
      * split; [| reflexivity].
        intros _ i Hi. simpl in Hi.
        assert (i = 0%nat) as -> by lia. simpl. lia.
      * cbn [_validate_sequence].
        destruct (cur =? prev + ms) eqn:Hstep; cbn [negb].
        -- apply Z.eqb_eq in Hstep. rewrite IH. clear IH. split.
           ++ intros Htail [| i] Hi; [simpl; lia |].
              change (nth (S i) (prev :: cur :: rest) 0) with (nth i (cur :: rest) 0).
              rewrite Htail by (simpl in *; lia).
              simpl nth. rewrite Nat2Z.inj_succ. lia.
           ++ intros Hall i Hi.
              change (nth i (cur :: rest) 0) with (nth (S i) (prev :: cur :: rest) 0).
              rewrite Hall by (simpl in *; lia).
              simpl nth. rewrite Nat2Z.inj_succ. lia.
        -- apply Z.eqb_neq in Hstep. split; [discriminate |].
           intros Hall. exfalso. apply Hstep.
           pose proof (Hall 1%nat ltac:(simpl; lia)) as H1. cbn [nth] in H1. lia.
  - intros Hno. destruct (validate_sequence_outcome ts ms); tauto.
Qed.

Lemma parse_rows_length (rows : list KlineRow) (ps : list Parsed) :
  parse_rows rows = Ok ps -> List.length ps = List.length rows.
Proof.
  revert ps. induction rows as [| row rows IH]; simpl; intros ps H.
  - injection H as <-. reflexivity.
  - destruct (parse_row row) as [p |]; simpl in H; [| discriminate].
    destruct (parse_rows rows) as [ps' |]; simpl in H; [| discriminate].
    injection H as <-. simpl. rewrite (IH ps' eq_refl). reflexivity.
Qed.

(** X7: when [_normalize_klines] returns, the payload was a non-empty list
    of well-formed rows with evenly spaced open times, and the result holds
    all of them if the last candle closed more than the safety margin
    before the clock reading, and all but the last one otherwise; nothing
    else is ever dropped, and the six series have the same length. *)
Theorem normalize_klines_shape (klines : KlinesPayload) (interval : Interval)
    (w : World) (s s' : Store) (c : Candles) :
  _normalize_klines klines interval w s = (Ok c, s') ->
  exists (rows : list KlineRow) (ps : list Parsed),
    klines = Payload rows /\ rows <> [] /\
    parse_rows rows = Ok ps /\
    List.length ps = List.length rows /\
    _validate_sequence (map open_time ps) (INTERVAL_SECONDS interval * 1000) = Ok tt /\
    let closed :=
      _is_closed (last (map close_time ps) 0) (time_ms w (trace s))
        Settings.SAFETY_MARGIN_MS in
    let kept := if closed then ps else removelast ps in
    c = candles_of kept /\
    List.length kept = (List.length rows - (if closed then 0 else 1))%nat /\
    List.length (c_open c) = List.length kept /\
    List.length (c_high c) = List.length kept /\
    List.length (c_low c) = List.length kept /\
    List.length (c_close c) = List.length kept /\
    List.length (c_volume c) = List.length kept /\
    List.length (c_timestamp c) = List.length kept.
Proof.
  unfold _normalize_klines.
  destruct klines as [| rows]; [discriminate |].
  destruct rows as [| row rows]; [discriminate |].
  unfold bind, clock_ms, lift, log, modify, ret. 
  destruct (parse_rows (row :: rows)) as [ps |] eqn:Hps; [| discriminate].
  destruct (_validate_sequence (map open_time ps) (INTERVAL_SECONDS interval * 1000))
    as [[] |] eqn:Hseq; [| discriminate].
  pose proof (parse_rows_length _ Hps) as Hlen.
  intros H. exists (row :: rows), ps.
  split; [reflexivity | split; [discriminate | split; [exact Hps |]]].
  split; [exact Hlen | split; [exact Hseq |]].
  cbv zeta.
  destruct (_is_closed (last (map close_time ps) 0) (time_ms w (trace s))
              Settings.SAFETY_MARGIN_MS); simpl in H; injection H as <- _.
  - split; [reflexivity | split; [lia |]].
    unfold candles_of; simpl; rewrite !length_map; repeat split; reflexivity.
  - split; [reflexivity |].
    split; [rewrite removelast_firstn_len, length_firstn; lia |].
    unfold candles_of; simpl; rewrite !length_map; repeat split; reflexivity.
Qed.

End MarketDataFacts.

(* ===================================================================== *)
(** * The TP/SL manager                                                   *)
(* ===================================================================== *)

(** X8: a take-profit cancel that the exchange refuses does not keep
    [_cancel_outstanding] from cancelling the stop-loss order: both ids are
    sent, in that order. When the second cancel is answered, accepted or
    refused, the call returns and the manager has forgotten both ids, the
    refused order included. *)
Theorem cancel_outstanding_tries_both_legs (reason : string) (w : World)
    (s : Store) (tp sl : Z) :
  TpSlManager.truthy_id (tp_order_id s) = Some tp ->
  TpSlManager.truthy_id (sl_order_id s) = Some sl ->
  cancel_order w (trace s) (symbol s) tp = Raise BinanceAPIError ->
  let r := TpSlManager._cancel_outstanding reason w s in
  let h := trace s ++ [Req (CancelOrder (symbol s) tp);
                       Log ERROR "TpSlManager" "Failed to cancel TP"] in
  cancelled_ids (new_events s (snd r)) = [tp; sl] /\
  (cancel_order w h (symbol s) sl = Ok tt \/
   cancel_order w h (symbol s) sl = Raise BinanceAPIError ->
   fst r = Ok tt /\ tp_order_id (snd r) = None /\ sl_order_id (snd r) = None /\
   is_protected (snd r) = false).
Proof.
  intros Htp Hsl Hfail r h. subst r h.
  unfold TpSlManager._cancel_outstanding, OrderManager.cancel_order,
    try_except, bind, gets, call, log, ret, modify. simpl.
  rewrite Htp. simpl. rewrite Hfail. simpl. rewrite Hsl. simpl.
  rewrite <- app_assoc. simpl.
  destruct (cancel_order w _ (symbol s) sl) as [[] | e] eqn:Hsecond; simpl.
  - split; [| intros _; repeat split; reflexivity].
    rewrite (@new_events_app s _
               [Req (CancelOrder (symbol s) tp);
                Log ERROR "TpSlManager" "Failed to cancel TP";
                Req (CancelOrder (symbol s) sl);
                Log INFO "TpSlManager" ("Cancelled SL order (" ++ reason ++ ")")%string]);
      [reflexivity |].
    simpl. rewrite <- !app_assoc. reflexivity.
  - destruct e; simpl;
      (split;
       [ first
           [ rewrite (@new_events_app s _
                        [Req (CancelOrder (symbol s) tp);
                         Log ERROR "TpSlManager" "Failed to cancel TP";
                         Req (CancelOrder (symbol s) sl);
                         Log ERROR "TpSlManager" "Failed to cancel SL"]);
             [reflexivity | simpl; rewrite <- !app_assoc; reflexivity]
           | rewrite (@new_events_app s _
                        [Req (CancelOrder (symbol s) tp);
                         Log ERROR "TpSlManager" "Failed to cancel TP";
                         Req (CancelOrder (symbol s) sl)]);
             [reflexivity | simpl; rewrite <- !app_assoc; reflexivity] ]
       | intros [H | H]; try discriminate H; repeat split; reflexivity ]).
Qed.

(** Reads the new events off a trace that computes to the old one with
    events appended. *)
Ltac new_trace :=
  erewrite new_events_app by (simpl; rewrite <- ?app_assoc; reflexivity).

(** What [_cancel_outstanding] adds to the trace: no placement, and
    cancels of ids the manager held only. *)
Lemma cancel_outstanding_trace (reason : string) (w : World) (s : Store) :
  exists evs,
    trace (snd (TpSlManager._cancel_outstanding reason w s)) = trace s ++ evs /\
    filter is_placement evs = [] /\
    forall id, In id (cancelled_ids evs) -> In id (outstanding_ids s).
Proof.
  unfold TpSlManager._cancel_outstanding, OrderManager.cancel_order,
    try_except, bind, gets, call, log, ret, modify, outstanding_ids. simpl.
  destruct (TpSlManager.truthy_id (tp_order_id s)) as [tp |]; simpl.
  - destruct (cancel_order w (trace s) (symbol s) tp) as [[] | e]; simpl;
      [| destruct e; simpl];
      try (destruct (TpSlManager.truthy_id (sl_order_id s)) as [sl |]; simpl;
           [ match goal with
             | |- context [cancel_order w ?h ?a ?b] =>
                 destruct (cancel_order w h a b) as [[] | e']; simpl;
                 [| destruct e'; simpl]
             end | ]);
      eexists; (split; [rewrite <- ?app_assoc; reflexivity |]);
      (split; [reflexivity | simpl; tauto]).
  - destruct (TpSlManager.truthy_id (sl_order_id s)) as [sl |]; simpl;
      [ destruct (cancel_order w (trace s) (symbol s) sl) as [[] | e']; simpl;
        [| destruct e'; simpl] | ];
      eexists; (split; [rewrite <- ?app_assoc; try reflexivity;
                        try (rewrite app_nil_r; reflexivity) |]);
      (split; [reflexivity | simpl; tauto]).
Qed.

Lemma new_events_trans (s s1 s2 : Store) (a b : list event) :
  trace s1 = trace s ++ a -> trace s2 = trace s1 ++ b ->
  new_events s s2 = a ++ b.
Proof.
  intros Ha Hb. apply new_events_app. rewrite Hb, Ha, app_assoc. reflexivity.
Qed.

(** X9: when the exchange reports no position for the symbol, [sync]
    places no order, cancels only orders whose ids the manager held, and,
    when it returns, leaves the tracker without a position and the manager
    without order ids and unprotected. *)
Theorem sync_flat_exchange (w : World) (s : Store) (info : AccountInfo) :
  get_account_info w (trace s) = Ok info ->
  PositionTracker.find_remote (symbol s) (positions info) = None ->
  let r := TpSlManager.sync w s in
  filter is_placement (new_events s (snd r)) = [] /\
  (forall id, In id (cancelled_ids (new_events s (snd r))) ->
              In id (outstanding_ids s)) /\
  (fst r = Ok tt ->
   position (snd r) = None /\ tp_order_id (snd r) = None /\
   sl_order_id (snd r) = None /\ is_protected (snd r) = false).
Proof.
  intros Hinfo Hflat r. subst r.
  rewrite sync_run, fetch_remote_position_run, Hinfo, Hflat.
  set (s1 := with_is_protected false (emit (Req GetAccountInfo) s)).
  assert (H1 : trace s1 = trace s ++ [Req GetAccountInfo]) by reflexivity.
  destruct (cancel_outstanding_trace "Position closed on exchange" w s1)
    as [evs [Ht [Hnone Hids]]].
  pose proof (cancel_outstanding_clears "Position closed on exchange" w s1) as Hc.
  destruct (TpSlManager._cancel_outstanding _ w s1) as [[[] | e] s2];
    simpl in Ht, Hc |- *.
  - rewrite clear_position_run. cbn [fst snd].
    destruct (Hc eq_refl) as [Htp [Hsl _]].
    assert (Hnew : exists tail,
              new_events s
                (with_is_protected false
                   (with_position None
                      match position s2 with
                      | Some _ => emit (Log INFO "PositionTracker"
                                          "Clearing local position") s2
                      | None => s2
                      end)) = [Req GetAccountInfo] ++ (evs ++ tail) /\
              filter is_placement tail = [] /\ cancelled_ids tail = []).
    { destruct (position s2).
      - exists [Log INFO "PositionTracker" "Clearing local position"].
        split; [| split; reflexivity].
        apply new_events_trans with (s1 := s1); [exact H1 |].
        simpl. rewrite Ht, <- app_assoc. reflexivity.
      - exists []. split; [| split; reflexivity].
        apply new_events_trans with (s1 := s1); [exact H1 |].
        simpl. rewrite Ht, app_nil_r. reflexivity. }
    destruct Hnew as [tail [-> [Htail Hctail]]].
    split; [| split].
    + simpl. rewrite filter_app, Hnone, Htail. reflexivity.
    + intros id. unfold cancelled_ids in *. simpl.
      rewrite flat_map_app, Hctail, app_nil_r. apply Hids.
    + intros _. simpl. destruct (position s2); simpl; repeat split; assumption.
  - rewrite (@new_events_trans s s1 s2 _ evs H1 Ht).
    split; [| split].
    + simpl. exact Hnone.
    + intros id. simpl. apply Hids.
    + discriminate.
Qed.

(** X10: when the account query is answered and [sync] returns, the
    tracker holds exactly the position the exchange reports for the symbol,
    and none if it reports none, whatever it held before and whatever
    happened to the protective orders. *)
Theorem sync_aligns_tracker (w : World) (s : Store) (info : AccountInfo) :
  get_account_info w (trace s) = Ok info ->
  fst (TpSlManager.sync w s) = Ok tt ->
  position (snd (TpSlManager.sync w s))
  = PositionTracker.find_remote (symbol s) (positions info).
Proof.
  intros Hinfo. rewrite sync_run, fetch_remote_position_run, Hinfo.
  destruct (PositionTracker.find_remote (symbol s) (positions info)) as [remote |].
  - simpl. destruct (is_protected s); [reflexivity |].
    match goal with
    | |- context [TpSlManager._cancel_outstanding ?r w ?s1] =>
        pose proof (cancel_outstanding_position r w s1) as Hc;
        destruct (TpSlManager._cancel_outstanding r w s1) as [[u | e] s2]
    end; [| discriminate].
    pose proof (place_protection_position remote w s2) as Hp.
    destruct (TpSlManager._place_protection remote w s2) as [[u' | e] s3];
      [| discriminate].
    intros _. simpl in *. congruence.
  - destruct (TpSlManager._cancel_outstanding _ w _) as [[u | e] s2];
      [| discriminate].
    intros _. rewrite clear_position_run. reflexivity.
Qed.

Lemma sync_spends_take_profit : spends is_take_profit 1 TpSlManager.sync.
Proof. budget. Qed.

Lemma sync_spends_stop_loss : spends is_stop_loss 1 TpSlManager.sync.
Proof. budget. Qed.

Lemma sync_spends_market_order : spends is_market_order 0 TpSlManager.sync.
Proof. apply spends_silent. silent. Qed.

(* ===================================================================== *)
(** * The entry executor                                                  *)
(* ===================================================================== *)

(** X12: [process] leaves the re-entrancy flag [_in_cycle] as it found
    it, whether the attempt returned, skipped or raised: lowered again
    after a run, and untouched by a call that found it raised. *)
Theorem process_restores_in_cycle (md : MarketData) :
  preserves _in_cycle (EntryExecutor.process md).
Proof.
  intros w s.
  unfold EntryExecutor.process, bind, gets, modify, try_finally, log. simpl.
  destruct (_in_cycle s) eqn:Hbusy; simpl; [exact Hbusy |].
  destruct (EntryExecutor.attempt_entry md w (with_in_cycle true s)) as [r s1].
  reflexivity.
Qed.

Lemma process_spends_market_order (md : MarketData) :
  spends is_market_order 1 (EntryExecutor.process md).
Proof. budget. Qed.

Lemma process_only_market_orders (p : event -> bool) (md : MarketData) :
  p = is_take_profit \/ p = is_stop_loss \/ p = is_cancel ->
  spends p 0 (EntryExecutor.process md).
Proof.
  intros [-> | [-> | ->]]; apply spends_silent; silent.
Qed.

(* ===================================================================== *)
(** * The main loop                                                       *)
(* ===================================================================== *)

(** Orders are placed in a turn of the loop by [process] and by [sync]
    only. *)
Lemma cycle_spends (p : event -> bool) (a b : nat) (loc : Main.Locals) :
  (forall e, is_placement e = false -> p e = false) ->
  (forall md, spends p a (EntryExecutor.process md)) ->
  spends p b TpSlManager.sync ->
  spends p (a + b) (Main.cycle loc).
Proof.
  intros Hp Hprocess Hsync.
  assert (Hquiet : forall (A : Type) (m : M A),
            emits (fun e => is_placement e = false) m -> spends p 0 m).
  { intros A m Hm. apply spends_of_emits.
    intros w s. destruct (Hm w s) as [evs [Ht Hall]].
    exists evs. split; [exact Ht |].
    eapply Forall_impl; [| exact Hall]. exact Hp. }
  unfold Main.cycle.
  repeat (apply (@spends_bind p _ _ 0 (a + b));
          [ solve [apply Hquiet; unfold Main.notify_error; silent] | intros ? ]).
  match goal with
  | |- spends _ _ (if negb ?x then _ else _) =>
      destruct x; cbn [negb]; [| apply spends_silent; silent]
  end.
  repeat (apply (@spends_bind p _ _ 0 (a + b));
          [ solve [apply Hquiet; silent] | intros ? ]).
  assert (Hskip : forall A (m : M A),
            emits (fun e => is_placement e = false) m -> spends p (a + b) m).
  { intros A m Hm. apply (@spends_weaken p A 0); [lia | apply Hquiet, Hm]. }
  match goal with
  | |- spends _ _ (match ?c1 with Some _ => _ | None => _ end) =>
      destruct c1; [| apply Hskip; silent]
  end.
  match goal with
  | |- spends _ _ (match ?c5 with Some _ => _ | None => _ end) =>
      destruct c5; [| apply Hskip; silent]
  end.
  apply (@spends_bind p _ _ 0 (a + b)); [apply Hquiet; silent | intros allowed].
  apply (@spends_bind p _ _ a b).
  { destruct allowed; [apply Hprocess |].
    apply (@spends_weaken p _ 0); [lia | apply Hquiet; silent]. }
  intros _.
  apply (@spends_weaken p _ (b + 0)); [lia |].
  apply (@spends_bind p _ _ b 0); [exact Hsync | intros _].
  apply Hquiet. unfold Main.notify_warning. silent.
Qed.

(** X15: a turn of the main loop that starts with no position recorded
    as open at the previous turn asks for no trade history and no funding
    history and writes no checkpoint: PnL is attributed only on the turn
    that sees an open position gone. *)
Theorem no_attribution_without_close (loc : Main.Locals) :
  Main.last_position_open loc = false ->
  spends is_pnl_attribution 0 (Main.cycle loc).
Proof.
  intros Hclosed. unfold Main.cycle. rewrite Hclosed. cbn [andb].
  apply spends_silent. silent.
Qed.

(* ===================================================================== *)
(** * Quantities of orders                                                *)
(* ===================================================================== *)

Lemma place_market_order_quantity (sym : string) (side : OrderSide) (q : float) :
  emits quantity_not_le0 (OrderManager.place_market_order sym side q).
Proof.
  unfold OrderManager.place_market_order.
  apply emits_bind; [walk fail; exact I | intros qty].
  destruct (PyFloat.le0 qty) eqn:Hq; walk fail; first [exact Hq | exact I].
Qed.

Lemma place_take_profit_quantity (sym : string) (side : OrderSide)
    (q price : float) :
  emits quantity_not_le0 (OrderManager.place_take_profit sym side q price).
Proof.
  unfold OrderManager.place_take_profit.
  apply emits_bind; [walk fail; exact I | intros qty].
  apply emits_bind; [walk fail; exact I | intros rounded].
  destruct (PyFloat.le0 qty) eqn:Hq; walk fail; first [exact Hq | exact I].
Qed.

Lemma place_stop_loss_quantity (sym : string) (side : OrderSide)
    (q price : float) :
  emits quantity_not_le0 (OrderManager.place_stop_loss sym side q price).
Proof.
  unfold OrderManager.place_stop_loss.
  apply emits_bind; [walk fail; exact I | intros qty].
  apply emits_bind; [walk fail; exact I | intros rounded].
  destruct (PyFloat.le0 qty) eqn:Hq; walk fail; first [exact Hq | exact I].
Qed.

(** Walks a computation whose orders all go through the order manager. *)
Ltac orders :=
  walk ltac:(first [ apply place_market_order_quantity
                   | apply place_take_profit_quantity
                   | apply place_stop_loss_quantity ]);
  try exact I.

Lemma cycle_quantities (loc : Main.Locals) :
  emits quantity_not_le0 (Main.cycle loc).
Proof. orders. Qed.

Lemma loop_emits (P : event -> Prop) (n : nat) :
  (forall loc, emits P (Main.cycle loc)) ->
  forall loc, emits P (Main.loop n loc).
Proof.
  intros Hcycle. induction n as [| n IH]; intros loc; simpl.
  - apply emits_ret.
  - apply emits_bind; [apply Hcycle | intros loc'; apply IH].
Qed.

(** X16: whatever the exchange answers and for any number of turns of the
    loop, no order the bot sends, market, take-profit or stop-loss, has a
    quantity that is zero or negative: every request carries the rounded
    quantity, and the order manager refuses to send one that is not above
    zero. *)
Theorem orders_never_nonpositive (n : nat) (loc : Main.Locals) :
  emits quantity_not_le0 (Main.main n loc).
Proof.
  unfold Main.main. apply emits_try_except.
  - apply loop_emits. apply cycle_quantities.
  - intros e. unfold Main.notify_info. walk fail; exact I.
Qed.

(* ===================================================================== *)
(** * The kill switch in the main loop                                    *)
(* ===================================================================== *)

Section InvariantsOfValues.

Variable I : Store -> Prop.

(** The continuation of a read of the store is run on what was read from
    a store that satisfies the invariant. *)
Lemma maintains_bind_gets {A B} (g : Store -> A) (k : A -> M B) :
  (forall s0, I s0 -> maintains I (k (g s0))) -> maintains I (bind (gets g) k).
Proof. intros H w s HI. unfold bind, gets. apply (H s HI w s HI). Qed.

Lemma maintains_bind_lift {A B} (r : res A) (k : A -> M B) :
  (forall a, r = Ok a -> maintains I (k a)) -> maintains I (bind (lift r) k).
Proof.
  intros H w s HI. unfold bind, lift.
  destruct r as [a | e]; [apply (H a eq_refl w s HI) | exact HI].
Qed.

End InvariantsOfValues.

(** Walks a computation for an invariant that no write of a single
    attribute can break, unfolding the functions it meets. *)
Ltac keeping hook :=
  repeat first
    [ progress intros
    | hook
    | apply maintains_ret | apply maintains_raise | apply maintains_gets
    | apply maintains_lift | apply maintains_ask | apply maintains_clock
    | apply maintains_log | apply maintains_call | apply maintains_sleep
    | apply maintains_when | apply maintains_bind
    | apply maintains_try_except | apply maintains_try_finally
    | apply maintains_modify; solve [intros ? ?; assumption]
    | match goal with
      | |- maintains _ (match ?x with _ => _ end) => destruct x
      | |- maintains _ ?m => let h := head_of m in progress unfold h
      end ].

Lemma reset_if_needed_config (now_ms : Z) (l l' : TradeLimits.t) :
  TradeLimits.reset_if_needed now_ms l = Ok l' ->
  TradeLimits.max_daily_loss l' = TradeLimits.max_daily_loss l /\
  TradeLimits.max_trades_per_day l' = TradeLimits.max_trades_per_day l /\
  TradeLimits.max_trades_per_hour l' = TradeLimits.max_trades_per_hour l.
Proof.
  unfold TradeLimits.reset_if_needed.
  destruct (Datetime.utcfromtimestamp_ms now_ms) as [d |]; simpl; [| discriminate].
  intros H. injection H as <-.
  destruct (negb _); destruct (negb _); simpl; repeat split; reflexivity.
Qed.

Lemma record_trade_config (pnl : float) (now_ms : Z) (l l' : TradeLimits.t) :
  TradeLimits.record_trade pnl now_ms l = Ok l' ->
  TradeLimits.max_daily_loss l' = TradeLimits.max_daily_loss l /\
  TradeLimits.max_trades_per_day l' = TradeLimits.max_trades_per_day l /\
  TradeLimits.max_trades_per_hour l' = TradeLimits.max_trades_per_hour l.
Proof.
  unfold TradeLimits.record_trade.
  destruct (TradeLimits.reset_if_needed now_ms l) as [l1 |] eqn:Hreset; simpl;
    [| discriminate].
  intros H. injection H as <-. simpl. apply (reset_if_needed_config _ _ Hreset).
Qed.

Lemma unlimited_not_exceeded (l : TradeLimits.t) :
  unlimited l -> TradeLimits.limits_exceeded l = false.
Proof.
  intros [H1 [H2 H3]]. unfold TradeLimits.limits_exceeded.
  rewrite H1, H2, H3. reflexivity.
Qed.

Lemma free_to_trade_emit (e : event) (s : Store) :
  free_to_trade s -> free_to_trade (emit e s).
Proof. intros H. exact H. Qed.

Lemma cycle_free_to_trade (loc : Main.Locals) :
  maintains free_to_trade (Main.cycle loc).
Proof.
  pose proof free_to_trade_emit as He.
  unfold Main.cycle.
  apply maintains_bind; [keeping fail; auto |]. intros synced.
  destruct synced; cbn [negb]; [| keeping fail; auto].
  apply maintains_bind; [keeping fail; auto |]. intros now_ms.
  apply maintains_bind_gets. intros s0 [Hfree0 _].
  apply maintains_bind_lift. intros l Hl.
  assert (Hfree : unlimited l).
  { destruct (reset_if_needed_config _ _ Hl) as [H1 [H2 H3]].
    destruct Hfree0 as [G1 [G2 G3]]. unfold unlimited. rewrite H1, H2, H3. tauto. }
  apply maintains_bind.
  { apply maintains_modify. intros s [_ Hs]. split; assumption. }
  intros _.
  apply maintains_bind; [keeping fail; auto |]. intros allowed.
  apply maintains_bind.
  { apply maintains_when. unfold KillSwitch.reset_daily.
    keeping fail; auto.
    apply maintains_modify. intros s [Hs _]. split; [exact Hs | reflexivity]. }
  intros _.
  apply maintains_bind; [keeping fail; auto |]. intros sym.
  apply maintains_bind; [keeping fail; auto |]. intros c1.
  apply maintains_bind; [keeping fail; auto |]. intros c5.
  destruct c1 as [c1 |]; [| keeping fail; auto].
  destruct c5 as [c5 |]; [| keeping fail; auto].
  apply maintains_bind; [keeping fail; auto |]. intros allowed'.
  apply maintains_bind; [keeping fail; auto |]. intros _.
  apply maintains_bind; [keeping fail; auto |]. intros _.
  apply maintains_bind; [keeping fail; auto |]. intros currently_open.
  apply maintains_bind; [| keeping fail; auto].
  destruct (Main.last_position_open loc && negb currently_open);
    [| keeping fail; auto].
  apply maintains_bind; [keeping fail; auto |]. intros realized.
  apply maintains_bind; [keeping fail; auto |]. intros funding_pnl.
  apply maintains_bind_gets. intros s1 [Hfree1 _].
  apply maintains_bind_lift. intros l' Hl'.
  assert (Hfree' : unlimited l').
  { destruct (record_trade_config _ _ _ Hl') as [H1 [H2 H3]].
    destruct Hfree1 as [G1 [G2 G3]]. unfold unlimited. rewrite H1, H2, H3. tauto. }
  apply maintains_bind.
  { apply maintains_modify. intros s [_ Hs]. split; assumption. }
  intros _.
  rewrite (unlimited_not_exceeded Hfree').
  keeping fail; auto.
Qed.

Lemma loop_maintains (I : Store -> Prop) (n : nat) :
  (forall loc, maintains I (Main.cycle loc)) ->
  forall loc, maintains I (Main.loop n loc).
Proof.
  intros Hcycle. induction n as [| n IH]; intros loc; simpl.
  - apply maintains_ret.
  - apply maintains_bind; [apply Hcycle | intros loc'; apply IH].
Qed.

(** X17: with the limits of config/risk.py as shipped (none is set), the
    kill switch can never trip: from the objects [main] creates, after any
    number of turns of the loop and however the run ends, trading is still
    allowed and the limits are not exceeded. *)
Theorem kill_switch_idle_as_shipped (sym : string) (utcnow_ms : Z) (s0 : Store)
    (n : nat) (loc : Main.Locals) (w : World) :
  boot sym utcnow_ms = Ok s0 ->
  let s := snd (Main.main n loc w s0) in
  is_trading_allowed s = true /\
  TradeLimits.limits_exceeded (limits s) = false.
Proof.
  intros Hboot s.
  assert (H0 : free_to_trade s0).
  { unfold boot, TradeLimits.init in Hboot.
    destruct (Datetime.utcfromtimestamp_ms utcnow_ms); simpl in Hboot;
      [| discriminate].
    injection Hboot as <-. repeat split; reflexivity. }
  assert (Hmain : maintains free_to_trade (Main.main n loc)).
  { unfold Main.main. apply maintains_try_except.
    - apply loop_maintains. apply cycle_free_to_trade.
    - intros e. pose proof free_to_trade_emit. unfold Main.notify_info.
      keeping fail; auto. }
  destruct (Hmain w s0 H0) as [Hfree Hallowed].
  split; [exact Hallowed | apply unlimited_not_exceeded, Hfree].
Qed.

Section Governed.

Variable I : Store -> Prop.
Variable p : event -> bool.

Lemma governed_intro {A} (n : nat) (m : M A) :
  maintains I m -> spends p n m -> governed I p n m.
Proof. intros Hm Hs w s HI. split; [apply Hm, HI | apply Hs]. Qed.

Lemma governed_bind {A B} (a b : nat) (m : M A) (k : A -> M B) :
  governed I p a m -> (forall x, governed I p b (k x)) ->
  governed I p (a + b) (bind m k).
Proof.
  intros Hm Hk w s HI. unfold bind.
  destruct (Hm w s HI) as [HI1 [evs [Ht Hn]]].
  destruct (m w s) as [[x | e] s1]; simpl in *.
  - destruct (Hk x w s1 HI1) as [HI2 [evs' [Ht' Hn']]].
    split; [exact HI2 |].
    exists (evs ++ evs'). rewrite Ht', Ht, app_assoc. split; [reflexivity |].
    rewrite filter_app, length_app. lia.
  - split; [exact HI1 |]. exists evs. split; [exact Ht | lia].
Qed.

Lemma governed_bind_gets {A B} (n : nat) (g : Store -> A) (k : A -> M B) :
  (forall s0, I s0 -> governed I p n (k (g s0))) ->
  governed I p n (bind (gets g) k).
Proof. intros H w s HI. unfold bind, gets. apply (H s HI w s HI). Qed.

(** A governed computation, run after a prefix that added nothing that
    satisfies [p]. *)
Lemma governed_after {A} (m : M A) (w : World) (s s2 : Store)
    (evs : list event) :
  governed I p 0 m -> I s2 ->
  trace s2 = trace s ++ evs -> filter p evs = [] ->
  filter p (new_events s (snd (m w s2))) = [] /\ I (snd (m w s2)).
Proof.
  intros Hm HI Ht Hnone.
  destruct (Hm w s2 HI) as [HI' [evs' [Ht' Hn]]].
  split; [| exact HI'].
  rewrite (@new_events_trans s s2 _ evs evs' Ht Ht'), filter_app, Hnone. simpl.
  destruct (filter p evs'); [reflexivity | simpl in Hn; lia].
Qed.

End Governed.

Lemma emits_filter_nil (p : event -> bool) {A} (m : M A) (w : World) (s : Store) :
  emits (fun e => p e = false) m ->
  exists evs, trace (snd (m w s)) = trace s ++ evs /\ filter p evs = [].
Proof.
  intros Hm. destruct (Hm w s) as [evs [Ht Hall]].
  exists evs. split; [exact Ht |].
  clear Ht. induction Hall as [| e evs He _ IH]; simpl; [reflexivity |].
  rewrite He. exact IH.
Qed.

Lemma bind_run {A B} (m : M A) (k : A -> M B) (w : World) (s : Store) :
  bind m k w s =
  match m w s with
  | (Ok a, s') => k a w s'
  | (Raise e, s') => (Raise e, s')
  end.
Proof. reflexivity. Qed.

Lemma try_except_run {A} (m : M A) (c : exn -> bool) (h : exn -> M A)
    (w : World) (s : Store) :
  try_except m c h w s =
  match m w s with
  | (Raise e, s') => if c e then h e w s' else (Raise e, s')
  | r => r
  end.
Proof. reflexivity. Qed.

Lemma sync_from_exchange_switch :
  preserves (fun s => (limits s, is_trading_allowed s))
    PositionTracker.sync_from_exchange.
Proof. unfold PositionTracker.sync_from_exchange. frame. Qed.

(** X18: the kill switch holds. When a turn of the main loop starts with
    trading disallowed and the limits, once reset for the clock reading of
    the turn, are still exceeded, the turn sends no market order and ends
    with trading still disallowed. *)
Theorem kill_switch_blocks_entries (loc : Main.Locals) (w : World) (s : Store) :
  is_trading_allowed s = false ->
  (forall l,
      TradeLimits.reset_if_needed
        (time_ms w (trace (snd (PositionTracker.sync_from_exchange w s))))
        (limits s) = Ok l ->
      TradeLimits.limits_exceeded l = true) ->
  let s' := snd (Main.cycle loc w s) in
  filter is_market_order (new_events s s') = [] /\
  is_trading_allowed s' = false.
Proof.
  intros Hoff Hexceeded s'. subst s'.
  destruct (@emits_filter_nil is_market_order _
              PositionTracker.sync_from_exchange w s) as [evs1 [Ht1 Hnone1]];
    [unfold PositionTracker.sync_from_exchange; silent |].
  pose proof (sync_from_exchange_switch w s) as Hkeep.
  set (ends := fun r : res Main.Locals * Store =>
                 filter is_market_order (new_events s (snd r)) = [] /\
                 is_trading_allowed (snd r) = false).
  change (ends (Main.cycle loc w s)).
  unfold Main.cycle.
  rewrite bind_run, try_except_run, bind_run.
  destruct (PositionTracker.sync_from_exchange w s) as [[[] | e] s1];
    simpl in Ht1, Hkeep, Hexceeded.
  - injection Hkeep as Hlimits Hallowed.
    unfold ret at 1. cbn [negb].
    rewrite bind_run. unfold clock_ms at 1.
    rewrite bind_run. unfold gets at 1.
    rewrite bind_run. unfold lift at 1. rewrite Hlimits.
    destruct (TradeLimits.reset_if_needed (time_ms w (trace s1)) (limits s))
      as [l |] eqn:Hreset.
    + rewrite (Hexceeded l eq_refl).
      rewrite bind_run. unfold modify at 1.
      rewrite bind_run. unfold gets at 1. cbn [is_trading_allowed with_limits].
      rewrite Hallowed, Hoff. cbn [negb andb].
      rewrite bind_run. unfold when at 1. unfold ret at 1. cbv beta iota.
      unfold ends.
      match goal with
      | |- context [snd (?rest w (with_limits l s1))] =>
          apply (@governed_after (fun s => is_trading_allowed s = false)
                   is_market_order _ rest w s (with_limits l s1) evs1);
          [| cbn; congruence | exact Ht1 | exact Hnone1]
      end.
      assert (He : forall (e : event) (s : Store),
                 is_trading_allowed s = false ->
                 is_trading_allowed (emit e s) = false) by (intros ? ? H; exact H).
      assert (Hquiet : forall (A : Type) (m : M A),
                 maintains (fun s => is_trading_allowed s = false) m ->
                 emits (fun e => is_market_order e = false) m ->
                 governed (fun s => is_trading_allowed s = false)
                   is_market_order 0 m).
      { intros A m Hm Hq. apply governed_intro; [exact Hm |].
        apply spends_of_emits, Hq. }
      apply (@governed_bind _ _ _ _ 0 0); [apply Hquiet; [keeping fail; auto | silent] |].
      intros sym.
      apply (@governed_bind _ _ _ _ 0 0); [apply Hquiet; [keeping fail; auto | silent] |].
      intros c1.
      apply (@governed_bind _ _ _ _ 0 0); [apply Hquiet; [keeping fail; auto | silent] |].
      intros c5.
      destruct c1 as [c1 |]; [| apply Hquiet; [keeping fail; auto | silent]].
      destruct c5 as [c5 |]; [| apply Hquiet; [keeping fail; auto | silent]].
      apply governed_bind_gets. intros s0 Hs0. rewrite Hs0.
      apply Hquiet; [| unfold Main.notify_warning; silent].
      unfold Main.notify_warning, KillSwitch.evaluate.
      keeping fail; auto.
      all: apply maintains_modify; intros; first [assumption | reflexivity].
    + unfold ends. simpl. split; [| congruence].
      rewrite (@new_events_app s s1 evs1 Ht1). exact Hnone1.
  - injection Hkeep as Hlimits Hallowed.
    destruct (catches_BinanceAPIError e).
    + unfold ends, Main.notify_error, log, modify, Main._sleep_until_next_minute,
        bind, ret. simpl.
      assert (Hnew : new_events s (emit Sleep (emit (Log ERROR "Notifier"
                                     "Position sync failed") s1))
                     = evs1 ++ [Log ERROR "Notifier" "Position sync failed"; Sleep]).
      { apply new_events_app. simpl. rewrite Ht1, <- !app_assoc. reflexivity. }
      destruct (sleep w _) as [[] | e']; simpl;
        (split; [| congruence]);
        rewrite Hnew, filter_app, Hnone1; reflexivity.
    + unfold ends. simpl. split; [| congruence].
      rewrite (@new_events_app s s1 evs1 Ht1). exact Hnone1.
Qed.

(** X19: trading resumes as soon as the limits are no longer exceeded,
    not only on a new day. When a turn of the main loop starts with trading
    disallowed, the tracker reconciles, and the limits, once reset for the
    clock reading of the turn, are not exceeded (after an hour rollover, for
    a limit on trades per hour), the turn allows trading again and logs the
    reset of the kill switch. *)
Theorem kill_switch_rearms (loc : Main.Locals) (w : World) (s : Store)
    (l : TradeLimits.t) :
  is_trading_allowed s = false ->
  fst (PositionTracker.sync_from_exchange w s) = Ok tt ->
  TradeLimits.reset_if_needed
    (time_ms w (trace (snd (PositionTracker.sync_from_exchange w s))))
    (limits s) = Ok l ->
  TradeLimits.limits_exceeded l = false ->
  In kill_switch_reset (new_events s (snd (Main.cycle loc w s))).
Proof.
  intros Hoff Hsync Hreset Hfine.
  destruct (@emits_filter_nil (fun _ => false) _
              PositionTracker.sync_from_exchange w s) as [evs1 [Ht1 _]];
    [unfold PositionTracker.sync_from_exchange; silent |].
  pose proof (sync_from_exchange_switch w s) as Hkeep.
  set (ends := fun r : res Main.Locals * Store =>
                 In kill_switch_reset (new_events s (snd r))).
  change (ends (Main.cycle loc w s)).
  unfold Main.cycle.
  rewrite bind_run, try_except_run, bind_run.
  destruct (PositionTracker.sync_from_exchange w s) as [[[] | e] s1];
    simpl in Ht1, Hkeep, Hsync, Hreset; [| discriminate].
  injection Hkeep as Hlimits Hallowed.
  unfold ret at 1. cbn [negb].
  rewrite bind_run. unfold clock_ms at 1.
  rewrite bind_run. unfold gets at 1.
  rewrite bind_run. unfold lift at 1. rewrite Hlimits, Hreset, Hfine.
  rewrite bind_run. unfold modify at 1.
  rewrite bind_run. unfold gets at 1. cbn [is_trading_allowed with_limits].
  rewrite Hallowed, Hoff. cbn [negb andb].
  rewrite bind_run. unfold when at 1.
  unfold KillSwitch.reset_daily at 1.
  rewrite bind_run. unfold gets at 1. cbn [is_trading_allowed with_limits].
  rewrite Hallowed, Hoff. cbn [negb].
  rewrite bind_run. unfold when at 1. unfold log at 1. unfold modify at 1.
  unfold modify at 1. cbv beta iota.
  match goal with
  | |- ends (?rest w ?s2) =>
      destruct (@emits_filter_nil (fun _ => false) _ rest w s2)
        as [evs [Ht _]];
      [unfold Main.notify_warning; silent |];
      unfold ends;
      rewrite (@new_events_app s _ (evs1 ++ [kill_switch_reset] ++ evs))
  end.
  - apply in_or_app. right. left. reflexivity.
  - rewrite Ht. simpl. rewrite Ht1, <- !app_assoc. reflexivity.
Qed.

(* ===================================================================== *)
(** * Candles in the main loop                                            *)
(* ===================================================================== *)

Lemma emits_bind_returns (P : event -> Prop) {A B} (m : M A) (k : A -> M B) :
  emits P m ->
  (forall x, (exists w s, fst (m w s) = Ok x) -> emits P (k x)) ->
  emits P (bind m k).
Proof.
  intros Hm Hk w s. unfold bind.
  destruct (Hm w s) as [evs [Ht Hp]].
  destruct (m w s) as [[a | e] s1] eqn:Hrun; simpl in *.
  - destruct (Hk a (ex_intro _ w (ex_intro _ s (f_equal fst Hrun))) w s1)
      as [evs' [Ht' Hp']].
    exists (evs ++ evs'). rewrite Ht', Ht, app_assoc.
    split; [reflexivity | apply Forall_app; split; assumption].
  - exists evs. split; assumption.
Qed.

Lemma fetch_closed_klines_some (sym : string) (i : Interval) (limit : Z)
    (w : World) (s : Store) (r : option Candles) :
  fst (MarketDataService.fetch_closed_klines sym i limit w s) = Ok r ->
  r <> None.
Proof.
  unfold MarketDataService.fetch_closed_klines.
  rewrite bind_run. destruct (call _ w s) as [[raw | e] s1]; [| discriminate].
  rewrite bind_run.
  destruct (MarketDataService._normalize_klines raw i w s1) as [[c | e] s2];
    [| discriminate].
  unfold bind, log, modify, ret. simpl. intros H. injection H as <-. discriminate.
Qed.

Lemma cycle_never_skips (loc : Main.Locals) :
  emits (fun e => e <> candles_not_ready) (Main.cycle loc).
Proof.
  unfold Main.cycle.
  apply emits_bind; [unfold Main.notify_error; silent | intros synced].
  destruct synced; cbn [negb]; [| silent].
  do 7 (apply emits_bind; [silent | intros ?]).
  apply emits_bind_returns; [silent | intros c1 [w1 [s1 H1]]].
  apply emits_bind_returns; [silent | intros c5 [w5 [s5 H5]]].
  apply fetch_closed_klines_some in H1, H5.
  destruct c1 as [c1 |]; [| congruence].
  destruct c5 as [c5 |]; [| congruence].
  unfold Main.notify_warning. silent.
Qed.

(** X20: the branch of [main] that skips a turn because candles are not
    ready is dead: [fetch_closed_klines] returns candles or raises, never
    [None], so in any run the line "Skipping cycle; candles not ready" is
    never logged. *)
Theorem main_never_skips_for_candles (n : nat) (loc : Main.Locals) :
  emits (fun e => e <> candles_not_ready) (Main.main n loc).
Proof.
  unfold Main.main. apply emits_try_except.
  - apply loop_emits. apply cycle_never_skips.
  - intros e. unfold Main.notify_info. silent.
Qed.

(* ===================================================================== *)
(** * The pace of the main loop                                           *)
(* ===================================================================== *)

Lemma paced_after_quiet {A B} (m : M A) (k : A -> M B) :
  spends is_sleep 0 m -> (forall a, paced (k a)) -> paced (bind m k).
Proof.
  intros Hm Hk w s. unfold bind.
  destruct (Hm w s) as [evs [Ht Hn]].
  destruct (m w s) as [[a | e] s1]; simpl in *.
  - destruct (Hk a w s1) as [evs' [Ht' [Hle Hok]]].
    exists (evs ++ evs'). rewrite Ht', Ht, app_assoc.
    unfold sleeps in *. rewrite filter_app, length_app.
    split; [reflexivity | split; [lia |]].
    intros b Hb. rewrite (Hok b Hb). lia.
  - exists evs. unfold sleeps.
    split; [exact Ht | split; [lia | discriminate]].
Qed.

Lemma paced_then_quiet {A B} (m : M A) (k : A -> M B) :
  paced m -> (forall a, spends is_sleep 0 (k a)) -> paced (bind m k).
Proof.
  intros Hm Hk w s. unfold bind.
  destruct (Hm w s) as [evs [Ht [Hle Hok]]].
  destruct (m w s) as [[a | e] s1]; simpl in *.
  - destruct (Hk a w s1) as [evs' [Ht' Hn']].
    exists (evs ++ evs'). rewrite Ht', Ht, app_assoc.
    unfold sleeps in *. rewrite filter_app, length_app.
    split; [reflexivity | split; [specialize (Hok a eq_refl); lia |]].
    intros b _. rewrite (Hok a eq_refl). lia.
  - exists evs. split; [exact Ht | split; [exact Hle | discriminate]].
Qed.

Lemma paced_sleep : paced Main._sleep_until_next_minute.
Proof.
  intros w s. exists [Sleep].
  split; [reflexivity | split; [apply Nat.le_refl | reflexivity]].
Qed.

(** Walks a computation that ends with its only wait. *)
Ltac pace :=
  repeat first
    [ apply paced_after_quiet; [solve [apply spends_silent; silent] | intros ?]
    | match goal with
      | |- paced (match ?x with _ => _ end) => destruct x
      end ];
  try (apply paced_then_quiet;
       [apply paced_sleep | intros ?; apply spends_silent; silent]).

Lemma cycle_paced (loc : Main.Locals) : paced (Main.cycle loc).
Proof.
  intros w s.
  destruct (@emits_filter_nil is_sleep _
              PositionTracker.sync_from_exchange w s) as [evs1 [Ht1 Hnone1]];
    [unfold PositionTracker.sync_from_exchange; silent |].
  set (ends := fun r : res Main.Locals * Store =>
                 exists evs, trace (snd r) = trace s ++ evs /\
                             (sleeps evs <= 1)%nat /\
                             forall a, fst r = Ok a -> sleeps evs = 1%nat).
  change (ends (Main.cycle loc w s)).
  unfold Main.cycle.
  rewrite bind_run, try_except_run, bind_run.
  destruct (PositionTracker.sync_from_exchange w s) as [[[] | e] s1];
    simpl in Ht1.
  - unfold ret at 1. cbn [negb]. cbv beta iota.
    match goal with
    | |- ends (?rest w s1) =>
        assert (Hrest : paced rest) by (unfold Main.notify_warning; pace);
        destruct (Hrest w s1) as [evs [Ht [Hle Hok]]]
    end.
    exists (evs1 ++ evs).
    rewrite Ht, Ht1, app_assoc. unfold sleeps in *.
    rewrite filter_app, length_app, Hnone1. simpl.
    split; [reflexivity | split; [exact Hle | exact Hok]].
  - destruct (catches_BinanceAPIError e).
    + unfold ends, Main.notify_error, log, modify, Main._sleep_until_next_minute,
        bind, ret. simpl.
      exists (evs1 ++ [Log ERROR "Notifier" "Position sync failed"; Sleep]).
      unfold sleeps. rewrite filter_app, length_app, Hnone1.
      destruct (sleep w _) as [[] | e']; simpl;
        (split; [rewrite Ht1, <- !app_assoc; reflexivity |]);
        (split; [apply Nat.le_refl |]); [reflexivity | discriminate].
    + exists evs1. unfold sleeps. rewrite Hnone1. simpl.
      split; [exact Ht1 | split; [lia | discriminate]].
Qed.

(** X21: the main loop keeps its pace. A run of [n] turns that is still
    going has waited for the next minute exactly [n] times, once in every
    turn, whichever way each turn went; a run that an exception ended has
    waited at most [n] times. The loop never spins without waiting. *)
Theorem loop_waits_every_turn (n : nat) (loc : Main.Locals) (w : World)
    (s : Store) :
  let r := Main.loop n loc w s in
  (sleeps (new_events s (snd r)) <= n)%nat /\
  forall st, fst r = Ok st -> sleeps (new_events s (snd r)) = n.
Proof.
  cbv zeta. revert loc w s. induction n as [| n IH]; intros loc w s.
  - simpl. unfold new_events. rewrite skipn_all. split; [apply Nat.le_refl | reflexivity].
  - simpl. rewrite bind_run.
    destruct (cycle_paced loc w s) as [evs [Ht [Hle Hok]]].
    destruct (Main.cycle loc w s) as [[loc' | e] s1]; simpl in Ht, Hok |- *.
    + destruct (IH loc' w s1) as [Hle' Hok'].
      assert (Hnew : new_events s (snd (Main.loop n loc' w s1))
                     = evs ++ new_events s1 (snd (Main.loop n loc' w s1))).
      { destruct (@loop_emits (fun _ => True) n
                    (fun l => ltac:(unfold Main.cycle, Main.notify_error,
                                      Main.notify_warning; walk fail; exact I))
                    loc' w s1) as [evs' [Ht' _]].
        rewrite (@new_events_app s1 _ evs' Ht').
        apply new_events_app. rewrite Ht', Ht, app_assoc. reflexivity. }
      rewrite Hnew. unfold sleeps in *. rewrite filter_app, length_app.
      rewrite (Hok loc' eq_refl).
      split; [lia |]. intros st Hst. rewrite (Hok' st Hst). reflexivity.
    + rewrite (@new_events_app s s1 evs Ht).
      split; [lia | discriminate].
Qed.

(* ===================================================================== *)
(** * The two protective orders                                           *)
(* ===================================================================== *)

Lemma truthy_id_nonzero (id : option Z) (i : Z) :
  TpSlManager.truthy_id id = Some i -> id = Some i /\ i <> 0%Z.
Proof.
  unfold TpSlManager.truthy_id. destruct id as [j |]; [| discriminate].
  destruct (j =? 0)%Z eqn:Hj; [discriminate |].
  intros H. injection H as <-. apply Z.eqb_neq in Hj. split; [reflexivity | exact Hj].
Qed.

Lemma placement_failure_paired (w : World) (s : Store) :
  let r := (log ERROR "TpSlManager" "Failed to place TP/SL" ;;;
            TpSlManager._cancel_outstanding "TP/SL placement failed" ;;;
            modify (with_is_protected false))%M w s in
  fst r = Ok tt -> legs_paired (snd r).
Proof.
  cbv zeta.
  set (ends := fun r : res unit * Store => fst r = Ok tt -> legs_paired (snd r)).
  match goal with |- fst ?run = _ -> _ => change (ends run) end.
  rewrite bind_run. unfold log at 1. unfold modify at 1. rewrite bind_run.
  pose proof (cancel_outstanding_clears "TP/SL placement failed" w
                (emit (Log ERROR "TpSlManager" "Failed to place TP/SL") s)) as Hc.
  destruct (TpSlManager._cancel_outstanding _ w _) as [[[] | e] s1];
    [| discriminate].
  destruct (Hc eq_refl) as [Htp [Hsl _]]. simpl in Htp, Hsl.
  intros _. left. simpl. split; assumption.
Qed.

Lemma place_protection_paired (p : Position.t) (w : World) (s : Store) :
  fst (TpSlManager._place_protection p w s) = Ok tt ->
  legs_paired (snd (TpSlManager._place_protection p w s)).
Proof.
  set (ends := fun r : res unit * Store => fst r = Ok tt -> legs_paired (snd r)).
  change (ends (TpSlManager._place_protection p w s)).
  unfold TpSlManager._place_protection.
  destruct (TpSlManager._compute_prices _ _) as [tp_price sl_price].
  rewrite try_except_run, bind_run.
  destruct (OrderManager.place_take_profit _ _ _ tp_price w s)
    as [[tp_order | e] s1].
  - destruct (TpSlManager.truthy_id (orderId tp_order)) as [tp_id |] eqn:Htp.
    + rewrite bind_run. unfold modify at 1. rewrite bind_run.
      match goal with
      | |- context [OrderManager.place_stop_loss ?sym ?side ?q ?price w ?s2] =>
          pose proof (@place_stop_loss_frame _ tp_order_id sym side q price
                        (fun _ _ => eq_refl) (fun _ _ => eq_refl) w s2) as Hkeep;
          destruct (OrderManager.place_stop_loss sym side q price w s2)
            as [[sl_order | e] s2']
      end; simpl in Hkeep.
      * destruct (TpSlManager.truthy_id (orderId sl_order)) as [sl_id |] eqn:Hsl.
        -- unfold bind, modify, log. simpl. intros _. right.
           exists tp_id, sl_id. simpl.
           destruct (truthy_id_nonzero _ Htp) as [_ Hn1].
           destruct (truthy_id_nonzero _ Hsl) as [_ Hn2].
           repeat split; assumption.
        -- unfold raise. simpl. exact (placement_failure_paired w s2').
      * destruct (catches_ValueError_BinanceAPIError e);
          [exact (placement_failure_paired w s2') | discriminate].
    + unfold raise. simpl. exact (placement_failure_paired w s1).
  - destruct (catches_ValueError_BinanceAPIError e);
      [exact (placement_failure_paired w s1) | discriminate].
Qed.

Lemma fetch_remote_position_manager :
  preserves (fun s => (tp_order_id s, sl_order_id s))
    TpSlManager._fetch_remote_position.
Proof.
  unfold TpSlManager._fetch_remote_position, PositionTracker.set_position. frame.
Qed.

Section Keeping.

Variable I : Store -> Prop.

Lemma keeps_of_maintains {A} (m : M A) : maintains I m -> keeps I m.
Proof. intros Hm w s a HI _. apply Hm, HI. Qed.

Lemma keeps_then {A B} (m : M A) (k : A -> M B) :
  keeps I m -> (forall a, keeps I (k a)) -> keeps I (bind m k).
Proof.
  intros Hm Hk w s b HI. unfold bind.
  specialize (Hm w s). destruct (m w s) as [[a | e] s1]; simpl in *.
  - intros Hok. apply (Hk a w s1 b); [apply (Hm a HI eq_refl) | exact Hok].
  - discriminate.
Qed.

Lemma maintains_of_preserves {A X} (f : Store -> X) (m : M A) :
  (forall s s', f s' = f s -> I s -> I s') ->
  preserves f m -> maintains I m.
Proof. intros Hf Hm w s HI. apply (Hf s); [apply Hm | exact HI]. Qed.

End Keeping.

Lemma sync_keeps_legs_paired : keeps legs_paired TpSlManager.sync.
Proof.
  intros w s [] Hpaired. rewrite sync_run.
  pose proof (fetch_remote_position_manager w s) as Hids.
  destruct (TpSlManager._fetch_remote_position w s) as [[[p |] | e] s1];
    simpl in Hids.
  - destruct (is_protected s1).
    + intros _. simpl. injection Hids as Htp Hsl.
      unfold legs_paired in *. rewrite Htp, Hsl. exact Hpaired.
    + destruct (TpSlManager._cancel_outstanding _ w s1) as [[u | e] s2];
        [| discriminate].
      pose proof (place_protection_paired p w s2) as Hplace.
      destruct (TpSlManager._place_protection p w s2) as [[[] | e] s3];
        [| discriminate].
      intros _. exact (Hplace eq_refl).
  - pose proof (cancel_outstanding_clears "Position closed on exchange" w s1) as Hc.
    destruct (TpSlManager._cancel_outstanding _ w s1) as [[[] | e] s2];
      [| discriminate].
    destruct (Hc eq_refl) as [Htp [Hsl _]]. simpl in Htp, Hsl.
    intros _. rewrite clear_position_run. left.
    destruct (position s2); simpl; split; assumption.
  - discriminate.
Qed.

Lemma cycle_keeps_legs_paired (loc : Main.Locals) :
  keeps legs_paired (Main.cycle loc).
Proof.
  assert (Hframe : forall (A : Type) (m : M A),
            preserves manager_fields m -> keeps legs_paired m).
  { intros A m Hm. apply keeps_of_maintains.
    apply (@maintains_of_preserves legs_paired A _ manager_fields); [| exact Hm].
    intros s s' H. unfold manager_fields in H. injection H as Htp Hsl _.
    unfold legs_paired. rewrite Htp, Hsl. tauto. }
  unfold Main.cycle.
  apply keeps_then.
  { apply Hframe. unfold Main.notify_error.
    repeat first [ apply sync_from_exchange_manager | apply preserves_sleep
                 | progress frame ]. }
  intros synced. destruct synced; cbn [negb]; [| apply Hframe; frame].
  apply keeps_then; [apply Hframe; apply preserves_clock |]. intros now_ms.
  do 4 (apply keeps_then; [apply Hframe; frame |]; intros ?).
  apply keeps_then.
  { apply Hframe. apply preserves_when;
      first [apply reset_daily_manager | reflexivity]. }
  intros _.
  apply keeps_then; [apply Hframe; frame |]. intros sym.
  do 2 (apply keeps_then;
        [apply Hframe; apply fetch_closed_klines_manager |]; intros ?).
  assert (Hskip : keeps legs_paired
            (bind (log INFO "Main" "Skipping cycle; candles not ready")
               (fun _ => bind Main._sleep_until_next_minute (fun _ => ret loc)))).
  { apply Hframe. repeat first [apply preserves_sleep | progress frame]. }
  match goal with
  | |- keeps _ (match ?c1 with Some _ => _ | None => _ end) =>
      destruct c1; [| exact Hskip]
  end.
  match goal with
  | |- keeps _ (match ?c5 with Some _ => _ | None => _ end) =>
      destruct c5; [| exact Hskip]
  end.
  apply keeps_then; [apply Hframe; frame |]. intros allowed'.
  apply keeps_then.
  { apply Hframe. destruct allowed'; [apply process_manager | frame]. }
  intros _.
  apply keeps_then; [apply sync_keeps_legs_paired |]. intros _.
  apply Hframe.
  unfold PositionTracker.has_open_position, Pnl.realized_pnl_since,
    Pnl.funding_pnl_since, Main.notify_warning.
  repeat first
    [ apply preserves_sleep | apply evaluate_manager | progress frame ].
Qed.

(** X22: the manager never stays half protected. From the objects [main]
    creates, after any number of completed turns of the loop the manager
    holds the ids of both protective orders, the take-profit and the
    stop-loss, or none: a placement that fails after the first order was
    accepted cancels it and forgets it before the turn ends. *)
Theorem loop_keeps_legs_paired (sym : string) (utcnow_ms : Z) (s0 : Store)
    (n : nat) (loc : Main.Locals) (w : World) (st : Main.status) :
  boot sym utcnow_ms = Ok s0 ->
  fst (Main.loop n loc w s0) = Ok st ->
  legs_paired (snd (Main.loop n loc w s0)).
Proof.
  intros Hboot.
  assert (H0 : legs_paired s0).
  { unfold boot in Hboot. destruct (TradeLimits.init utcnow_ms); simpl in Hboot;
      [| discriminate].
    injection Hboot as <-. left. split; reflexivity. }
  clear Hboot. revert loc s0 H0.
  induction n as [| n IH]; intros loc s0 H0; simpl.
  - intros _. exact H0.
  - rewrite bind_run.
    pose proof (@cycle_keeps_legs_paired loc w s0) as Hcycle.
    destruct (Main.cycle loc w s0) as [[loc' | e] s1]; [| discriminate].
    apply IH. apply (Hcycle loc' H0 eq_refl).
Qed.

(* ===================================================================== *)
(** * Entries and open positions                                          *)
(* ===================================================================== *)

(** The reconciliation of the tracker neither reads nor writes the
    re-entrancy flag of the executor. *)
Lemma sync_from_exchange_in_cycle (b : bool) (w : World) (s : Store) :
  PositionTracker.sync_from_exchange w (with_in_cycle b s) =
  (fst (PositionTracker.sync_from_exchange w s),
   with_in_cycle b (snd (PositionTracker.sync_from_exchange w s))).
Proof.
  unfold PositionTracker.sync_from_exchange, try_except, bind, call, ret, log,
    modify, gets. simpl.
  destruct (get_account_info w (trace s)) as [info | e]; simpl.
  - destruct (PositionTracker.find_remote (symbol s) (positions info)) as [remote |];
      destruct (position s) as [loc |]; simpl;
      try destruct (PositionTracker.mismatch loc remote); reflexivity.
  - destruct e; reflexivity.
Qed.

(** X23: [process] sends an order only for a signal and a flat tracker.
    If the tracker, once reconciled with the exchange, holds a position of
    positive quantity, or if the strategy gives no signal, the call sends no
    order request of any kind; and a call that was not a re-entrant one
    leaves the tracker with exactly the reconciled position. *)
Theorem no_entry_without_signal_or_when_open (md : MarketData) (w : World)
    (s : Store) :
  let s1 := snd (PositionTracker.sync_from_exchange w s) in
  let s' := snd (EntryExecutor.process md w s) in
  open_position s1 = true \/ generate_signal w md = None ->
  order_requests (new_events s s') = [] /\
  (_in_cycle s = false -> position s' = position s1).
Proof.
  intros s1 s' Hidle. subst s1 s'.
  destruct (@emits_filter_nil is_order_request _
              PositionTracker.sync_from_exchange w s) as [evs1 [Ht1 Hnone1]];
    [unfold PositionTracker.sync_from_exchange; silent |].
  set (ends := fun r : res unit * Store =>
                 order_requests (new_events s (snd r)) = [] /\
                 (_in_cycle s = false ->
                  position (snd r)
                  = position (snd (PositionTracker.sync_from_exchange w s)))).
  change (ends (EntryExecutor.process md w s)).
  unfold EntryExecutor.process.
  rewrite bind_run. unfold gets at 1.
  destruct (_in_cycle s) eqn:Hbusy.
  - unfold ends, log, modify. simpl. split; [| discriminate].
    new_trace. reflexivity.
  - rewrite bind_run. unfold modify at 1. unfold try_finally.
    unfold EntryExecutor.attempt_entry. rewrite bind_run.
    rewrite sync_from_exchange_in_cycle.
    destruct (PositionTracker.sync_from_exchange w s) as [[[] | e] s1];
      simpl in Ht1, Hidle |- *.
    + rewrite bind_run.
      unfold PositionTracker.has_open_position at 1. unfold gets at 1.
      cbn [position with_in_cycle].
      unfold open_position in Hidle.
      destruct (match position s1 with
                | Some p => PyFloat.gt0 (Position.quantity p)
                | None => false
                end).
      * unfold ends, log, modify. simpl. split; [| reflexivity].
        rewrite (@new_events_app s _
                   (evs1 ++ [Log INFO "EntryExecutor"
                               "Open position detected; skipping entry"])).
        -- unfold order_requests in *. rewrite filter_app, Hnone1. reflexivity.
        -- simpl. rewrite Ht1, <- app_assoc. reflexivity.
      * destruct Hidle as [Hopen | Hnone]; [discriminate |].
        rewrite bind_run. unfold ask at 1. rewrite Hnone.
        unfold ends, ret, modify. simpl. split; [| reflexivity].
        rewrite (@new_events_app s _ evs1); [exact Hnone1 | exact Ht1].
    + unfold ends, modify. simpl. split; [| reflexivity].
      rewrite (@new_events_app s _ evs1); [exact Hnone1 | exact Ht1].
Qed.

(* ===================================================================== *)
(** * infra/retry.py                                                      *)
(* ===================================================================== *)

Section RetryFacts.

Import Retry.

Variables St A : Type.
Variable func : St -> res A * St.
Variable sleep : float -> St -> res unit * St.
Variable retry_on : exn -> bool.
Variable max_retries : Z.
Variable backoff_factor : float.

Lemma loop_bounded (k : nat) :
  forall (delay : float) (attempt : Z) (s : St),
    Z.to_nat (max_retries - attempt) = k ->
    exists r s' steps,
      (forall fuel, (k < fuel)%nat ->
         loop func sleep retry_on max_retries fuel delay attempt s
         = Some (r, s', steps)) /\
      (calls steps <= S k)%nat /\
      waits steps = doubling (List.length (waits steps)) delay /\
      (List.length (waits steps) <= k)%nat.
Proof.
  induction k as [| k IH]; intros delay attempt s Hk.
  - destruct (func s) as [[a | e] s1] eqn:Hf.
    + exists (Ok a), s1, [Call]. split; [| repeat split; first [reflexivity | unfold calls, waits; simpl; lia]].
      intros [| fuel] Hfuel; [lia |]. simpl. rewrite Hf. reflexivity.
    + destruct (retry_on e) eqn:Hre.
      * exists (Raise e), s1, [Call; Exhausted (attempt + 1 - 1)%Z].
        split; [| repeat split; first [reflexivity | unfold calls, waits; simpl; lia]].
        intros [| fuel] Hfuel; [lia |]. simpl. rewrite Hf, Hre.
        assert (Hex : (max_retries <? attempt + 1)%Z = true)
          by (apply Z.ltb_lt; lia).
        rewrite Hex. reflexivity.
      * exists (Raise e), s1, [Call]. split; [| repeat split; first [reflexivity | unfold calls, waits; simpl; lia]].
        intros [| fuel] Hfuel; [lia |]. simpl. rewrite Hf, Hre. reflexivity.
  - destruct (func s) as [[a | e] s1] eqn:Hf.
    + exists (Ok a), s1, [Call]. split; [| repeat split; first [reflexivity | unfold calls, waits; simpl; lia]].
      intros [| fuel] Hfuel; [lia |]. simpl. rewrite Hf. reflexivity.
    + destruct (retry_on e) eqn:Hre.
      * assert (Hex : (max_retries <? attempt + 1)%Z = false)
          by (apply Z.ltb_ge; lia).
        destruct (sleep delay s1) as [[[] | e'] s2] eqn:Hs.
        -- destruct (IH (delay * 2)%float (attempt + 1)%Z s2 ltac:(lia))
             as [r [s3 [steps [Hrun [Hc [Hw Hl]]]]]].
           exists r, s3, (Call :: Warn (attempt + 1) :: Wait delay :: steps).
           split; [| split; [| split]].
           ++ intros [| fuel] Hfuel; [lia |]. simpl.
              rewrite Hf, Hre, Hex, Hs, (Hrun fuel ltac:(lia)). reflexivity.
           ++ unfold calls in *. simpl. lia.
           ++ unfold waits in *. simpl. rewrite <- Hw. reflexivity.
           ++ unfold waits in *. simpl. lia.
        -- exists (Raise e'), s2, [Call; Warn (attempt + 1); Wait delay].
           split; [| repeat split; first [reflexivity | unfold calls, waits; simpl; lia]].
           intros [| fuel] Hfuel; [lia |]. simpl.
           rewrite Hf, Hre, Hex, Hs. reflexivity.
      * exists (Raise e), s1, [Call]. split; [| repeat split; first [reflexivity | unfold calls, waits; simpl; lia]].
        intros [| fuel] Hfuel; [lia |]. simpl. rewrite Hf, Hre. reflexivity.
Qed.

(** X24: a call through [retry] always ends: whatever the wrapped
    function and [time.sleep] do, the loop is left after at most
    [max_retries + 1] calls of the function (one call when [max_retries] is
    negative) and at most [max_retries] sleeps, and the delays slept are
    [backoff_factor], twice that, four times that, and so on. *)
Theorem retry_bounded (s : St) :
  exists r s' steps,
    (forall fuel, (Z.to_nat max_retries < fuel)%nat ->
       wrapper func sleep retry_on max_retries backoff_factor fuel s
       = Some (r, s', steps)) /\
    (calls steps <= S (Z.to_nat max_retries))%nat /\
    waits steps = doubling (List.length (waits steps)) backoff_factor /\
    (List.length (waits steps) <= Z.to_nat max_retries)%nat.
Proof.
  unfold wrapper.
  apply (@loop_bounded (Z.to_nat max_retries) backoff_factor 0%Z s).
  rewrite Z.sub_0_r. reflexivity.
Qed.

Lemma loop_exhausts (k : nat) :
  (forall s, exists e s1, func s = (Raise e, s1) /\ retry_on e = true) ->
  (forall d s, exists s', sleep d s = (Ok tt, s')) ->
  forall (delay : float) (attempt : Z) (s : St),
    (attempt <= max_retries)%Z ->
    Z.to_nat (max_retries - attempt) = k ->
    exists e s' steps,
      loop func sleep retry_on max_retries (S k) delay attempt s
      = Some (Raise e, s', steps) /\
      retry_on e = true /\
      calls steps = S k /\
      waits steps = doubling k delay /\
      last steps Call = Exhausted max_retries.
Proof.
  intros Hfunc Hsleep.
  induction k as [| k IH]; intros delay attempt s Hle Hk.
  - destruct (Hfunc s) as [e [s1 [Hf Hre]]].
    exists e, s1, [Call; Exhausted (attempt + 1 - 1)%Z].
    assert (Hex : (max_retries <? attempt + 1)%Z = true)
      by (apply Z.ltb_lt; lia).
    simpl. rewrite Hf, Hre, Hex.
    repeat split; try reflexivity. f_equal. lia.
  - destruct (Hfunc s) as [e [s1 [Hf Hre]]].
    destruct (Hsleep delay s1) as [s2 Hs].
    assert (Hex : (max_retries <? attempt + 1)%Z = false)
      by (apply Z.ltb_ge; lia).
    destruct (IH (delay * 2)%float (attempt + 1)%Z s2 ltac:(lia) ltac:(lia))
      as [e' [s3 [steps [Hrun [Hre' [Hc [Hw Hlast]]]]]]].
    exists e', s3, (Call :: Warn (attempt + 1) :: Wait delay :: steps).
    change (loop func sleep retry_on max_retries (S (S k)) delay attempt s)
      with (match func s with
            | (Ok a, s1) => Some (Ok a, s1, [Call])
            | (Raise e, s1) =>
                if retry_on e then
                  if (max_retries <? attempt + 1)%Z
                  then Some (Raise e, s1, [Call; Exhausted (attempt + 1 - 1)%Z])
                  else
                    match sleep delay s1 with
                    | (Ok _, s2) =>
                        match loop func sleep retry_on max_retries (S k)
                                (delay * 2)%float (attempt + 1)%Z s2 with
                        | Some (r, s3, steps) =>
                            Some (r, s3,
                                  Call :: Warn (attempt + 1) :: Wait delay :: steps)
                        | None => None
                        end
                    | (Raise e', s2) =>
                        Some (Raise e', s2, [Call; Warn (attempt + 1); Wait delay])
                    end
                else Some (Raise e, s1, [Call])
            end).
    rewrite Hf, Hre, Hex, Hs, Hrun.
    split; [reflexivity | split; [exact Hre' |]].
    split; [unfold calls in *; simpl; lia |].
    split; [unfold waits in *; simpl; rewrite Hw; reflexivity |].
    destruct steps as [| x steps]; [discriminate Hc |].
    exact Hlast.
Qed.

(** X25: when every call of the wrapped function raises an exception
    that is retried, and no sleep is interrupted, a call through [retry]
    with [max_retries >= 0] calls the function [max_retries + 1] times,
    sleeps [max_retries] times with doubling delays, and re-raises; the
    error it logs last counts [max_retries] attempts, one less than the
    calls made. *)
Theorem retry_exhausts (s : St) :
  (0 <= max_retries)%Z ->
  (forall s, exists e s1, func s = (Raise e, s1) /\ retry_on e = true) ->
  (forall d s, exists s', sleep d s = (Ok tt, s')) ->
  exists e s' steps,
    wrapper func sleep retry_on max_retries backoff_factor
      (S (Z.to_nat max_retries)) s = Some (Raise e, s', steps) /\
    retry_on e = true /\
    calls steps = S (Z.to_nat max_retries) /\
    waits steps = doubling (Z.to_nat max_retries) backoff_factor /\
    last steps Call = Exhausted max_retries.
Proof.
  intros Hpos Hfunc Hsleep. unfold wrapper.
  apply loop_exhausts; [exact Hfunc | exact Hsleep | exact Hpos |].
  rewrite Z.sub_0_r. reflexivity.
Qed.

End RetryFacts.

(* ===================================================================== *)
(** * Calls of the client, and HTTP requests                              *)
(* ===================================================================== *)

(** The transport of the client executes a request at most four times:
    once, and once more after each of at most three transport errors. *)
Lemma transport_sends_at_most_four : BinanceTransport.sends_at_most 4.
Proof.
  intros St A body sleep s.
  destruct (@loop_bounded St A body sleep BinanceTransport.retry_on
              BinanceTransport.max_retries 3
              BinanceTransport.backoff_factor 0%Z s eq_refl)
    as [r [s' [steps [Hrun [Hcalls _]]]]].
  exists r, s', steps. split; [| exact Hcalls].
  intros fuel Hfuel. apply Hrun. exact Hfuel.
Qed.

(** X11: one call of [sync] calls the client's [place_take_profit] at most
    once and its [place_stop_loss] at most once, and never its
    [place_market_order], however the exchange answers and however the
    call ends. A call of the client is not one HTTP request: each of these
    methods is one [_signed_post], which [@retry(max_retries=3)] executes
    again after a transport error, at most four times in all; so one call
    of [sync] may POST a take-profit order up to four times, and a
    stop-loss order up to four times. *)
Theorem sync_order_budget :
  spends is_market_order 0 TpSlManager.sync /\
  spends is_take_profit 1 TpSlManager.sync /\
  spends is_stop_loss 1 TpSlManager.sync /\
  BinanceTransport.sends_at_most 4.
Proof.
  split; [| split; [| split]].
  - exact sync_spends_market_order.
  - exact sync_spends_take_profit.
  - exact sync_spends_stop_loss.
  - exact transport_sends_at_most_four.
Qed.

(** X13: one call of [process] calls the client's [place_market_order] at
    most once, and never its [place_take_profit], [place_stop_loss] or
    [cancel_order]. The call of [place_market_order] is one [_signed_post]
    under [@retry(max_retries=3)]: after a transport error the same order
    is POSTed again, at most four times in all. *)
Theorem process_order_budget (md : MarketData) :
  spends is_market_order 1 (EntryExecutor.process md) /\
  spends is_take_profit 0 (EntryExecutor.process md) /\
  spends is_stop_loss 0 (EntryExecutor.process md) /\
  spends is_cancel 0 (EntryExecutor.process md) /\
  BinanceTransport.sends_at_most 4.
Proof.
  split; [apply process_spends_market_order |].
  repeat split;
    first [ exact transport_sends_at_most_four
          | apply process_only_market_orders; tauto ].
Qed.

(** X14: one turn of the main loop calls the client's [place_market_order]
    at most once, its [place_take_profit] at most once and its
    [place_stop_loss] at most once. Each of these calls is one
    [_signed_post] under [@retry(max_retries=3)], executed at most four
    times: a turn POSTs at most four times for each of the three orders. *)
Theorem cycle_order_budget (loc : Main.Locals) :
  spends is_market_order 1 (Main.cycle loc) /\
  spends is_take_profit 1 (Main.cycle loc) /\
  spends is_stop_loss 1 (Main.cycle loc) /\
  BinanceTransport.sends_at_most 4.
Proof.
  split; [| split; [| split]].
  - apply (@cycle_spends is_market_order 1 0).
    + intros e H. unfold is_placement in H.
      destruct (is_market_order e); [discriminate | reflexivity].
    + apply process_spends_market_order.
    + apply sync_spends_market_order.
  - apply (@cycle_spends is_take_profit 0 1).
    + intros e H. unfold is_placement in H.
      destruct (is_take_profit e); [| reflexivity].
      rewrite orb_true_r in H. discriminate.
    + intros md. apply process_only_market_orders. tauto.
    + apply sync_spends_take_profit.
  - apply (@cycle_spends is_stop_loss 0 1).
    + intros e H. unfold is_placement in H.
      destruct (is_stop_loss e); [| reflexivity].
      rewrite orb_true_r in H. discriminate.
    + intros md. apply process_only_market_orders. tauto.
    + apply sync_spends_stop_loss.
  - exact transport_sends_at_most_four.
Qed.

(* ===================================================================== *)
(** * The strategy                                                        *)
(* ===================================================================== *)

(** X26: the EMA pullback strategy gives no signal until it has 50
    closes and 20 volumes of 1m candles, and its answer depends on nothing
    but the closes and the volumes of the 1m candles: the 5m candles that
    [main] fetches every turn do not enter it. *)
Theorem strategy_reads_1m_closes_and_volumes (sum : list float -> float)
    (md : MarketData) :
  ((List.length (c_close (data_1m md)) < 50)%nat \/
   (List.length (c_volume (data_1m md)) < 20)%nat ->
   fst (Strategy.generate_signal sum md) = None) /\
  (forall md' : MarketData,
      c_close (data_1m md') = c_close (data_1m md) ->
      c_volume (data_1m md') = c_volume (data_1m md) ->
      Strategy.generate_signal sum md' = Strategy.generate_signal sum md).
Proof.
  split.
  - intros Hshort. unfold Strategy.generate_signal.
    destruct (Z.of_nat (List.length (c_close (data_1m md))) <? 2)%Z;
      [reflexivity |].
    destruct Hshort as [Hc | Hv].
    + assert (H50 : Strategy.ema sum (c_close (data_1m md)) 50 = None).
      { unfold Strategy.ema.
        assert (Hlt : (Z.of_nat (List.length (c_close (data_1m md))) <? 50)%Z = true)
          by (apply Z.ltb_lt; lia).
        rewrite Hlt. reflexivity. }
      rewrite H50. destruct (Strategy.ema sum _ 20); reflexivity.
    + assert (H20 : Strategy.volume_sma sum (c_volume (data_1m md)) 20 = None).
      { unfold Strategy.volume_sma.
        assert (Hlt : (Z.of_nat (List.length (c_volume (data_1m md))) <? 20)%Z = true)
          by (apply Z.ltb_lt; lia).
        rewrite Hlt. reflexivity. }
      rewrite H20.
      destruct (Strategy.ema sum _ 20); [| reflexivity].
      destruct (Strategy.ema sum _ 50); reflexivity.
  - intros md' Hc Hv. unfold Strategy.generate_signal. rewrite Hc, Hv. reflexivity.
Qed.

(* ===================================================================== *)
(** * core/state.py, core/scheduler.py                                    *)
(* ===================================================================== *)

(** X27: [update_cycle_time] records the timestamp and leaves
    [has_position] alone; it keeps the hourly trade count when the
    timestamp falls in the hour whose key is stored and zeroes it
    otherwise, and likewise keeps or zeroes the daily loss by the day. *)
Theorem update_cycle_time_rollover (timestamp_ms stored_ms : Z)
    (stored utcnow_hour utcnow_day : Datetime.datetime) (b b' : BotState.t) :
  Datetime.utcfromtimestamp_ms stored_ms = Ok stored ->
  BotState._current_hour b = BotState._hour_key stored ->
  BotState._current_day b = Datetime.date stored ->
  BotState.update_cycle_time timestamp_ms utcnow_hour utcnow_day b = Ok b' ->
  BotState.last_cycle_time b' = Some timestamp_ms /\
  BotState.has_position b' = BotState.has_position b /\
  BotState.trades_this_hour b'
  = (if (timestamp_ms / Datetime.MS_PER_HOUR =? stored_ms / Datetime.MS_PER_HOUR)%Z
     then BotState.trades_this_hour b else 0%Z) /\
  BotState.daily_loss b'
  = (if (timestamp_ms / Datetime.MS_PER_DAY =? stored_ms / Datetime.MS_PER_DAY)%Z
     then BotState.daily_loss b else 0%float).
Proof.
  intros Hstored Hhour Hday.
  unfold BotState.update_cycle_time, BotState._maybe_reset_hour,
    BotState._maybe_reset_day.
  destruct (Datetime.utcfromtimestamp_ms timestamp_ms) as [current |] eqn:Hcur;
    simpl; [| discriminate].
  pose proof (hour_key_injective timestamp_ms stored_ms Hcur Hstored) as Hkey.
  destruct (utcfromtimestamp_fields timestamp_ms Hcur) as [Hd1 _].
  destruct (utcfromtimestamp_fields stored_ms Hstored) as [Hd2 _].
  change (BotState._hour_key current) with (TradeLimits._hour_key current).
  rewrite Hhour.
  change (BotState._hour_key stored) with (TradeLimits._hour_key stored).
  destruct (Z.eqb_spec (TradeLimits._hour_key current) (TradeLimits._hour_key stored))
    as [Ek | Ek]; simpl.
  - apply Hkey in Ek. rewrite <- Ek, Z.eqb_refl.
    rewrite Hday, Hd1, Hd2.
    destruct (Z.eqb_spec (timestamp_ms / Datetime.MS_PER_DAY + Datetime.EPOCH_ORDINAL)
                (stored_ms / Datetime.MS_PER_DAY + Datetime.EPOCH_ORDINAL))
      as [Ed | Ed]; simpl; intros H; injection H as <-; simpl.
    + assert (Ed' : (timestamp_ms / Datetime.MS_PER_DAY
                     = stored_ms / Datetime.MS_PER_DAY)%Z) by lia.
      rewrite Ed', Z.eqb_refl. repeat split; reflexivity.
    + exfalso. apply Ed. rewrite (same_hour_same_day _ _ Ek). reflexivity.
  - assert (Eh : (timestamp_ms / Datetime.MS_PER_HOUR
                  =? stored_ms / Datetime.MS_PER_HOUR)%Z = false).
    { apply Z.eqb_neq. intros E. apply Ek, Hkey, E. }
    rewrite Eh. rewrite Hday, Hd1, Hd2.
    destruct (Z.eqb_spec (timestamp_ms / Datetime.MS_PER_DAY + Datetime.EPOCH_ORDINAL)
                (stored_ms / Datetime.MS_PER_DAY + Datetime.EPOCH_ORDINAL))
      as [Ed | Ed]; simpl; intros H; injection H as <-; simpl.
    + assert (Ed' : (timestamp_ms / Datetime.MS_PER_DAY
                     = stored_ms / Datetime.MS_PER_DAY)%Z) by lia.
      rewrite Ed', Z.eqb_refl. repeat split; reflexivity.
    + assert (Ed' : (timestamp_ms / Datetime.MS_PER_DAY
                     =? stored_ms / Datetime.MS_PER_DAY)%Z = false)
        by (apply Z.eqb_neq; lia).
      rewrite Ed'. repeat split; reflexivity.
Qed.

Lemma try_except_escapes {A} (m : M A) (c : exn -> bool) (h : exn -> M A)
    (w : World) (s : Store) (e : exn) :
  (forall e' w' s', exists a, fst (h e' w' s') = Ok a) ->
  fst (try_except m c h w s) = Raise e -> c e = false.
Proof.
  intros Hh. rewrite try_except_run.
  destruct (m w s) as [[a | e'] s1]; [discriminate |].
  destruct (c e') eqn:Hc.
  - destruct (Hh e' w s1) as [a Ha]. rewrite Ha. discriminate.
  - simpl. intros H. injection H as <-. exact Hc.
Qed.

(** X28: a turn of the scheduler waits once for the next minute on
    every path: after a normal turn, after a skipped one, after an error it
    caught, and before an exception it did not catch leaves it. With a wait
    that is not interrupted, [ValueError] and [BinanceAPIError] never leave
    the turn, bad klines included; and the state a turn returns is the one
    it got or that one updated with the start time of the turn. *)
Theorem scheduler_turn_waits_and_survives (sym : string) (klines_limit : Z)
    (utcnow_hour utcnow_day : Datetime.datetime) (b : BotState.t)
    (w : World) (s : Store) :
  let r := Scheduler.cycle sym klines_limit utcnow_hour utcnow_day b w s in
  sleeps (new_events s (snd r)) = 1%nat /\
  ((forall h, sleep w h = Ok tt) ->
   forall e, fst r = Raise e -> catches_ValueError_BinanceAPIError e = false) /\
  (forall b', fst r = Ok b' ->
     b' = b \/
     BotState.update_cycle_time (time_ms w (trace s)) utcnow_hour utcnow_day b
     = Ok b').
Proof.
  cbv zeta.
  set (ends := fun r : res BotState.t * Store =>
         sleeps (new_events s (snd r)) = 1%nat /\
         ((forall h, sleep w h = Ok tt) ->
          forall e, fst r = Raise e -> catches_ValueError_BinanceAPIError e = false) /\
         (forall b', fst r = Ok b' ->
            b' = b \/
            BotState.update_cycle_time (time_ms w (trace s)) utcnow_hour
              utcnow_day b = Ok b')).
  change (ends (Scheduler.cycle sym klines_limit utcnow_hour utcnow_day b w s)).
  unfold Scheduler.cycle. rewrite bind_run. unfold clock_ms at 1.
  unfold try_finally.
  match goal with
  | |- ends (let '(r, s') := ?body w s in _) =>
      assert (Hquiet : emits (fun e => is_sleep e = false) body)
        by (unfold Scheduler.fetch_closed_klines,
              Scheduler._log_candle_snapshot; silent);
      assert (Hescape : forall e, fst (body w s) = Raise e ->
                                  catches_ValueError_BinanceAPIError e = false)
        by (intros e; apply try_except_escapes; intros; eexists; reflexivity);
      assert (Hstate : forall b', fst (body w s) = Ok b' ->
                b' = b \/
                BotState.update_cycle_time (time_ms w (trace s)) utcnow_hour
                  utcnow_day b = Ok b');
      [| destruct (@emits_filter_nil is_sleep _ body w s Hquiet) as [evs [Ht Hnone]];
         destruct (body w s) as [r1 s1] ]
  end.
  - intros b'. rewrite try_except_run, bind_run. unfold log at 1. unfold modify at 1.
    rewrite bind_run.
    destruct (Scheduler.fetch_closed_klines sym I1m klines_limit w _)
      as [[c1 | e1] s1].
    + rewrite bind_run.
      destruct (Scheduler.fetch_closed_klines sym I5m klines_limit w s1)
        as [[c5 | e5] s2].
      * destruct (c_timestamp c1).
        -- unfold bind, log, modify, ret. simpl. intros H. injection H as <-.
           left. reflexivity.
        -- rewrite bind_run.
           destruct (Scheduler._log_candle_snapshot I1m c1 w s2) as [[[] | e] s3] eqn:H1;
             [| unfold Scheduler._log_candle_snapshot in H1;
                destruct (c_timestamp c1); discriminate H1].
           rewrite bind_run.
           destruct (Scheduler._log_candle_snapshot I5m c5 w s3) as [[[] | e] s4] eqn:H5;
             [| unfold Scheduler._log_candle_snapshot in H5;
                destruct (c_timestamp c5); discriminate H5].
           rewrite bind_run. unfold lift at 1.
           destruct (BotState.update_cycle_time _ utcnow_hour utcnow_day b)
             as [b1 | e] eqn:Hup.
           ++ unfold bind, log, modify, ret. simpl. intros H. injection H as <-.
              right. reflexivity.
           ++ destruct (catches_ValueError_BinanceAPIError e).
              ** unfold bind, log, modify, ret. simpl. intros H. injection H as <-.
                 left. reflexivity.
              ** discriminate.
      * destruct (catches_ValueError_BinanceAPIError e5).
        -- unfold bind, log, modify, ret. simpl. intros H. injection H as <-.
           left. reflexivity.
        -- discriminate.
    + destruct (catches_ValueError_BinanceAPIError e1).
      * unfold bind, log, modify, ret. simpl. intros H. injection H as <-.
        left. reflexivity.
      * discriminate.
  - simpl in Ht, Hescape, Hstate.
    unfold bind, log, modify, Main._sleep_until_next_minute. simpl.
    assert (Hnew : new_events s
                     (emit Sleep (emit (Log INFO "Scheduler" "Cycle end, sleeping") s1))
                   = evs ++ [Log INFO "Scheduler" "Cycle end, sleeping"; Sleep]).
    { apply new_events_app. simpl. rewrite Ht, <- !app_assoc. reflexivity. }
    unfold ends.
    destruct (sleep w (trace s1 ++ [Log INFO "Scheduler" "Cycle end, sleeping"]))
      as [[] | e'] eqn:Hsleep; simpl; rewrite Hnew;
      (split; [unfold sleeps; rewrite filter_app, length_app, Hnone; reflexivity |]).
    + split; [intros _; exact Hescape | exact Hstate].
    + split; [| discriminate].
      intros Hcalm. rewrite Hcalm in Hsleep. discriminate.
Qed.

(* ===================================================================== *)
(** * The theorems at work                                                *)
(* ===================================================================== *)

Lemma normalize_klines_shape_witness :
  exists (c : Candles) (s' : Store),
    MarketDataService._normalize_klines Scenario.two_closed_candles I1m
      Scenario.flat Sample.store0 = (Ok c, s') /\
    exists rows ps,
      Scenario.two_closed_candles = Payload rows /\ rows <> [] /\
      MarketDataService.parse_rows rows = Ok ps /\
      List.length ps = List.length rows.
Proof.
  eexists. eexists. split; [vm_compute; reflexivity |].
  destruct (@normalize_klines_shape Scenario.two_closed_candles I1m
              Scenario.flat Sample.store0 _ _ eq_refl)
    as [rows [ps [Hk [Hne [Hps [Hlen _]]]]]].
  exists rows, ps. split; [exact Hk | split; [exact Hne | split; [exact Hps | exact Hlen]]].
Defined.

Lemma cancel_outstanding_tries_both_legs_witness :
  let r := TpSlManager._cancel_outstanding "test" Scenario.refusing_cancels
             Sample.protected_store in
  cancelled_ids (new_events Sample.protected_store (snd r)) = [11%Z; 12%Z] /\
  fst r = Ok tt /\ tp_order_id (snd r) = None /\ sl_order_id (snd r) = None.
Proof.
  intros r.
  destruct (@cancel_outstanding_tries_both_legs "test" Scenario.refusing_cancels
              Sample.protected_store 11%Z 12%Z eq_refl eq_refl eq_refl)
    as [Hids Hrest].
  destruct (Hrest (or_intror eq_refl)) as [Hok [Htp [Hsl _]]].
  split; [exact Hids | split; [exact Hok | split; [exact Htp | exact Hsl]]].
Defined.

Lemma sync_flat_exchange_witness :
  let r := TpSlManager.sync Scenario.flat Sample.protected_store in
  filter is_placement (new_events Sample.protected_store (snd r)) = [] /\
  fst r = Ok tt /\ position (snd r) = None /\ tp_order_id (snd r) = None.
Proof.
  intros r.
  destruct (@sync_flat_exchange Scenario.flat Sample.protected_store
              Sample.flat_account eq_refl eq_refl) as [Hnone [_ Hend]].
  assert (Hok : fst r = Ok tt) by reflexivity.
  destruct (Hend Hok) as [Hpos [Htp _]].
  split; [exact Hnone | split; [exact Hok | split; [exact Hpos | exact Htp]]].
Defined.

Lemma sync_aligns_tracker_witness :
  position (snd (TpSlManager.sync Scenario.holding Sample.store0))
  = PositionTracker.find_remote Sample.BTCUSDT
      (positions (Sample.account 1.5 100)).
Proof.
  apply (@sync_aligns_tracker Scenario.holding Sample.store0
           (Sample.account 1.5 100)); reflexivity.
Defined.

Lemma no_attribution_without_close_witness :
  Main.last_position_open Sample.locals0 = false /\
  spends is_pnl_attribution 0 (Main.cycle Sample.locals0).
Proof.
  split; [reflexivity |].
  apply (@no_attribution_without_close Sample.locals0). reflexivity.
Defined.

Lemma kill_switch_idle_as_shipped_witness :
  let s := snd (Main.main 2 Sample.locals0 Scenario.holding Sample.store0) in
  is_trading_allowed s = true /\
  TradeLimits.limits_exceeded (limits s) = false.
Proof.
  apply (@kill_switch_idle_as_shipped Sample.BTCUSDT Sample.t0 Sample.store0 2
           Sample.locals0 Scenario.holding).
  reflexivity.
Defined.

Lemma kill_switch_blocks_entries_witness :
  let s := Scenario.halted (Scenario.one_trade_in 20240034) in
  let s' := snd (Main.cycle Sample.locals0 Scenario.flat s) in
  TradeLimits.limits_exceeded (limits s) = true /\
  filter is_market_order (new_events s s') = [] /\
  is_trading_allowed s' = false.
Proof.
  intros s s'. split; [reflexivity |].
  apply (@kill_switch_blocks_entries Sample.locals0 Scenario.flat s).
  - reflexivity.
  - intros l H. vm_compute in H. injection H as <-. reflexivity.
Defined.

Lemma kill_switch_rearms_witness :
  let s := Scenario.halted (Scenario.one_trade_in 20240033) in
  TradeLimits.limits_exceeded (limits s) = true /\
  TradeLimits._current_day (limits s) = 738886%Z /\
  In kill_switch_reset
    (new_events s (snd (Main.cycle Sample.locals0 Scenario.flat s))).
Proof.
  intros s. split; [reflexivity | split; [reflexivity |]].
  eapply (@kill_switch_rearms Sample.locals0 Scenario.flat s).
  - reflexivity.
  - reflexivity.
  - vm_compute. reflexivity.
  - reflexivity.
Defined.

Lemma loop_keeps_legs_paired_witness :
  let r := Main.loop 1 Sample.locals0 Scenario.holding Sample.store0 in
  (exists st, fst r = Ok st) /\
  legs_paired (snd r) /\
  tp_order_id (snd r) = Some 11%Z /\ sl_order_id (snd r) = Some 12%Z.
Proof.
  intros r.
  assert (Hok : fst r = Ok (Main.Running
                              {| Main.last_position_open := true;
                                 Main.last_pnl_check_ms := Sample.t0 |}))
    by (vm_compute; reflexivity).
  split; [eexists; exact Hok |].
  split; [| split; vm_compute; reflexivity].
  apply (@loop_keeps_legs_paired Sample.BTCUSDT Sample.t0 Sample.store0 1
           Sample.locals0 Scenario.holding _ eq_refl Hok).
Defined.

Lemma no_entry_without_signal_or_when_open_witness :
  let s1 := snd (PositionTracker.sync_from_exchange Scenario.holding Sample.store0) in
  let s' := snd (EntryExecutor.process Scenario.no_data Scenario.holding
                   Sample.store0) in
  open_position s1 = true /\
  order_requests (new_events Sample.store0 s') = [] /\
  position s' = position s1.
Proof.
  intros s1 s'.
  assert (Hopen : open_position s1 = true) by (vm_compute; reflexivity).
  destruct (@no_entry_without_signal_or_when_open Scenario.no_data
              Scenario.holding Sample.store0 (or_introl Hopen)) as [Hnone Hpos].
  split; [exact Hopen | split; [exact Hnone | apply Hpos; reflexivity]].
Defined.

Lemma retry_exhausts_witness :
  exists e s' steps,
    Retry.wrapper Scenario.always_down Scenario.calm_sleep
      Scenario.on_transport_error 3 0.5 4 tt = Some (Raise e, s', steps) /\
    Scenario.on_transport_error e = true /\
    Retry.calls steps = 4%nat /\
    Retry.waits steps = [0.5; 1; 2]%float /\
    last steps Retry.Call = Retry.Exhausted 3.
Proof.
  apply (@retry_exhausts unit unit Scenario.always_down Scenario.calm_sleep
           Scenario.on_transport_error 3 0.5 tt).
  - lia.
  - intros s. exists RequestException, s. split; reflexivity.
  - intros d s. exists s. reflexivity.
Defined.

Lemma update_cycle_time_rollover_witness :
  exists b',
    BotState.update_cycle_time (Sample.t0 + Datetime.MS_PER_HOUR)
      Scenario.eleven_o_clock Scenario.eleven_o_clock Scenario.five_trades
    = Ok b' /\
    BotState.trades_this_hour b' = 0%Z /\
    BotState.daily_loss b' = (-3)%float.
Proof.
  eexists. split; [vm_compute; reflexivity |].
  destruct (@update_cycle_time_rollover (Sample.t0 + Datetime.MS_PER_HOUR)
              Sample.t0 Scenario.ten_o_clock Scenario.eleven_o_clock
              Scenario.eleven_o_clock Scenario.five_trades _
              eq_refl eq_refl eq_refl eq_refl) as [_ [_ [Hh Hd]]].
  split; [exact Hh | exact Hd].
Defined.
